(** * Workflow graph model, processor, assembler and validator

    A shallow embedding of the workflow core of the automation engine:
    - [src/models/workflow.py]            (NodePosition, N8nNode, N8nWorkflow)
    - [src/integrations/n8n_processor.py] (WorkflowProcessor)
    - [src/modules/assembly.py]           (WorkflowAssembler)
    - [src/modules/validation.py]         (WorkflowValidator)

    Conventions of the embedding.
    - A Python [str] is a [string]; characters are the code points below 256,
      and [str.lower], [str.isupper], [str.isalnum], [str.isprintable] and
      the regular expression class [\s] are written out for that range.
    - A JSON-like Python value ([Any]) is a [pyval]; a [dict] is an
      association list in insertion order, which is the order [json.dumps]
      prints.  Numbers are integers, carried as [Z].  The coordinates of a
      position are [float] in the source: the model has those whose value is
      an integer, and rounds the sums the program forms of them as the
      binary64 addition does ([float_add_int]).  Fractional coordinates,
      infinities and NaN are outside the model, and so is a coordinate of a
      document that is not the value of a binary64 number.
    - The source mutates workflows and nodes in place and returns the same
      object; here every operation returns the updated value.  A node object
      is taken to occur once in a node list.
    - Exceptions are values of a result type; the processor's and the
      assembler's errors carry what their message is built from.
    - The vault is a function from names to files; a file either fails to
      parse as JSON or holds a document.
    - Timestamps read from the clock ([created_at], [updated_at], the time
      of a validation result) are left out. *)

From Stdlib Require Import Bool Arith ZArith List String Ascii DecimalString Lia.
Import ListNotations.
Open Scope string_scope.
Set Warnings "-register-all".

(* ================================================================== *)
(** ** Characters and strings as Python sees them *)

Definition code (c : ascii) : nat := nat_of_ascii c.

Definition between (lo hi : nat) (c : ascii) : bool :=
  (lo <=? code c)%nat && (code c <=? hi)%nat.

Definition is_ascii_lower (c : ascii) : bool := between 97 122 c.
Definition is_ascii_upper (c : ascii) : bool := between 65 90 c.
Definition is_digit (c : ascii) : bool := between 48 57 c.
Definition is_underscore (c : ascii) : bool := (c =? "_")%char.

(** [c.isupper()]: A-Z, and in the Latin-1 block 0xC0-0xDE without 0xD7. *)
Definition py_isupper (c : ascii) : bool :=
  is_ascii_upper c || (between 192 222 c && negb (code c =? 215)%nat).

(** [c.lower()] on one character. *)
Definition py_lower_char (c : ascii) : ascii :=
  if py_isupper c then ascii_of_nat (code c + 32) else c.

(** The class [\s] of [re] on [str] patterns. *)
Definition py_isspace (c : ascii) : bool :=
  between 9 13 c || between 28 32 c || (code c =? 133)%nat || (code c =? 160)%nat.

(** [c.isalnum()]. *)
Definition py_isalnum (c : ascii) : bool :=
  is_digit c || is_ascii_upper c || is_ascii_lower c
  || (code c =? 170)%nat || (code c =? 178)%nat || (code c =? 179)%nat || (code c =? 181)%nat
  || (code c =? 185)%nat || (code c =? 186)%nat || between 188 190 c
  || (between 192 255 c && negb (code c =? 215)%nat && negb (code c =? 247)%nat).

Fixpoint smap (f : ascii -> ascii) (s : string) : string :=
  match s with
  | EmptyString => EmptyString
  | String c s' => String (f c) (smap f s')
  end.

Fixpoint sfilter (p : ascii -> bool) (s : string) : string :=
  match s with
  | EmptyString => EmptyString
  | String c s' => if p c then String c (sfilter p s') else sfilter p s'
  end.

Fixpoint sall (p : ascii -> bool) (s : string) : bool :=
  match s with
  | EmptyString => true
  | String c s' => p c && sall p s'
  end.

Fixpoint sany (p : ascii -> bool) (s : string) : bool :=
  match s with
  | EmptyString => false
  | String c s' => p c || sany p s'
  end.

(** Every character replaced by a string, as [re.sub] does with a function. *)
Fixpoint sflat_map (f : ascii -> string) (s : string) : string :=
  match s with
  | EmptyString => EmptyString
  | String c s' => f c ++ sflat_map f s'
  end.

(** [s.lower()] *)
Definition py_lower (s : string) : string := smap py_lower_char s.

(** [s.startswith(p)] *)
Definition startswith (s p : string) : bool := String.prefix p s.

(** [needle in s] for strings. *)
Fixpoint contains (needle s : string) : bool :=
  String.prefix needle s ||
  match s with
  | EmptyString => false
  | String _ s' => contains needle s'
  end.

(** [c in chars] for a character and a string of characters. *)
Definition char_in (c : ascii) (chars : string) : bool :=
  sany (fun d => (c =? d)%char) chars.

(** [s.replace(old, new)] for a one-character [old]. *)
Fixpoint replace_char (old : ascii) (new : string) (s : string) : string :=
  match s with
  | EmptyString => EmptyString
  | String c s' =>
      if (c =? old)%char then new ++ replace_char old new s'
      else String c (replace_char old new s')
  end.

(** [re.sub(r'[..]+', '_', s)]: every maximal run of characters of the class
    [p] becomes one underscore.  [in_run] tells that the previous character
    belonged to a run that has been replaced already. *)
Fixpoint sub_runs (p : ascii -> bool) (in_run : bool) (s : string) : string :=
  match s with
  | EmptyString => EmptyString
  | String c s' =>
      if p c then
        if in_run then sub_runs p true s'
        else String "_" (sub_runs p true s')
      else String c (sub_runs p false s')
  end.

Fixpoint lstrip (p : ascii -> bool) (s : string) : string :=
  match s with
  | EmptyString => EmptyString
  | String c s' => if p c then lstrip p s' else s
  end.

Fixpoint rstrip (p : ascii -> bool) (s : string) : string :=
  match s with
  | EmptyString => EmptyString
  | String c s' =>
      match rstrip p s' with
      | EmptyString => if p c then EmptyString else String c EmptyString
      | r => String c r
      end
  end.

(** [s.strip('_')] *)
Definition strip_underscores (s : string) : string :=
  rstrip is_underscore (lstrip is_underscore s).

(** [", ".join(l)] and friends. *)
Fixpoint join (sep : string) (l : list string) : string :=
  match l with
  | [] => ""
  | [s] => s
  | s :: l' => s ++ sep ++ join sep l'
  end.

(* ================================================================== *)
(** ** Python values *)

Inductive pyval : Type :=
| PNone
| PBool (b : bool)
| PInt (z : Z)
| PStr (s : string)
| PList (l : list pyval)
| PDict (d : list (string * pyval)).

Definition pydict : Type := list (string * pyval).

(** [d.get(k)] *)
Fixpoint dict_get (d : pydict) (k : string) : option pyval :=
  match d with
  | [] => None
  | (k', v) :: d' => if (k' =? k)%string then Some v else dict_get d' k
  end.

(** [k in d] *)
Definition dict_has (d : pydict) (k : string) : bool :=
  match dict_get d k with Some _ => true | None => false end.

(** [d[k] = v]: an existing key keeps its place, a new key goes last. *)
Fixpoint dict_set (d : pydict) (k : string) (v : pyval) : pydict :=
  match d with
  | [] => [(k, v)]
  | (k', v') :: d' =>
      if (k' =? k)%string then (k', v) :: d' else (k', v') :: dict_set d' k v
  end.

(** Truthiness of a value, as in [if v:] and [v or default]. *)
Definition truthy (v : pyval) : bool :=
  match v with
  | PNone => false
  | PBool b => b
  | PInt z => negb (z =? 0)%Z
  | PStr s => negb (s =? "")%string
  | PList l => match l with [] => false | _ => true end
  | PDict d => match d with [] => false | _ => true end
  end.

(* ================================================================== *)
(** ** The typed model: [src/models/workflow.py] *)

(** [NodePosition].  The coordinates are binary64 numbers in the source.
    The model carries those of them whose value is an integer, by that
    value, which is what a document with integer coordinates gives. *)
Record NodePosition : Type := mkPosition { x : Z; y : Z }.

(** [float(z)]: the binary64 number nearest to the integer [z], ties to the
    even mantissa.  Below [2 ^ 53] every integer is one. *)
Definition binary64 (z : Z) : Z :=
  let a := Z.abs z in
  if (a <? 2 ^ 53)%Z then z
  else
    let shift := (Z.log2 a - 52)%Z in
    let q := Z.shiftr a shift in
    let r := (a - Z.shiftl q shift)%Z in
    let half := Z.shiftl 1 (shift - 1) in
    let q := if (half <? r)%Z || ((half =? r)%Z && Z.odd q) then (q + 1)%Z else q in
    (Z.sgn z * Z.shiftl q shift)%Z.

(** [a + n] for a coordinate [a] and an [int] [n]: the [int] is made a
    float, and the sum of the two, an integer, is rounded to the nearest
    binary64 number.  The offsets of the program are far too small for a sum
    to overflow. *)
Definition float_add_int (a : Z) (n : Z) : Z := binary64 (a + binary64 n).

Module N8nNode.
Record t : Type := mk {
  id : string;
  name : string;
  type : string;
  position : NodePosition;
  parameters : pydict;
  credentials : option pydict;
  retries : Z;
  retry_on_fail : bool
}.

Definition set_name (n : t) (v : string) : t :=
  mk (id n) v (type n) (position n) (parameters n) (credentials n)
     (retries n) (retry_on_fail n).

Definition set_parameters (n : t) (v : pydict) : t :=
  mk (id n) (name n) (type n) (position n) v (credentials n)
     (retries n) (retry_on_fail n).

Definition set_retry (n : t) (r : Z) (f : bool) : t :=
  mk (id n) (name n) (type n) (position n) (parameters n) (credentials n) r f.
End N8nNode.

Module N8nWorkflow.
Record t : Type := mk {
  name : string;
  nodes : list N8nNode.t;
  connections : pydict;
  settings : pydict;
  id : option string;
  active : bool;
  tags : list string
}.

Definition set_name (w : t) (v : string) : t :=
  mk v (nodes w) (connections w) (settings w) (id w) (active w) (tags w).

Definition set_nodes (w : t) (v : list N8nNode.t) : t :=
  mk (name w) v (connections w) (settings w) (id w) (active w) (tags w).
End N8nWorkflow.

(* ================================================================== *)
(** ** Naming: [WorkflowProcessor._normalize_name] and friends *)

(** The class [[a-z0-9_]]. *)
Definition snake_char (c : ascii) : bool :=
  is_ascii_lower c || is_digit c || is_underscore c.

(** The class [[\s\-]]. *)
Definition is_separator (c : ascii) : bool :=
  py_isspace c || (c =? "-")%char.

Definition _normalize_name (name : string) : string :=
  let normalized := sub_runs is_separator false (py_lower name) in
  let normalized := sfilter snake_char normalized in
  let normalized := sub_runs is_underscore false normalized in
  let normalized := strip_underscores normalized in
  if (normalized =? "")%string then "unnamed" else normalized.

(** [prefix.split('_')[0]] for the five prefixes listed in the source. *)
Definition known_prefixes : list string :=
  ["slack_"; "hubspot_"; "salesforce_"; "gmail_"; "notion_"].

Fixpoint split_head (sep : ascii) (s : string) : string :=
  match s with
  | EmptyString => EmptyString
  | String c s' => if (c =? sep)%char then EmptyString else String c (split_head sep s')
  end.

Definition has_known_prefix (name : string) : bool :=
  existsb (fun prefix => startswith name (split_head "_" prefix)) known_prefixes.

Definition type_prefixes : list (string * string) :=
  [ ("n8n-nodes-base.slack", "slack_");
    ("n8n-nodes-base.hubspot", "hubspot_");
    ("n8n-nodes-base.salesforce", "salesforce_");
    ("n8n-nodes-base.gmail", "gmail_");
    ("n8n-nodes-base.notion", "notion_");
    ("n8n-nodes-base.webhook", "webhook_") ].

Fixpoint assoc_get (d : list (string * string)) (k default : string) : string :=
  match d with
  | [] => default
  | (k', v) :: d' => if (k' =? k)%string then v else assoc_get d' k default
  end.

Definition _add_integration_prefix (node : N8nNode.t) : string :=
  let name := N8nNode.name node in
  if has_known_prefix name then name
  else
    let prefix := assoc_get type_prefixes (N8nNode.type node) "" in
    if negb (prefix =? "")%string then prefix ++ name else name.

(** The body of the loop of [enforce_naming_conventions]. *)
Definition enforce_node_naming (node : N8nNode.t) : N8nNode.t :=
  let node := N8nNode.set_name node (_normalize_name (N8nNode.name node)) in
  N8nNode.set_name node (_add_integration_prefix node).

Definition enforce_naming_conventions (workflow : N8nWorkflow.t) : N8nWorkflow.t :=
  let workflow :=
    N8nWorkflow.set_name workflow (_normalize_name (N8nWorkflow.name workflow)) in
  N8nWorkflow.set_nodes workflow (map enforce_node_naming (N8nWorkflow.nodes workflow)).


(* ================================================================== *)
(** ** Exceptions as values *)

(** The exceptions the modelled code can raise.  The last six are the
    repository's own: [WorkflowProcessorError] with each of its messages, and
    [WorkflowAssemblerError].  Where a message embeds the text of the
    exception it wraps, the constructor carries that exception. *)
Inductive exn : Type :=
| ValidationError (msg : string)
| KeyError (key : string)
| IndexError
| TypeError
| AttributeError
| NotFoundInVault (workflow_name : string)
| InvalidJSONInWorkflow (workflow_name : string)
| InvalidWorkflowJSON (errors : list string)
| FailedToLoadWorkflow (workflow_name : string) (cause : exn)
| CannotCombineEmpty
| FailedToAssemble (cause : exn).

Definition is_WorkflowProcessorError (e : exn) : bool :=
  match e with
  | NotFoundInVault _ | InvalidJSONInWorkflow _ | InvalidWorkflowJSON _
  | FailedToLoadWorkflow _ _ | CannotCombineEmpty => true
  | _ => false
  end.

Inductive result (A : Type) : Type :=
| Ok (a : A)
| Raise (e : exn).
Arguments Ok {A} a.
Arguments Raise {A} e.

Definition bind {A B : Type} (r : result A) (k : A -> result B) : result B :=
  match r with
  | Ok a => k a
  | Raise e => Raise e
  end.

Notation "x <- r ;; k" := (bind r (fun x => k))
  (at level 61, r at next level, right associativity).

(** A loop whose body can raise: the first exception ends it. *)
Fixpoint mapM {A B : Type} (f : A -> result B) (l : list A) : result (list B) :=
  match l with
  | [] => Ok []
  | a :: l' => b <- f a ;; bs <- mapM f l' ;; Ok (b :: bs)
  end.

(** [enumerate(l, start)] *)
Fixpoint enumerate_from {A : Type} (start : nat) (l : list A) : list (nat * A) :=
  match l with
  | [] => []
  | a :: l' => (start, a) :: enumerate_from (S start) l'
  end.

Definition enumerate {A : Type} (l : list A) : list (nat * A) := enumerate_from 0 l.

(* ================================================================== *)
(** ** Construction and its validators *)

Definition double_quote : ascii := "034"%char.

Definition valid_chars : string :=
  "abcdefghijklmnopqrstuvwxyzABCDEFGHIJKLMNOPQRSTUVWXYZ0123456789_".

(** The punctuation listed by [validate_naming_convention]. *)
Definition forbidden_punctuation : string :=
  "!@#$%^&*()-+={}[]|\:;" ++ String double_quote "<>?,./~`".

Definition snake_case_message : string := "Node names should use snake_case convention".

(** [N8nNode.validate_naming_convention] *)
Definition validate_naming_convention (v : string) : result string :=
  if negb (sall (fun c => char_in c valid_chars) v) then
    Raise (ValidationError snake_case_message)
  else if char_in " " v || sany py_isupper v
          || sany (fun c => char_in c forbidden_punctuation) v then
    Raise (ValidationError snake_case_message)
  else Ok v.

(** [N8nNode.validate_retry_count] *)
Definition validate_retry_count (v : Z) : result Z :=
  if negb (v =? 3)%Z then
    Raise (ValidationError
             "Nodes should use exactly 3 retries for exponential backoff pattern")
  else Ok v.

(** [N8nNode(id=.., name=.., type=.., position=.., parameters=..,
    credentials=.., retries=.., retry_on_fail=..)] on arguments of the
    declared types. *)
Definition N8nNode_new (id name type : string) (position : NodePosition)
    (parameters : pydict) (credentials : option pydict)
    (retries : Z) (retry_on_fail : bool) : result N8nNode.t :=
  name <- validate_naming_convention name ;;
  retries <- validate_retry_count retries ;;
  Ok (N8nNode.mk id name type position parameters credentials retries retry_on_fail).

Definition default_retries : Z := 3.
Definition default_retry_on_fail : bool := true.

(** [N8nWorkflow.validate_workflow_naming] *)
Definition workflow_valid_chars : string := "abcdefghijklmnopqrstuvwxyz0123456789_".

Definition validate_workflow_naming (v : string) : string :=
  let normalized := replace_char "-" "_" (replace_char " " "_" (py_lower v)) in
  let normalized :=
    smap (fun c => if char_in c workflow_valid_chars then c else "_"%char) normalized in
  strip_underscores (sub_runs is_underscore false normalized).

(** [N8nWorkflow.validate_required_nodes] *)
Definition validate_required_nodes (v : list N8nNode.t) : result (list N8nNode.t) :=
  match v with
  | [] => Raise (ValidationError "Workflow must contain at least one node")
  | _ => Ok v
  end.

(** [N8nWorkflow(name=.., nodes=.., connections=.., settings=.., id=..,
    active=.., tags=..)].  The two timestamps [created_at] and [updated_at]
    are read from the clock and are not part of the model. *)
Definition N8nWorkflow_new (name : string) (nodes : list N8nNode.t)
    (connections settings : pydict) (id : option string) (active : bool)
    (tags : list string) : result N8nWorkflow.t :=
  nodes <- validate_required_nodes nodes ;;
  Ok (N8nWorkflow.mk (validate_workflow_naming name) nodes connections settings
                     id active tags).

(** [N8nWorkflow.validate_node_connections] *)
Definition node_ids (w : N8nWorkflow.t) : list string :=
  map N8nNode.id (N8nWorkflow.nodes w).

Definition id_in (ids : list string) (i : string) : bool :=
  existsb (fun j => (j =? i)%string) ids.

(** Python's [str(v)] and [repr(v)], used where a value lands in an f-string. *)
Definition string_of_nat (n : nat) : string :=
  DecimalString.NilEmpty.string_of_uint (Nat.to_uint n).

Definition string_of_Z (z : Z) : string :=
  DecimalString.NilZero.string_of_int (Z.to_int z).

Definition hex_digit (n : nat) : ascii :=
  if (n <? 10)%nat then ascii_of_nat (48 + n) else ascii_of_nat (87 + n).

Definition hex2 (c : ascii) : string :=
  String (hex_digit (code c / 16)) (String (hex_digit (code c mod 16)) "").

Definition backslash : ascii := "092"%char.
Definition single_quote : ascii := "039"%char.
Definition newline : ascii := "010"%char.

(** [str.isprintable] on one character. *)
Definition py_isprintable (c : ascii) : bool :=
  negb ((code c <? 32)%nat || between 127 160 c || (code c =? 173)%nat).

(** [repr(s)] for a string. *)
Definition repr_char (quote c : ascii) : string :=
  if (c =? backslash)%char || (c =? quote)%char then String backslash (String c "")
  else if (code c =? 9)%nat then String backslash "t"
  else if (code c =? 10)%nat then String backslash "n"
  else if (code c =? 13)%nat then String backslash "r"
  else if py_isprintable c then String c ""
  else String backslash ("x" ++ hex2 c).

Definition repr_str (s : string) : string :=
  let quote :=
    if char_in single_quote s && negb (char_in double_quote s)
    then double_quote else single_quote in
  String quote (sflat_map (repr_char quote) s) ++ String quote "".

Fixpoint py_repr (v : pyval) : string :=
  match v with
  | PNone => "None"
  | PBool true => "True"
  | PBool false => "False"
  | PInt z => string_of_Z z
  | PStr s => repr_str s
  | PList l => "[" ++ join ", " (map py_repr l) ++ "]"
  | PDict d =>
      "{" ++ join ", " (map (fun kv => match kv with
                                       | (k, v) => repr_str k ++ ": " ++ py_repr v
                                       end) d) ++ "}"
  end.

(** [str(v)], which is what an f-string field prints. *)
Definition py_str (v : pyval) : string :=
  match v with
  | PStr s => s
  | _ => py_repr v
  end.

(** [json.dumps(v)] with its defaults: [", "] and [": "] as separators and
    every character outside the printable ASCII range escaped. *)
Definition json_escape_char (c : ascii) : string :=
  if (c =? double_quote)%char then String backslash (String double_quote "")
  else if (c =? backslash)%char then String backslash (String backslash "")
  else if (code c =? 10)%nat then String backslash "n"
  else if (code c =? 13)%nat then String backslash "r"
  else if (code c =? 9)%nat then String backslash "t"
  else if (code c =? 12)%nat then String backslash "f"
  else if (code c =? 8)%nat then String backslash "b"
  else if between 32 126 c then String c ""
  else String backslash ("u00" ++ hex2 c).

Definition json_string (s : string) : string :=
  String double_quote (sflat_map json_escape_char s) ++ String double_quote "".

Fixpoint json_dumps (v : pyval) : string :=
  match v with
  | PNone => "null"
  | PBool true => "true"
  | PBool false => "false"
  | PInt z => string_of_Z z
  | PStr s => json_string s
  | PList l => "[" ++ join ", " (map json_dumps l) ++ "]"
  | PDict d =>
      "{" ++ join ", " (map (fun kv => match kv with
                                       | (k, v) => json_string k ++ ": " ++ json_dumps v
                                       end) d) ++ "}"
  end.

(* ================================================================== *)
(** ** Operations on untyped values *)

(** [v.get(k, default)] *)
Definition py_get (v : pyval) (k : string) (default : pyval) : result pyval :=
  match v with
  | PDict d => Ok (match dict_get d k with Some a => a | None => default end)
  | _ => Raise AttributeError
  end.

(** [v[k]] for a string [k] *)
Definition py_item (v : pyval) (k : string) : result pyval :=
  match v with
  | PDict d => match dict_get d k with Some a => Ok a | None => Raise (KeyError k) end
  | _ => Raise TypeError
  end.

(** [v[i]] for a literal index [i] *)
Definition py_index (v : pyval) (i : nat) : result pyval :=
  match v with
  | PList l => match nth_error l i with Some a => Ok a | None => Raise IndexError end
  | PStr s => match String.get i s with
              | Some c => Ok (PStr (String c ""))
              | None => Raise IndexError
              end
  | PDict _ => Raise (KeyError (string_of_nat i))
  | _ => Raise TypeError
  end.

(** [k in v] for a string [k] *)
Definition py_in (k : string) (v : pyval) : result bool :=
  match v with
  | PDict d => Ok (dict_has d k)
  | PStr s => Ok (contains k s)
  | PList l => Ok (existsb (fun e => match e with
                                     | PStr s => (s =? k)%string
                                     | _ => false
                                     end) l)
  | _ => Raise TypeError
  end.

(** [for e in v] *)
Definition py_iter (v : pyval) : result (list pyval) :=
  match v with
  | PList l => Ok l
  | PStr s => Ok (map (fun c => PStr (String c "")) (list_ascii_of_string s))
  | PDict d => Ok (map (fun kv => PStr (fst kv)) d)
  | _ => Raise TypeError
  end.

(** [v.items()] *)
Definition py_items (v : pyval) : result pydict :=
  match v with
  | PDict d => Ok d
  | _ => Raise AttributeError
  end.

(** What pydantic accepts for a field of the given type, among the values a
    JSON document can hold.  Integers stand for all numbers, and a [bool] is
    taken for the number 0 or 1.  For a [float] field the integer of the
    document is taken to be the value of a binary64 number, as every
    integer below [2 ^ 53] is, so that it is kept as it is; a string that
    pydantic would parse into a number is not accepted here. *)
Definition as_str (v : pyval) : result string :=
  match v with
  | PStr s => Ok s
  | _ => Raise (ValidationError "Input should be a valid string")
  end.

Definition as_float (v : pyval) : result Z :=
  match v with
  | PInt z => Ok z
  | PBool b => Ok (if b then 1 else 0)%Z
  | _ => Raise (ValidationError "Input should be a valid number")
  end.

Definition as_dict (v : pyval) : result pydict :=
  match v with
  | PDict d => Ok d
  | _ => Raise (ValidationError "Input should be a valid dictionary")
  end.

Definition as_optional_dict (v : pyval) : result (option pydict) :=
  match v with
  | PNone => Ok None
  | PDict d => Ok (Some d)
  | _ => Raise (ValidationError "Input should be a valid dictionary")
  end.

Definition as_optional_str (v : pyval) : result (option string) :=
  match v with
  | PNone => Ok None
  | PStr s => Ok (Some s)
  | _ => Raise (ValidationError "Input should be a valid string")
  end.

Definition bool_true_words : list string := ["1"; "on"; "t"; "true"; "y"; "yes"].
Definition bool_false_words : list string := ["0"; "off"; "f"; "false"; "n"; "no"].

Definition as_bool (v : pyval) : result bool :=
  let bad := Raise (ValidationError "Input should be a valid boolean") in
  match v with
  | PBool b => Ok b
  | PInt 0 => Ok false
  | PInt 1 => Ok true
  | PStr s =>
      if id_in bool_true_words (py_lower s) then Ok true
      else if id_in bool_false_words (py_lower s) then Ok false
      else bad
  | _ => bad
  end.

Definition as_str_list (v : pyval) : result (list string) :=
  match v with
  | PList l => mapM as_str l
  | _ => Raise (ValidationError "Input should be a valid list")
  end.

(* ================================================================== *)
(** ** The wire format: [to_n8n_json] and [from_n8n_json] *)

Definition node_to_n8n_json (node : N8nNode.t) : pyval :=
  PDict ([ ("id", PStr (N8nNode.id node));
           ("name", PStr (N8nNode.name node));
           ("type", PStr (N8nNode.type node));
           ("position", PList [PInt (x (N8nNode.position node));
                               PInt (y (N8nNode.position node))]);
           ("parameters", PDict (N8nNode.parameters node)) ]
         ++ match N8nNode.credentials node with
            | Some c => if truthy (PDict c) then [("credentials", PDict c)] else []
            | None => []
            end).

Definition to_n8n_json (self : N8nWorkflow.t) : pyval :=
  PDict ([ ("name", PStr (N8nWorkflow.name self));
           ("nodes", PList (map node_to_n8n_json (N8nWorkflow.nodes self)));
           ("connections", PDict (N8nWorkflow.connections self));
           ("settings", PDict (N8nWorkflow.settings self));
           ("active", PBool (N8nWorkflow.active self));
           ("tags", PList (map PStr (N8nWorkflow.tags self))) ]
         ++ match N8nWorkflow.id self with
            | Some i => if truthy (PStr i) then [("id", PStr i)] else []
            | None => []
            end).

(** The body of the loop of [from_n8n_json]. *)
Definition node_from_n8n_json (node_data : pyval) : result N8nNode.t :=
  position <- py_get node_data "position" (PList [PInt 0; PInt 0]) ;;
  id <- py_item node_data "id" ;;
  name <- py_item node_data "name" ;;
  type <- py_item node_data "type" ;;
  px <- py_index position 0 ;;
  py <- py_index position 1 ;;
  px <- as_float px ;;
  py <- as_float py ;;
  parameters <- py_get node_data "parameters" (PDict []) ;;
  credentials <- py_get node_data "credentials" PNone ;;
  id <- as_str id ;;
  name <- as_str name ;;
  type <- as_str type ;;
  parameters <- as_dict parameters ;;
  credentials <- as_optional_dict credentials ;;
  N8nNode_new id name type (mkPosition px py) parameters credentials
              default_retries default_retry_on_fail.

Definition from_n8n_json (data : pyval) : result N8nWorkflow.t :=
  raw_nodes <- py_get data "nodes" (PList []) ;;
  raw_nodes <- py_iter raw_nodes ;;
  nodes <- mapM node_from_n8n_json raw_nodes ;;
  name <- py_item data "name" ;;
  connections <- py_get data "connections" (PDict []) ;;
  settings <- py_get data "settings" (PDict []) ;;
  id <- py_get data "id" PNone ;;
  active <- py_get data "active" (PBool false) ;;
  tags <- py_get data "tags" (PList []) ;;
  name <- as_str name ;;
  connections <- as_dict connections ;;
  settings <- as_dict settings ;;
  id <- as_optional_str id ;;
  active <- as_bool active ;;
  tags <- as_str_list tags ;;
  N8nWorkflow_new name nodes connections settings id active tags.

(** [N8nWorkflow.validate_node_connections] *)
Definition source_not_found (source_id : string) : string :=
  "Connection source node '" ++ source_id ++ "' not found in workflow".

Definition destination_not_found (dest_node : pyval) : string :=
  "Connection destination node '" ++ py_str dest_node ++ "' not found in workflow".

(** [dest_node not in node_ids], the membership test in a set of strings. *)
Definition not_in_id_set (ids : list string) (v : pyval) : result bool :=
  match v with
  | PStr s => Ok (negb (id_in ids s))
  | PList _ | PDict _ => Raise TypeError
  | _ => Ok true
  end.

Definition check_destination (ids : list string) (dest : pyval) : result (list string) :=
  match dest with
  | PDict d =>
      match dict_get d "node" with
      | Some dest_node =>
          if truthy dest_node then
            missing <- not_in_id_set ids dest_node ;;
            Ok (if missing then [destination_not_found dest_node] else [])
          else Ok []
      | None => Ok []
      end
  | _ => Ok []
  end.

Definition check_output (ids : list string) (destinations : pyval) : result (list string) :=
  let destinations :=
    match destinations with
    | PList l => l
    | other => [other]
    end in
  errs <- mapM (check_destination ids) destinations ;;
  Ok (List.concat errs).

Definition check_source (ids : list string) (entry : string * pyval) : result (list string) :=
  let (source_id, connections) := entry in
  if negb (id_in ids source_id) then Ok [source_not_found source_id]
  else
    outputs <- py_items connections ;;
    errs <- mapM (fun out => check_output ids (snd out)) outputs ;;
    Ok (List.concat errs).

Definition validate_node_connections (self : N8nWorkflow.t) : result (list string) :=
  errs <- mapM (check_source (node_ids self)) (N8nWorkflow.connections self) ;;
  Ok (List.concat errs).

(* ================================================================== *)
(** ** The processor: reading the vault *)

(** [re.match(r"^[a-z0-9_]+$", s)]: one or more characters of the class up
    to the end of the string, or up to one final newline. *)
Fixpoint match_snake_rest (s : string) : bool :=
  match s with
  | EmptyString => true
  | String c s' =>
      if snake_char c then match_snake_rest s'
      else (c =? newline)%char && (s' =? "")%string
  end.

Definition match_node_naming (s : string) : bool :=
  match s with
  | EmptyString => false
  | String c s' => snake_char c && match_snake_rest s'
  end.

Definition node_prefix (index : nat) : string := "Node " ++ string_of_nat index.

Definition missing_node_field (index : nat) (field : string) : string :=
  node_prefix index ++ ": Missing required field '" ++ field ++ "'".

Definition should_use_snake_case (index : nat) (node_name : string) : string :=
  node_prefix index ++ ": Node name '" ++ node_name
  ++ "' should use snake_case convention".

Definition position_shape_error (index : nat) : string :=
  node_prefix index ++ ": Position must be array of two numbers [x, y]".

Definition coordinate_error (index i : nat) : string :=
  node_prefix index ++ ": Position coordinate " ++ string_of_nat i
  ++ " must be a number".

(** [isinstance(coord, (int, float))]; a [bool] is an [int]. *)
Definition is_number (v : pyval) : bool :=
  match v with
  | PInt _ | PBool _ => true
  | _ => false
  end.

(** [WorkflowProcessor._validate_node_structure] *)
Definition _validate_node_structure (node : pyval) (index : nat) : result (list string) :=
  missing <- mapM (fun field =>
                     present <- py_in field node ;;
                     Ok (if present then [] else [missing_node_field index field]))
                  ["id"; "name"; "type"; "position"] ;;
  node_name <- py_get node "name" (PStr "") ;;
  naming <- (if truthy node_name then
               match node_name with
               | PStr s => Ok (if match_node_naming (py_lower s) then []
                               else [should_use_snake_case index s])
               | _ => Raise AttributeError
               end
             else Ok []) ;;
  position <- py_get node "position" (PList []) ;;
  Ok (List.concat missing ++ naming ++
      match position with
      | PList [a; b] =>
          List.concat (map (fun ic => if is_number (snd ic) then []
                                 else [coordinate_error index (fst ic)])
                      (enumerate [a; b]))
      | _ => [position_shape_error index]
      end)%list.

(** [WorkflowProcessor.validate_workflow_json] *)
Definition missing_field (field : string) : string :=
  "Missing required field: " ++ field.

Definition validate_workflow_json (workflow_data : pyval) : result (list string) :=
  missing <- mapM (fun field =>
                     present <- py_in field workflow_data ;;
                     Ok (if present then [] else [missing_field field]))
                  ["name"; "nodes"; "connections"] ;;
  nodes <- py_get workflow_data "nodes" (PList []) ;;
  node_errors <- match nodes with
                 | PList l =>
                     errs <- mapM (fun i_node => _validate_node_structure (snd i_node)
                                                                         (fst i_node))
                                  (enumerate l) ;;
                     Ok (List.concat errs)
                 | _ => Ok ["'nodes' must be an array"]
                 end ;;
  connections <- py_get workflow_data "connections" (PDict []) ;;
  Ok (List.concat missing ++ node_errors ++
      match connections with
      | PDict _ => []
      | _ => ["'connections' must be an object"]
      end)%list.

(** The vault: what is stored under [<vault>/<name>.json], if anything: a
    text that [json.load] rejects, or the document it reads. *)
Inductive vault_file : Type :=
| Malformed
| Document (data : pyval).

Definition vault : Type := string -> option vault_file.


(** [WorkflowProcessor.load_workflow_from_vault].  Inside the [try], the
    handler for [Exception] also catches the error raised for the structural
    errors and wraps it. *)
Definition load_workflow_from_vault (v : vault) (workflow_name : string)
  : result N8nWorkflow.t :=
  match v workflow_name with
  | None => Raise (NotFoundInVault workflow_name)
  | Some Malformed => Raise (InvalidJSONInWorkflow workflow_name)
  | Some (Document workflow_data) =>
      match (errors <- validate_workflow_json workflow_data ;;
             match errors with
             | [] => from_n8n_json workflow_data
             | _ => Raise (InvalidWorkflowJSON errors)
             end) with
      | Ok workflow => Ok workflow
      | Raise e => Raise (FailedToLoadWorkflow workflow_name e)
      end
  end.

(* ================================================================== *)
(** ** [hashlib.md5], for the workflow salt *)

Module MD5.
Local Open Scope Z_scope.

Definition mask32 (z : Z) : Z := Z.land z 4294967295.
Definition not32 (z : Z) : Z := Z.lxor z 4294967295.
Definition rotl32 (z s : Z) : Z :=
  mask32 (Z.lor (Z.shiftl z s) (Z.shiftr z (32 - s))).

Definition K : list Z :=
  [ 3614090360; 3905402710; 606105819; 3250441966;
    4118548399; 1200080426; 2821735955; 4249261313;
    1770035416; 2336552879; 4294925233; 2304563134;
    1804603682; 4254626195; 2792965006; 1236535329;
    4129170786; 3225465664; 643717713; 3921069994;
    3593408605; 38016083; 3634488961; 3889429448;
    568446438; 3275163606; 4107603335; 1163531501;
    2850285829; 4243563512; 1735328473; 2368359562;
    4294588738; 2272392833; 1839030562; 4259657740;
    2763975236; 1272893353; 4139469664; 3200236656;
    681279174; 3936430074; 3572445317; 76029189;
    3654602809; 3873151461; 530742520; 3299628645;
    4096336452; 1126891415; 2878612391; 4237533241;
    1700485571; 2399980690; 4293915773; 2240044497;
    1873313359; 4264355552; 2734768916; 1309151649;
    4149444226; 3174756917; 718787259; 3951481745 ].

Definition shifts : list Z :=
  [ 7; 12; 17; 22; 7; 12; 17; 22; 7; 12; 17; 22; 7; 12; 17; 22;
    5; 9; 14; 20; 5; 9; 14; 20; 5; 9; 14; 20; 5; 9; 14; 20;
    4; 11; 16; 23; 4; 11; 16; 23; 4; 11; 16; 23; 4; 11; 16; 23;
    6; 10; 15; 21; 6; 10; 15; 21; 6; 10; 15; 21; 6; 10; 15; 21 ].

(** [s.encode()]: UTF-8 of code points below 256. *)
Definition utf8 (s : string) : list Z :=
  flat_map (fun c => let n := Z.of_nat (code c) in
                     if n <? 128 then [n] else [192 + n / 64; 128 + n mod 64])
           (list_ascii_of_string s).

Fixpoint le_bytes (count : nat) (z : Z) : list Z :=
  match count with
  | O => []
  | S count' => (z mod 256) :: le_bytes count' (z / 256)
  end.

Definition pad (msg : list Z) : list Z :=
  let len := Z.of_nat (List.length msg) in
  (msg ++ [128] ++ repeat 0 (Z.to_nat ((55 - len) mod 64)) ++ le_bytes 8 (len * 8))%list.

Fixpoint words (bytes : list Z) : list Z :=
  match bytes with
  | b0 :: b1 :: b2 :: b3 :: rest =>
      (b0 + 256 * b1 + 65536 * b2 + 16777216 * b3) :: words rest
  | _ => []
  end.

Definition state : Type := (Z * Z * Z * Z)%type.

Definition step (M : list Z) (st : state) (i : nat) : state :=
  let '(A, B, C, D) := st in
  let iz := Z.of_nat i in
  let '(F, g) :=
    if iz <? 16 then (Z.lor (Z.land B C) (Z.land (not32 B) D), iz)
    else if iz <? 32 then (Z.lor (Z.land D B) (Z.land (not32 D) C), (5 * iz + 1) mod 16)
    else if iz <? 48 then (Z.lxor B (Z.lxor C D), (3 * iz + 5) mod 16)
    else (Z.lxor C (Z.lor B (not32 D)), (7 * iz) mod 16) in
  let F := mask32 (F + A + nth i K 0 + nth (Z.to_nat g) M 0) in
  (D, mask32 (B + rotl32 F (nth i shifts 0)), B, C).

Definition chunk (st : state) (M : list Z) : state :=
  let '(a0, b0, c0, d0) := st in
  let '(A, B, C, D) := fold_left (step M) (seq 0 64) st in
  (mask32 (a0 + A), mask32 (b0 + B), mask32 (c0 + C), mask32 (d0 + D)).

Fixpoint chunks (count : nat) (ws : list Z) (st : state) : state :=
  match count with
  | O => st
  | S count' => chunks count' (skipn 16 ws) (chunk st (firstn 16 ws))
  end.

Definition digest (msg : list Z) : list Z :=
  let ws := words (pad msg) in
  let '(a, b, c, d) :=
    chunks (List.length ws / 16) ws (1732584193, 4023233417, 2562383102, 271733878) in
  (le_bytes 4 a ++ le_bytes 4 b ++ le_bytes 4 c ++ le_bytes 4 d)%list.

Definition hexdigest (s : string) : string :=
  String.concat "" (map (fun b => hex2 (ascii_of_nat (Z.to_nat b))) (digest (utf8 s))).
End MD5.

(* ================================================================== *)
(** ** The processor: transformations *)

(** The body of the loop of [inject_retry_logic]. *)
Definition inject_retry_node (node : N8nNode.t) : N8nNode.t :=
  if (N8nNode.retries node =? 3)%Z && N8nNode.retry_on_fail node then node
  else
    let node := N8nNode.set_retry node 3 true in
    if negb (dict_has (N8nNode.parameters node) "retryOnFail") then
      N8nNode.set_parameters node
        (dict_set (dict_set (dict_set (N8nNode.parameters node)
                                      "retryOnFail" (PBool true))
                            "maxTries" (PInt 3))
                  "waitBetweenTries" (PInt 200))
    else node.

Definition inject_retry_logic (workflow : N8nWorkflow.t) : N8nWorkflow.t :=
  N8nWorkflow.set_nodes workflow (map inject_retry_node (N8nWorkflow.nodes workflow)).

Definition idempotent_types : list string :=
  [ "n8n-nodes-base.googleSheets"; "n8n-nodes-base.airtable";
    "n8n-nodes-base.salesforce"; "n8n-nodes-base.hubspot";
    "n8n-nodes-base.notion" ].

Definition _supports_idempotency (node : N8nNode.t) : bool :=
  id_in idempotent_types (N8nNode.type node).

Definition add_idempotency_keys (workflow : N8nWorkflow.t) (key_field : string)
  : N8nWorkflow.t :=
  let workflow_salt := substring 0 8 (MD5.hexdigest (N8nWorkflow.name workflow)) in
  N8nWorkflow.set_nodes workflow
    (map (fun node =>
            if _supports_idempotency node then
              let idempotency_expression := "{{ hash('" ++ key_field ++ "') }}" in
              N8nNode.set_parameters node
                (dict_set (dict_set (dict_set (N8nNode.parameters node)
                                              "idempotencyKey" (PStr idempotency_expression))
                                    "deduplicationField" (PStr key_field))
                          "workflowSalt" (PStr workflow_salt))
            else node)
         (N8nWorkflow.nodes workflow)).

Definition log_node (workflow_name : string) (i : nat) (node : N8nNode.t)
  : result N8nNode.t :=
  N8nNode_new
    ("log_" ++ N8nNode.id node ++ "_" ++ string_of_nat i)
    ("log__" ++ N8nNode.name node)
    "n8n-nodes-base.set"
    (mkPosition (float_add_int (x (N8nNode.position node)) 300)
                (y (N8nNode.position node)))
    [ ("values", PDict
         [ ("timestamp", PStr "{{ new Date().toISOString() }}");
           ("node_id", PStr (N8nNode.id node));
           ("node_name", PStr (N8nNode.name node));
           ("workflow_name", PStr workflow_name);
           ("execution_time", PStr "{{ $now - $nodeExecutionStart }}");
           ("success", PStr "{{ $node.success }}");
           ("item_count", PStr "{{ $input.all().length }}") ]);
      ("options", PDict [ ("dotNotation", PBool true) ]) ]
    None 3 true.

Definition has_shadow_prefix (prefixes : list string) (node : N8nNode.t) : bool :=
  existsb (startswith (N8nNode.name node)) prefixes.

(** One shadow node for every enumerated node that does not carry one of the
    prefixes; the index is the position of the original in the node list. *)
Definition shadow_nodes (prefixes : list string)
    (make : nat -> N8nNode.t -> result N8nNode.t) (nodes : list N8nNode.t)
  : result (list N8nNode.t) :=
  mapM (fun i_node => make (fst i_node) (snd i_node))
       (filter (fun i_node => negb (has_shadow_prefix prefixes (snd i_node)))
               (enumerate nodes)).

Definition add_logging_instrumentation (workflow : N8nWorkflow.t)
  : result N8nWorkflow.t :=
  logging_nodes <- shadow_nodes ["log__"; "error__"]
                                (log_node (N8nWorkflow.name workflow))
                                (N8nWorkflow.nodes workflow) ;;
  Ok (N8nWorkflow.set_nodes workflow (N8nWorkflow.nodes workflow ++ logging_nodes)%list).

Definition error_node (workflow_name : string) (i : nat) (node : N8nNode.t)
  : result N8nNode.t :=
  N8nNode_new
    ("error_" ++ N8nNode.id node ++ "_" ++ string_of_nat i)
    ("error__" ++ N8nNode.name node)
    "n8n-nodes-base.webhook"
    (mkPosition (x (N8nNode.position node))
                (float_add_int (y (N8nNode.position node)) 300))
    [ ("path", PStr "/error-handler");
      ("httpMethod", PStr "POST");
      ("responseMode", PStr "onReceived");
      ("errorData", PDict
         [ ("original_node", PStr (N8nNode.name node));
           ("workflow_name", PStr workflow_name);
           ("timestamp", PStr "{{ new Date().toISOString() }}");
           ("error_message", PStr "{{ $json.error }}");
           ("input_data", PStr "{{ $json.input }}") ]) ]
    None 3 true.

(** [_update_error_connections] does nothing. *)
Definition _update_error_connections (workflow : N8nWorkflow.t) : N8nWorkflow.t :=
  workflow.

Definition add_error_handling (workflow : N8nWorkflow.t) : result N8nWorkflow.t :=
  error_nodes <- shadow_nodes ["error__"]
                              (error_node (N8nWorkflow.name workflow))
                              (N8nWorkflow.nodes workflow) ;;
  Ok (_update_error_connections
        (N8nWorkflow.set_nodes workflow (N8nWorkflow.nodes workflow ++ error_nodes)%list)).

(* ================================================================== *)
(** ** The processor: [combine_workflows] *)

Definition prefixed (workflow_name s : string) : string :=
  workflow_name ++ "_" ++ s.

(** The node built for one node of a workflow after the first. *)
Definition prefixed_node (workflow_name : string) (x_offset y_offset : Z)
    (node : N8nNode.t) : result N8nNode.t :=
  N8nNode_new
    (prefixed workflow_name (N8nNode.id node))
    (prefixed workflow_name (N8nNode.name node))
    (N8nNode.type node)
    (mkPosition (float_add_int (x (N8nNode.position node)) x_offset)
                (float_add_int (y (N8nNode.position node)) y_offset))
    (N8nNode.parameters node)
    (N8nNode.credentials node)
    (N8nNode.retries node)
    (N8nNode.retry_on_fail node).

Definition rewrite_destination (workflow_name : string) (dest : pyval) : pyval :=
  match dest with
  | PDict d =>
      match dict_get d "node" with
      | Some n => PDict (dict_set d "node" (PStr (prefixed workflow_name (py_str n))))
      | None => dest
      end
  | _ => dest
  end.

Definition rewrite_destinations (workflow_name : string) (destinations : pyval) : pyval :=
  match destinations with
  | PList l => PList (map (rewrite_destination workflow_name) l)
  | other => other
  end.

Definition rewrite_targets (workflow_name : string) (targets : pyval) : result pydict :=
  outputs <- py_items targets ;;
  Ok (fold_left (fun acc out =>
                   dict_set acc (fst out) (rewrite_destinations workflow_name (snd out)))
                outputs []).

Fixpoint rewrite_connections (workflow_name : string) (connections acc : pydict)
  : result pydict :=
  match connections with
  | [] => Ok acc
  | (source_id, targets) :: rest =>
      new_targets <- rewrite_targets workflow_name targets ;;
      rewrite_connections workflow_name rest
        (dict_set acc (prefixed workflow_name source_id) (PDict new_targets))
  end.

(** One turn of the loop over [workflows[1:]]. *)
Definition merge_workflow (combined : N8nWorkflow.t) (x_offset y_offset : Z)
    (workflow : N8nWorkflow.t) : result N8nWorkflow.t :=
  new_nodes <- mapM (prefixed_node (N8nWorkflow.name workflow) x_offset y_offset)
                    (N8nWorkflow.nodes workflow) ;;
  connections <- rewrite_connections (N8nWorkflow.name workflow)
                                     (N8nWorkflow.connections workflow)
                                     (N8nWorkflow.connections combined) ;;
  Ok (N8nWorkflow.mk (N8nWorkflow.name combined)
                     (N8nWorkflow.nodes combined ++ new_nodes)%list
                     connections
                     (N8nWorkflow.settings combined)
                     (N8nWorkflow.id combined)
                     (N8nWorkflow.active combined)
                     (N8nWorkflow.tags combined)).

Fixpoint merge_workflows (combined : N8nWorkflow.t) (x_offset y_offset : Z)
    (rest : list N8nWorkflow.t) : result N8nWorkflow.t :=
  match rest with
  | [] => Ok combined
  | workflow :: rest' =>
      combined <- merge_workflow combined x_offset y_offset workflow ;;
      merge_workflows combined (x_offset + 800) y_offset rest'
  end.

Definition combine_workflows (workflows : list N8nWorkflow.t) (combined_name : string)
  : result N8nWorkflow.t :=
  match workflows with
  | [] => Raise CannotCombineEmpty
  | [original] =>
      N8nWorkflow_new combined_name
        (N8nWorkflow.nodes original) (N8nWorkflow.connections original)
        (N8nWorkflow.settings original) (N8nWorkflow.id original)
        (N8nWorkflow.active original) (N8nWorkflow.tags original)
  | first_workflow :: rest =>
      combined <- N8nWorkflow_new combined_name
                    (N8nWorkflow.nodes first_workflow)
                    (N8nWorkflow.connections first_workflow)
                    (N8nWorkflow.settings first_workflow) None false [] ;;
      merge_workflows combined 400 0 rest
  end.

(** [WorkflowProcessor.process_workflow] *)
Definition process_workflow (v : vault) (workflow_name key_field : string)
  : result N8nWorkflow.t :=
  workflow <- load_workflow_from_vault v workflow_name ;;
  let workflow := enforce_naming_conventions workflow in
  let workflow := inject_retry_logic workflow in
  let workflow := add_idempotency_keys workflow key_field in
  workflow <- add_logging_instrumentation workflow ;;
  add_error_handling workflow.

(* ================================================================== *)
(** ** The assembler: [src/modules/assembly.py] *)

(** The fields of [AutomationOpportunity] that the core reads. *)
Record AutomationOpportunity : Type := mkOpportunity {
  title : string;
  required_integrations : list string
}.

Definition _generate_workflow_name (opportunity : AutomationOpportunity) : string :=
  let name := py_lower (title opportunity) in
  let name := replace_char "-" "_" (replace_char " " "_" name) in
  let name := sfilter (fun c => py_isalnum c || (c =? "_")%char) name in
  name ++ "_automation".

Definition assemble_workflows (v : vault) (workflow_names : list string)
    (opportunity : AutomationOpportunity) : result N8nWorkflow.t :=
  match (workflows <- mapM (load_workflow_from_vault v) workflow_names ;;
         let combined_name := _generate_workflow_name opportunity in
         combined_workflow <- combine_workflows workflows combined_name ;;
         let combined_workflow := enforce_naming_conventions combined_workflow in
         let combined_workflow := inject_retry_logic combined_workflow in
         let combined_workflow := add_idempotency_keys combined_workflow "email" in
         combined_workflow <- add_logging_instrumentation combined_workflow ;;
         combined_workflow <- add_error_handling combined_workflow ;;
         _ <- validate_node_connections combined_workflow ;;
         Ok combined_workflow) with
  | Ok combined_workflow => Ok combined_workflow
  | Raise e => Raise (FailedToAssemble e)
  end.

(* ================================================================== *)
(** ** The validator: [src/modules/validation.py] *)

(** A [ValidationResult]; [details] is never set by the checks below and the
    timestamp is read from the clock, so both are left out. *)
Record ValidationResult : Type := mkResult {
  passed : bool;
  level : string;
  message : string
}.

(** [_load_validation_rules] *)
Definition max_nodes : nat := 50.
Definition required_error_handling : bool := true.
Definition required_retry_logic : bool := true.
Definition required_env_vars : list string := ["NOTION_TOKEN"].
Definition max_execution_time_estimate : nat := 300.

(** The three checks of [_validate_json_schema]. *)
Definition schema_name_check (workflow : N8nWorkflow.t) : ValidationResult :=
  if negb (truthy (PStr (N8nWorkflow.name workflow)))
  then mkResult false "schema" "Workflow name is required"
  else mkResult true "schema" "Workflow name is valid".

Definition schema_node_check (workflow : N8nWorkflow.t) : ValidationResult :=
  let count := List.length (N8nWorkflow.nodes workflow) in
  if (count =? 0)%nat
  then mkResult false "schema" "Workflow must contain at least one node"
  else if (max_nodes <? count)%nat
  then mkResult false "schema"
         ("Too many nodes: " ++ string_of_nat count ++ " > " ++ string_of_nat max_nodes)
  else mkResult true "schema" ("Node count is acceptable: " ++ string_of_nat count).

Definition schema_connection_check (connection_errors : list string) : ValidationResult :=
  match connection_errors with
  | [] => mkResult true "schema" "All node connections are valid"
  | _ => mkResult false "schema"
           ("Connection errors: " ++ join "; " connection_errors)
  end.

Definition _validate_json_schema (workflow : N8nWorkflow.t)
  : result (list ValidationResult) :=
  connection_errors <- validate_node_connections workflow ;;
  Ok [ schema_name_check workflow;
       schema_node_check workflow;
       schema_connection_check connection_errors ].

Definition _validate_business_logic (workflow : N8nWorkflow.t)
  : list ValidationResult :=
  let error_nodes :=
    filter (fun node => startswith (N8nNode.name node) "error__")
           (N8nWorkflow.nodes workflow) in
  let error_check :=
    if required_error_handling && (List.length error_nodes =? 0)%nat
    then mkResult false "logic" "Error handling nodes are missing"
    else mkResult true "logic"
           ("Error handling implemented: " ++ string_of_nat (List.length error_nodes)
            ++ " nodes") in
  let nodes_with_retries :=
    filter (fun node => (0 <? N8nNode.retries node)%Z) (N8nWorkflow.nodes workflow) in
  let retry_check :=
    if required_retry_logic && (List.length nodes_with_retries =? 0)%nat
    then mkResult false "logic" "Retry logic is missing from all nodes"
    else mkResult true "logic"
           ("Retry logic implemented: " ++ string_of_nat (List.length nodes_with_retries)
            ++ " nodes") in
  [error_check; retry_check].

(** The two tests [_find_hardcoded_secrets] makes on one node. *)
Definition node_secrets (node : N8nNode.t) : list string :=
  let params_str := json_dumps (PDict (N8nNode.parameters node)) in
  List.app
    (if contains "password" params_str && negb (contains "{{" params_str)
     then ["Potential hardcoded password in " ++ N8nNode.name node] else [])
    (if contains "token" params_str && negb (contains "{{" params_str)
     then ["Potential hardcoded token in " ++ N8nNode.name node] else []).

Definition _find_hardcoded_secrets (workflow : N8nWorkflow.t) : list string :=
  flat_map node_secrets (N8nWorkflow.nodes workflow).

(** The pattern of [_extract_env_variables]: a dollar sign, two opening
    braces, blanks, [$env.], a name of capitals and underscores, blanks, two
    closing braces. *)
Fixpoint strip_prefix (p s : string) : option string :=
  match p, s with
  | EmptyString, _ => Some s
  | String a p', String b s' => if (a =? b)%char then strip_prefix p' s' else None
  | String _ _, EmptyString => None
  end.

Fixpoint span (p : ascii -> bool) (s : string) : string * string :=
  match s with
  | EmptyString => (EmptyString, EmptyString)
  | String c s' =>
      if p c then let (a, b) := span p s' in (String c a, b)
      else (EmptyString, s)
  end.

Definition env_name_char (c : ascii) : bool := is_ascii_upper c || is_underscore c.

Definition match_env_at (s : string) : option string :=
  match strip_prefix "${{" s with
  | None => None
  | Some s =>
      match strip_prefix "$env." (lstrip py_isspace s) with
      | None => None
      | Some s =>
          let (var, s) := span env_name_char s in
          if (var =? "")%string then None
          else if String.prefix "}}" (lstrip py_isspace s) then Some var
          else None
      end
  end.

(** [re.findall(env_pattern, s)].  A match holds the three characters that
    open it only at its start, so no match begins inside another one and
    trying every position finds the matches of the left-to-right scan. *)
Fixpoint findall_env (s : string) : list string :=
  match s with
  | EmptyString => []
  | String _ s' =>
      match match_env_at s with
      | Some var => var :: findall_env s'
      | None => findall_env s'
      end
  end.

(** The set of names, as the list of the matches. *)
Definition _extract_env_variables (workflow : N8nWorkflow.t) : list string :=
  flat_map (fun node => findall_env (json_dumps (PDict (N8nNode.parameters node))))
           (N8nWorkflow.nodes workflow).

Definition _validate_security (workflow : N8nWorkflow.t) : list ValidationResult :=
  let hardcoded_secrets := _find_hardcoded_secrets workflow in
  let secret_check :=
    match hardcoded_secrets with
    | [] => mkResult true "security" "No hardcoded secrets detected"
    | _ => mkResult false "security"
             ("Hardcoded secrets found: " ++ py_repr (PList (map PStr hardcoded_secrets)))
    end in
  let env_vars_used := _extract_env_variables workflow in
  let missing_vars :=
    filter (fun var => negb (id_in env_vars_used var)) required_env_vars in
  let env_check :=
    match missing_vars with
    | [] => mkResult true "security" "All required environment variables are referenced"
    | _ => mkResult false "security"
             ("Missing required environment variables: "
              ++ py_repr (PList (map PStr missing_vars)))
    end in
  [secret_check; env_check].

(** [_estimate_execution_time]: two seconds for each node.  The estimate is
    a float in the source; it is printed here as the integer followed by
    [.0], which is how Python prints it below ten to the sixteen. *)
Definition _estimate_execution_time (workflow : N8nWorkflow.t) : nat :=
  List.length (N8nWorkflow.nodes workflow) * 2.

Definition _validate_performance (workflow : N8nWorkflow.t) : list ValidationResult :=
  let estimated_time := _estimate_execution_time workflow in
  let max_time := max_execution_time_estimate in
  if (max_time <? estimated_time)%nat
  then [mkResult false "performance"
          ("Estimated execution time too high: " ++ string_of_nat estimated_time
           ++ ".0s > " ++ string_of_nat max_time ++ "s")]
  else [mkResult true "performance"
          ("Estimated execution time acceptable: " ++ string_of_nat estimated_time
           ++ ".0s")].

(** [_identify_integrations]; the source collects the names in a set, whose
    order is not fixed: here they come in the order of first detection. *)
Definition integration_of (node : N8nNode.t) : list string :=
  let t := py_lower (N8nNode.type node) in
  if contains "slack" t then ["Slack"]
  else if contains "hubspot" t then ["HubSpot"]
  else if contains "notion" t then ["Notion"]
  else if contains "gmail" t then ["Gmail"]
  else [].

Definition _identify_integrations (workflow : N8nWorkflow.t) : list string :=
  nodup string_dec (flat_map integration_of (N8nWorkflow.nodes workflow)).

Definition _validate_integrations (workflow : N8nWorkflow.t) : list ValidationResult :=
  match _identify_integrations workflow with
  | [] => [mkResult true "integration" "No external integrations detected"]
  | integration_types =>
      [mkResult true "integration"
         ("Integrations identified: " ++ join ", " integration_types)]
  end.

Definition validate_workflow (workflow : N8nWorkflow.t) : result (list ValidationResult) :=
  schema <- _validate_json_schema workflow ;;
  Ok (schema ++ _validate_business_logic workflow ++ _validate_security workflow
      ++ _validate_performance workflow ++ _validate_integrations workflow)%list.

(** The summary of [generate_validation_report]; the success rate, a float
    quotient, and the timestamps are left out. *)
Record ReportSummary : Type := mkSummary {
  total_checks : nat;
  passed_checks : nat;
  failed_checks : nat;
  overall_status : string
}.

Record LevelReport : Type := mkLevel {
  level_passed : nat;
  level_failed : nat;
  level_messages : list (string * string)
}.

Fixpoint level_update (by_level : list (string * LevelReport)) (r : ValidationResult)
  : list (string * LevelReport) :=
  let add (l : LevelReport) :=
    mkLevel (if passed r then S (level_passed l) else level_passed l)
            (if passed r then level_failed l else S (level_failed l))
            (List.app (level_messages l)
                      [(if passed r then "PASS" else "FAIL", message r)]) in
  match by_level with
  | [] => [(level r, add (mkLevel 0 0 []))]
  | (k, l) :: rest =>
      if (k =? level r)%string then (k, add l) :: rest
      else (k, l) :: level_update rest r
  end.

Record ValidationReport : Type := mkReport {
  summary : ReportSummary;
  by_level : list (string * LevelReport)
}.

Definition generate_validation_report (results : list ValidationResult)
  : ValidationReport :=
  let total := List.length results in
  let passed_count := List.length (filter passed results) in
  let failed := total - passed_count in
  mkReport
    (mkSummary total passed_count failed
               (if (failed =? 0)%nat then "PASS" else "FAIL"))
    (fold_left level_update results []).

(* ================================================================== *)
(** ** The package model: [src/models/package.py] *)

Inductive PackageStatus : Type := DRAFT | VALIDATED | DEPLOYED | DEPRECATED.

(** [AutomationPackage], without its three timestamps. *)
Module AutomationPackage.
Record t : Type := mk {
  name : string;
  slug : string;
  niche_tags : list string;
  problem_statement : string;
  outcomes : list string;
  roi_notes : string;
  inputs : pydict;
  outputs : pydict;
  dependencies : list string;
  security_notes : string;
  status : PackageStatus;
  version : string;
  repo_path : option string;
  n8n_export_path : option string
}.
End AutomationPackage.

(** [Field(..., min_length=1)] on a string. *)
Definition min_length_1 (v : string) : result string :=
  if (v =? "")%string
  then Raise (ValidationError "String should have at least 1 character")
  else Ok v.

Definition slug_valid_chars : string :=
  "abcdefghijklmnopqrstuvwxyzABCDEFGHIJKLMNOPQRSTUVWXYZ0123456789-_".

Definition slug_message : string :=
  "Slug must contain only alphanumeric characters, hyphens, and underscores".

(** [AutomationPackage.validate_slug] *)
Definition validate_slug (v : string) : result string :=
  if negb (sall (fun c => char_in c slug_valid_chars) v)
  then Raise (ValidationError slug_message)
  else if char_in " " v || sany py_isupper v
  then Raise (ValidationError slug_message)
  else Ok (py_lower v).

(** [c.isdigit()]: 0-9, and in the Latin-1 block the superscripts 2, 3, 1. *)
Definition py_isdigit_char (c : ascii) : bool :=
  is_digit c || (code c =? 178)%nat || (code c =? 179)%nat || (code c =? 185)%nat.

(** [s.isdigit()]: at least one character and digits only. *)
Definition py_isdigit (s : string) : bool :=
  negb (s =? "")%string && sall py_isdigit_char s.

(** [s.split(sep)] for a one-character separator. *)
Fixpoint split_on (sep : ascii) (s : string) : list string :=
  match s with
  | EmptyString => [EmptyString]
  | String c s' =>
      if (c =? sep)%char then EmptyString :: split_on sep s'
      else match split_on sep s' with
           | part :: parts => String c part :: parts
           | [] => [String c EmptyString]
           end
  end.

(** [AutomationPackage.validate_version] *)
Definition validate_version (v : string) : result string :=
  let parts := split_on "." v in
  if negb (List.length parts =? 3)%nat
  then Raise (ValidationError "Version must follow semantic versioning (x.y.z)")
  else if negb (forallb py_isdigit parts)
  then Raise (ValidationError "Version parts must be numeric")
  else Ok v.

(** [AutomationPackage(...)]: the fields are validated in the order of their
    declaration, the length of a string before its validator.  Pydantic
    lists the errors of all fields in one exception; the message kept here is
    that of the first field in error. *)
Definition AutomationPackage_new (name slug : string) (niche_tags : list string)
    (problem_statement : string) (outcomes : list string) (roi_notes : string)
    (inputs outputs : pydict) (dependencies : list string) (security_notes : string)
    (status : PackageStatus) (version : string)
    (repo_path n8n_export_path : option string) : result AutomationPackage.t :=
  name <- min_length_1 name ;;
  slug <- min_length_1 slug ;;
  slug <- validate_slug slug ;;
  problem_statement <- min_length_1 problem_statement ;;
  roi_notes <- min_length_1 roi_notes ;;
  version <- validate_version version ;;
  Ok (AutomationPackage.mk name slug niche_tags problem_statement outcomes roi_notes
        inputs outputs dependencies security_notes status version
        repo_path n8n_export_path).

(** [getattr(package, field, None)] for the fields that hold a string. *)
Definition package_getattr (package : AutomationPackage.t) (field : string) : pyval :=
  if (field =? "name")%string then PStr (AutomationPackage.name package)
  else if (field =? "slug")%string then PStr (AutomationPackage.slug package)
  else if (field =? "problem_statement")%string
  then PStr (AutomationPackage.problem_statement package)
  else if (field =? "roi_notes")%string then PStr (AutomationPackage.roi_notes package)
  else if (field =? "security_notes")%string
  then PStr (AutomationPackage.security_notes package)
  else if (field =? "version")%string then PStr (AutomationPackage.version package)
  else PNone.

(** [WorkflowValidator._validate_package_metadata] *)
Definition required_fields : list string :=
  ["name"; "slug"; "problem_statement"; "roi_notes"].

Definition _validate_package_metadata (package : AutomationPackage.t)
  : list ValidationResult :=
  map (fun field =>
         let value := package_getattr package field in
         if negb (truthy value)
         then mkResult false "metadata" ("Required field missing: " ++ field)
         else mkResult true "metadata" ("Required field present: " ++ field))
      required_fields.

(** [WorkflowValidator.validate_package] *)
Definition validate_package (package : AutomationPackage.t) : list ValidationResult :=
  _validate_package_metadata package.

(* ================================================================== *)
(** ** More of the model: [to_n8n_format] and the methods that edit nodes *)



(** The three methods of [N8nWorkflow] that edit the node list; they carry
    the names of the processor's functions. *)
Module WorkflowModel.

(** [N8nWorkflow.add_idempotency_keys] *)
Definition add_idempotency_keys (self : N8nWorkflow.t) (key_field : string)
  : N8nWorkflow.t :=
  N8nWorkflow.set_nodes self
    (map (fun node =>
            if id_in ["n8n-nodes-base.googleSheets"; "n8n-nodes-base.airtable"]
                     (N8nNode.type node)
            then
              let parameters :=
                if negb (dict_has (N8nNode.parameters node) "parameters")
                then dict_set (N8nNode.parameters node) "parameters" (PDict [])
                else N8nNode.parameters node in
              N8nNode.set_parameters node
                (dict_set parameters "idempotencyKey"
                          (PStr ("hash(" ++ key_field ++ ")")))
            else node)
         (N8nWorkflow.nodes self)).

(** The node built in the loop of [N8nWorkflow.add_logging_instrumentation]. *)
Definition logging_node (node : N8nNode.t) : result N8nNode.t :=
  N8nNode_new
    ("log_" ++ N8nNode.id node)
    ("log__" ++ N8nNode.name node)
    "n8n-nodes-base.set"
    (mkPosition (float_add_int (x (N8nNode.position node)) 200)
                (y (N8nNode.position node)))
    [ ("values", PDict
         [ ("timestamp", PStr "{{ new Date().toISOString() }}");
           ("node_id", PStr (N8nNode.id node));
           ("execution_time", PStr "{{ $now - $nodeExecutionStart }}") ]) ]
    None default_retries default_retry_on_fail.

(** [self.nodes.insert(i, node)] for [i] within the list. *)
Definition list_insert {A : Type} (l : list A) (i : nat) (a : A) : list A :=
  (firstn i l ++ a :: skipn i l)%list.

(** The loop of [N8nWorkflow.add_logging_instrumentation].  It enumerates
    the list it inserts into: the iterator holds a position [i] and ends
    when [i] has reached the length the list has by then.  [None] says the
    fuel ran out before that. *)
Fixpoint add_logging_loop (fuel : nat) (nodes : list N8nNode.t) (i : nat)
  : option (result (list N8nNode.t)) :=
  match fuel with
  | O => None
  | S fuel' =>
      match nth_error nodes i with
      | None => Some (Ok nodes)
      | Some node =>
          match logging_node node with
          | Raise e => Some (Raise e)
          | Ok log => add_logging_loop fuel' (list_insert nodes (S i) log) (S i)
          end
      end
  end.

(** [N8nWorkflow.add_logging_instrumentation] *)
Definition add_logging_instrumentation (fuel : nat) (self : N8nWorkflow.t)
  : option (result N8nWorkflow.t) :=
  match add_logging_loop fuel (N8nWorkflow.nodes self) 0 with
  | None => None
  | Some (Ok nodes) => Some (Ok (N8nWorkflow.set_nodes self nodes))
  | Some (Raise e) => Some (Raise e)
  end.

(** The node built in the loop of [N8nWorkflow.add_error_handling]. *)
Definition error_node (node : N8nNode.t) : result N8nNode.t :=
  N8nNode_new
    ("error_" ++ N8nNode.id node)
    ("error__" ++ N8nNode.name node)
    "n8n-nodes-base.webhook"
    (mkPosition (x (N8nNode.position node))
                (float_add_int (y (N8nNode.position node)) 200))
    [ ("path", PStr "/error-handler");
      ("httpMethod", PStr "POST");
      ("responseMode", PStr "onReceived") ]
    None default_retries default_retry_on_fail.

(** [N8nWorkflow.add_error_handling] *)
Definition add_error_handling (self : N8nWorkflow.t) : result N8nWorkflow.t :=
  error_nodes <- mapM error_node
                      (filter (fun node =>
                                 negb (startswith (N8nNode.name node) "error__"))
                              (N8nWorkflow.nodes self)) ;;
  Ok (N8nWorkflow.set_nodes self (N8nWorkflow.nodes self ++ error_nodes)%list).

End WorkflowModel.

(** [WorkflowValidator.simulate_test_run]; nothing in the body of the [try]
    raises. *)
Definition simulate_test_run (workflow : N8nWorkflow.t) (fixture_data : pydict)
  : ValidationResult :=
  if (List.length (N8nWorkflow.nodes workflow) =? 0)%nat
  then mkResult false "simulation" "Cannot simulate empty workflow"
  else if negb (truthy (PDict fixture_data))
  then mkResult false "simulation" "No fixture data provided"
  else mkResult true "simulation"
         ("Test simulation passed with " ++ string_of_nat (List.length fixture_data)
          ++ " test inputs").

(* ================================================================== *)
(** * Vocabulary of the statements *)

(* ------------------------------------------------------------------ *)
(** ** Invariants and normal forms *)

(** A node that came out of the constructor. *)
Definition constructed (node : N8nNode.t) : Prop :=
  exists i n t p ps c r f, N8nNode_new i n t p ps c r f = Ok node.

(** The invariant the constructor of nodes establishes. *)
Definition node_invariant (node : N8nNode.t) : Prop :=
  sall snake_char (N8nNode.name node) = true /\ N8nNode.retries node = 3%Z.

(** The invariant the constructors establish for a workflow. *)
Definition workflow_invariant (w : N8nWorkflow.t) : Prop :=
  N8nWorkflow.nodes w <> []
  /\ sall snake_char (N8nWorkflow.name w) = true
  /\ Forall node_invariant (N8nWorkflow.nodes w).

(** [canon_from prev s]: [s] is made of [[a-z0-9_]], has no two underscores
    in a row and does not end with one; when [prev] is set, the character
    before [s] was an underscore (or [s] is the start of the name), so [s]
    is not empty and does not start with one. *)
Fixpoint canon_from (prev : bool) (s : string) : bool :=
  match s with
  | EmptyString => negb prev
  | String c s' =>
      snake_char c &&
      (if is_underscore c then negb prev && canon_from true s'
       else canon_from false s')
  end.

(** A name in normal form: what [_normalize_name] returns. *)
Definition canon (s : string) : bool := canon_from true s.

(** A workflow whose nodes all have three retries. *)
Definition three_retries (w : N8nWorkflow.t) : Prop :=
  Forall (fun node => N8nNode.retries node = 3%Z) (N8nWorkflow.nodes w).

(** A node whose name is in normal form. *)
Definition canon_named (node : N8nNode.t) : Prop := canon (N8nNode.name node) = true.

(* ------------------------------------------------------------------ *)
(** ** What the operations compute *)

(** The parameters of a node after the three retry keys have been written. *)
Definition with_retry_keys (parameters : pydict) : pydict :=
  dict_set (dict_set (dict_set parameters "retryOnFail" (PBool true))
                     "maxTries" (PInt 3))
           "waitBetweenTries" (PInt 200).

(** A node that [inject_retry_logic] skips. *)
Definition retry_compliant (node : N8nNode.t) : bool :=
  (N8nNode.retries node =? 3)%Z && N8nNode.retry_on_fail node.

(** What [inject_retry_logic] does to one node. *)
Definition retry_injected (node node' : N8nNode.t) : Prop :=
  N8nNode.retries node' = 3%Z
  /\ N8nNode.retry_on_fail node' = true
  /\ N8nNode.id node' = N8nNode.id node
  /\ N8nNode.name node' = N8nNode.name node
  /\ N8nNode.type node' = N8nNode.type node
  /\ N8nNode.position node' = N8nNode.position node
  /\ N8nNode.credentials node' = N8nNode.credentials node
  /\ N8nNode.parameters node' =
       if retry_compliant node then N8nNode.parameters node
       else if dict_has (N8nNode.parameters node) "retryOnFail"
            then N8nNode.parameters node
            else with_retry_keys (N8nNode.parameters node).

(** The two node kinds of the end-to-end scenario. *)
Definition webhook_type : string := "n8n-nodes-base.webhook".

Definition slack_type : string := "n8n-nodes-base.slack".

(** The prefix that [_add_integration_prefix] looks up for a node type. *)
Definition type_prefix (t : string) : string := assoc_get type_prefixes t "".

(** The webhook nodes that get one more prefix at every pass: their
    normalized name starts with none of the five words that stop the
    prefixing. *)
Definition reprefixed (node : N8nNode.t) : bool :=
  (N8nNode.type node =? webhook_type)%string
  && negb (has_known_prefix (_normalize_name (N8nNode.name node))).

(** The second pass on one node, in terms of the first. *)
Definition second_pass (node : N8nNode.t) : N8nNode.t :=
  let once := enforce_node_naming node in
  if reprefixed node then N8nNode.set_name once ("webhook_" ++ N8nNode.name once)
  else once.

(** The node that [combine_workflows] makes of a node of a later workflow. *)
Definition prefixed_copy (workflow_name : string) (x_offset y_offset : Z)
    (node : N8nNode.t) : N8nNode.t :=
  N8nNode.mk (prefixed workflow_name (N8nNode.id node))
             (prefixed workflow_name (N8nNode.name node))
             (N8nNode.type node)
             (mkPosition (float_add_int (x (N8nNode.position node)) x_offset)
                         (float_add_int (y (N8nNode.position node)) y_offset))
             (N8nNode.parameters node) (N8nNode.credentials node)
             (N8nNode.retries node) (N8nNode.retry_on_fail node).

(** What the loop over the connections of a later workflow computes when
    every source maps to a dictionary of outputs. *)
Definition build (kf : string -> string) (vf : pyval -> pyval)
    (entries acc : pydict) : pydict :=
  fold_left (fun acc e => dict_set acc (kf (fst e)) (vf (snd e))) entries acc.

(** The outputs of one source after the rewriting of their destinations. *)
Definition rewritten_targets (workflow_name : string) (targets : pyval) : pyval :=
  match targets with
  | PDict d => PDict (build (fun k => k) (rewrite_destinations workflow_name) d [])
  | other => other
  end.

(** A value that is a dictionary. *)
Definition is_dict (v : pyval) : Prop := exists d, v = PDict d.

(** The workflow that [combine_workflows] returns for two workflows. *)
Definition combined_of (w1 w2 : N8nWorkflow.t) (combined_name : string) : N8nWorkflow.t :=
  N8nWorkflow.mk (validate_workflow_naming combined_name)
    (N8nWorkflow.nodes w1
     ++ map (prefixed_copy (N8nWorkflow.name w2) 400 0) (N8nWorkflow.nodes w2))%list
    (build (prefixed (N8nWorkflow.name w2)) (rewritten_targets (N8nWorkflow.name w2))
           (N8nWorkflow.connections w2) (N8nWorkflow.connections w1))
    (N8nWorkflow.settings w1) None false [].

(** What a node and a workflow are after a trip through the wire format:
    empty credentials and an empty id are dropped by [to_n8n_json], the
    retry fields are not written and come back as the defaults, and the name
    of the workflow goes through the constructor again. *)
Definition node_round_trip (node : N8nNode.t) : N8nNode.t :=
  N8nNode.mk (N8nNode.id node) (N8nNode.name node) (N8nNode.type node)
             (N8nNode.position node) (N8nNode.parameters node)
             (match N8nNode.credentials node with
              | Some (e :: c) => Some (e :: c)
              | _ => None
              end)
             default_retries default_retry_on_fail.

Definition workflow_round_trip (w : N8nWorkflow.t) : N8nWorkflow.t :=
  N8nWorkflow.mk (validate_workflow_naming (N8nWorkflow.name w))
                 (map node_round_trip (N8nWorkflow.nodes w))
                 (N8nWorkflow.connections w) (N8nWorkflow.settings w)
                 (match N8nWorkflow.id w with
                  | Some (String a i) => Some (String a i)
                  | _ => None
                  end)
                 (N8nWorkflow.active w) (N8nWorkflow.tags w).

(** How [json.dumps] prints one entry of a dictionary. *)
Definition dumps_entry (kv : string * pyval) : string :=
  json_string (fst kv) ++ ": " ++ json_dumps (snd kv).

(** The two messages of [_find_hardcoded_secrets]. *)
Definition password_finding (node : N8nNode.t) : string :=
  "Potential hardcoded password in " ++ N8nNode.name node.

Definition token_finding (node : N8nNode.t) : string :=
  "Potential hardcoded token in " ++ N8nNode.name node.

(** The shadow node the source builds, when it builds one. *)
Definition shadow (make : nat -> N8nNode.t -> result N8nNode.t)
    (i_node : nat * N8nNode.t) : N8nNode.t :=
  match make (fst i_node) (snd i_node) with
  | Ok m => m
  | Raise _ => snd i_node
  end.

(** What the two injection steps append. *)
Definition log_nodes_of (w : N8nWorkflow.t) : list N8nNode.t :=
  map (shadow (log_node (N8nWorkflow.name w))) (enumerate (N8nWorkflow.nodes w)).

Definition error_nodes_of (w : N8nWorkflow.t) : list N8nNode.t :=
  map (shadow (error_node (N8nWorkflow.name w))) (enumerate (N8nWorkflow.nodes w)).

(** What is known of a logging node and of an error node. *)
Definition is_log_shadow (m : N8nNode.t) : Prop :=
  (exists s, canon s = true /\ N8nNode.name m = "log__" ++ s)
  /\ N8nNode.retries m = 3%Z
  /\ contains "{{" (json_dumps (PDict (N8nNode.parameters m))) = true.

Definition is_error_shadow (m : N8nNode.t) : Prop :=
  startswith (N8nNode.name m) "error__" = true
  /\ N8nNode.retries m = 3%Z
  /\ contains "{{" (json_dumps (PDict (N8nNode.parameters m))) = true.

(** Naming, retries and idempotency keys, the three steps that keep the
    node list as long as it was. *)
Definition processed (w : N8nWorkflow.t) : N8nWorkflow.t :=
  add_idempotency_keys (inject_retry_logic (enforce_naming_conventions w)) "email".

(* ------------------------------------------------------------------ *)
(** ** Connections that can be checked *)

(** The shape of the connections on which neither [combine_workflows] nor
    [validate_node_connections] raises: a dictionary of outputs under every
    source, and no non-empty list or dictionary where a destination names
    its node. *)
Definition dest_checkable (dest : pyval) : bool :=
  match dest with
  | PDict d =>
      match dict_get d "node" with
      | Some (PList (_ :: _)) | Some (PDict (_ :: _)) => false
      | _ => true
      end
  | _ => true
  end.

Definition destinations_checkable (destinations : pyval) : bool :=
  match destinations with
  | PList l => forallb dest_checkable l
  | other => dest_checkable other
  end.

Definition targets_checkable (targets : pyval) : bool :=
  match targets with
  | PDict outputs => forallb (fun out => destinations_checkable (snd out)) outputs
  | _ => false
  end.

Definition connections_checkable (connections : pydict) : bool :=
  forallb (fun e => targets_checkable (snd e)) connections.

(* ------------------------------------------------------------------ *)
(** ** Sample data *)

(** A webhook node with the default retry fields and no parameters. *)
Definition sample_node : N8nNode.t :=
  N8nNode.mk "node_1" "trigger" "n8n-nodes-base.webhook" (mkPosition 100 100)
             [] None 3 true.

Definition sample_workflow : N8nWorkflow.t :=
  N8nWorkflow.mk "sample" [sample_node] [] [] None false [].

(** A slack node whose name and workflow name are not in snake case yet. *)
Definition slack_node : N8nNode.t :=
  N8nNode.mk "node_2" "Notify Team" "n8n-nodes-base.slack" (mkPosition 300 100)
             [] None 3 true.

Definition slack_workflow : N8nWorkflow.t :=
  N8nWorkflow.mk "Invalid Workflow Name!" [slack_node] [] [] None false [].

(** A workflow of two nodes with one connection between them. *)
Definition second_workflow : N8nWorkflow.t :=
  N8nWorkflow.mk "workflow_2"
    [ N8nNode.mk "node_2" "set_2" "n8n-nodes-base.set" (mkPosition 100 100)
                 [] None 3 true;
      N8nNode.mk "node_3" "notify" "n8n-nodes-base.slack" (mkPosition 300 100)
                 [] None 3 true ]
    [ ("node_2",
       PDict [ ("main",
                PList [ PDict [ ("node", PStr "node_3"); ("type", PStr "main");
                                ("index", PInt 0) ] ]) ]) ]
    [] None false [].

(** Nodes for the scan for secrets. *)
Definition password_node (value : string) : N8nNode.t :=
  N8nNode.mk "node_1" "login" "n8n-nodes-base.httpRequest" (mkPosition 0 0)
             [("password", PStr value)] None 3 true.

Definition api_key_node : N8nNode.t :=
  N8nNode.mk "node_1" "call_api" "n8n-nodes-base.httpRequest" (mkPosition 0 0)
             [("api_key", PStr "hardcoded_key")] None 3 true.

Definition api_key_workflow : N8nWorkflow.t :=
  N8nWorkflow.mk "api_calls" [api_key_node] [] [] None false [].

Definition mixed_node : N8nNode.t :=
  N8nNode.mk "node_1" "login" "n8n-nodes-base.httpRequest" (mkPosition 0 0)
             [("password", PStr "hunter2"); ("url", PStr "{{ $json.url }}")]
             None 3 true.

Definition token_count_node : N8nNode.t :=
  N8nNode.mk "node_2" "count" "n8n-nodes-base.set" (mkPosition 0 0)
             [("token_count", PInt 5)] None 3 true.





(** The workflow document of the repository's test fixtures. *)
Definition sample_workflow_json : pyval :=
  PDict
    [ ("name", PStr "sample_workflow");
      ("nodes",
       PList
         [ PDict [ ("id", PStr "webhook_1");
                   ("name", PStr "webhook_trigger");
                   ("type", PStr "n8n-nodes-base.webhook");
                   ("position", PList [PInt 100; PInt 100]);
                   ("parameters", PDict [ ("path", PStr "/webhook");
                                          ("httpMethod", PStr "POST") ]) ];
           PDict [ ("id", PStr "set_1");
                   ("name", PStr "data_processor");
                   ("type", PStr "n8n-nodes-base.set");
                   ("position", PList [PInt 300; PInt 100]);
                   ("parameters",
                    PDict [ ("values",
                             PDict [ ("processed", PStr "true");
                                     ("timestamp",
                                      PStr "{{ new Date().toISOString() }}") ]) ]) ] ]);
      ("connections",
       PDict [ ("webhook_1",
                PDict [ ("main",
                         PList [ PDict [ ("node", PStr "set_1"); ("type", PStr "main");
                                         ("index", PInt 0) ] ]) ]) ]);
      ("active", PBool false);
      ("tags", PList [PStr "test"; PStr "sample"]) ].

(** The two templates of the end-to-end scenario, with empty parameters and
    no connections, and what loading them gives. *)
Definition template (name node_id node_name node_type : string) : pyval :=
  PDict [ ("name", PStr name);
          ("nodes", PList [ PDict [ ("id", PStr node_id);
                                    ("name", PStr node_name);
                                    ("type", PStr node_type);
                                    ("position", PList [PInt 0; PInt 0]);
                                    ("parameters", PDict []) ] ]);
          ("connections", PDict []) ].

Definition lead_vault : vault :=
  fun name =>
    if (name =? "A")%string
    then Some (Document (template "A" "a1" "trigger" webhook_type))
    else if (name =? "B")%string
    then Some (Document (template "B" "b1" "notify" slack_type))
    else None.

Definition lead_capture : AutomationOpportunity := mkOpportunity "Lead Capture" [].

Definition loaded (name : string) (node : N8nNode.t) : N8nWorkflow.t :=
  N8nWorkflow.mk name [node] [] [] None false [].

Definition loaded_node (node_id node_name node_type : string) : N8nNode.t :=
  N8nNode.mk node_id node_name node_type (mkPosition 0 0) [] None 3 true.

(* ------------------------------------------------------------------ *)
(** ** Vocabulary of the further properties *)

(** A lowercase hexadecimal digit. *)
Definition is_hex_lower (c : ascii) : bool := is_digit c || between 97 102 c.

(** The salt that [add_idempotency_keys] derives from a workflow name. *)
Definition workflow_salt (workflow_name : string) : string :=
  substring 0 8 (MD5.hexdigest workflow_name).

(** The three keys that [add_idempotency_keys] writes. *)
Definition idempotency_keys : list string :=
  ["idempotencyKey"; "deduplicationField"; "workflowSalt"].

(** The counts of a report, added up over its levels. *)
Definition levels_passed (by_level : list (string * LevelReport)) : nat :=
  list_sum (map (fun kl => level_passed (snd kl)) by_level).

Definition levels_failed (by_level : list (string * LevelReport)) : nat :=
  list_sum (map (fun kl => level_failed (snd kl)) by_level).

(** One entry of [by_level] holds one message for each result it counted. *)
Definition level_consistent (kl : string * LevelReport) : Prop :=
  List.length (level_messages (snd kl)) = level_passed (snd kl) + level_failed (snd kl).

(** What the checks of [validate_workflow] ask of a workflow whose
    connections gave the errors [connection_errors]. *)
Definition passes_all (w : N8nWorkflow.t) (connection_errors : list string) : bool :=
  negb (N8nWorkflow.name w =? "")%string
  && (1 <=? List.length (N8nWorkflow.nodes w))%nat
  && (List.length (N8nWorkflow.nodes w) <=? max_nodes)%nat
  && (List.length connection_errors =? 0)%nat
  && existsb (fun node => startswith (N8nNode.name node) "error__") (N8nWorkflow.nodes w)
  && existsb (fun node => (0 <? N8nNode.retries node)%Z) (N8nWorkflow.nodes w)
  && (List.length (_find_hardcoded_secrets w) =? 0)%nat
  && id_in (_extract_env_variables w) "NOTION_TOKEN".

(** The levels of the nine results of [validate_workflow], in order. *)
Definition result_levels : list string :=
  [ "schema"; "schema"; "schema"; "logic"; "logic"; "security"; "security";
    "performance"; "integration" ].

(** The reference to the token that the security check looks for. *)
Definition notion_token_reference : string := "${{ $env.NOTION_TOKEN }}".

(** What [combine_workflows] needs of a workflow after the first: a name
    and node names made of [[a-z0-9_]], three retries everywhere, and a
    dictionary of outputs under every connection source. *)
Definition combinable (w : N8nWorkflow.t) : Prop :=
  sall snake_char (N8nWorkflow.name w) = true
  /\ Forall node_invariant (N8nWorkflow.nodes w)
  /\ Forall (fun e => is_dict (snd e)) (N8nWorkflow.connections w).

(** The copies of the nodes of the workflows after the first; the workflow
    at position [k] among them is shifted by [400 + 800 * k] to the right,
    by an addition of floats. *)
Definition later_nodes (start : nat) (rest : list N8nWorkflow.t) : list N8nNode.t :=
  List.concat
    (map (fun k_w =>
            map (prefixed_copy (N8nWorkflow.name (snd k_w))
                               (400 + 800 * Z.of_nat (fst k_w)) 0)
                (N8nWorkflow.nodes (snd k_w)))
         (enumerate_from start rest)).

(** The connections after the workflows after the first have been merged. *)
Definition later_connections (connections : pydict) (rest : list N8nWorkflow.t)
  : pydict :=
  fold_left (fun acc w =>
               build (prefixed (N8nWorkflow.name w))
                     (rewritten_targets (N8nWorkflow.name w))
                     (N8nWorkflow.connections w) acc)
            rest connections.

(** The workflow that [combine_workflows] returns for two workflows or more. *)
Definition combined_many (first_workflow : N8nWorkflow.t) (rest : list N8nWorkflow.t)
    (combined_name : string) : N8nWorkflow.t :=
  N8nWorkflow.mk (validate_workflow_naming combined_name)
    (N8nWorkflow.nodes first_workflow ++ later_nodes 0 rest)%list
    (later_connections (N8nWorkflow.connections first_workflow) rest)
    (N8nWorkflow.settings first_workflow) None false [].

(** Connections without a flaw: every source is the id of a node, every
    output holds a list, and a destination that names a node names, by a
    non-empty string, the id of a node. *)
Definition dest_valid (ids : list string) (dest : pyval) : bool :=
  match dest with
  | PDict d =>
      match dict_get d "node" with
      | Some (PStr n) => negb (n =? "")%string && id_in ids n
      | Some _ => false
      | None => true
      end
  | _ => true
  end.

Definition output_valid (ids : list string) (destinations : pyval) : bool :=
  match destinations with
  | PList l => forallb (dest_valid ids) l
  | _ => false
  end.

Definition targets_valid (ids : list string) (targets : pyval) : bool :=
  match targets with
  | PDict outputs => forallb (fun out => output_valid ids (snd out)) outputs
  | _ => false
  end.

Definition connections_valid (ids : list string) (connections : pydict) : bool :=
  forallb (fun e => id_in ids (fst e) && targets_valid ids (snd e)) connections.

Definition well_connected (w : N8nWorkflow.t) : Prop :=
  connections_valid (node_ids w) (N8nWorkflow.connections w) = true.

(** Three workflows to combine. *)
Definition third_workflow : N8nWorkflow.t :=
  N8nWorkflow.mk "alerts"
    [ N8nNode.mk "a1" "page" "n8n-nodes-base.slack" (mkPosition 100 100) [] None 3 true ]
    [] [] None false [].

(** The three steps of the pipeline that keep the node list as long as it
    was, for any key field. *)
Definition prepared (w : N8nWorkflow.t) (key_field : string) : N8nWorkflow.t :=
  add_idempotency_keys (inject_retry_logic (enforce_naming_conventions w)) key_field.

(** The number of nodes of a list of workflows. *)
Definition node_count (workflows : list N8nWorkflow.t) : nat :=
  list_sum (map (fun w => List.length (N8nWorkflow.nodes w)) workflows).

Definition checkable (w : N8nWorkflow.t) : Prop :=
  connections_checkable (N8nWorkflow.connections w) = true.

(** The characters of an accepted slug. *)
Definition slug_char (c : ascii) : bool :=
  is_ascii_lower c || is_digit c || is_underscore c || (c =? "-")%char.

(** A version of three parts of digits. *)
Definition version_ok (v : string) : bool :=
  match split_on "." v with
  | [major; minor; patch] => py_isdigit major && py_isdigit minor && py_isdigit patch
  | _ => false
  end.

(** What the constructor of packages asks of its arguments. *)
Definition package_acceptable (name slug problem_statement roi_notes version : string)
  : bool :=
  negb (name =? "")%string
  && (negb (slug =? "")%string && sall slug_char slug)
  && negb (problem_statement =? "")%string
  && negb (roi_notes =? "")%string
  && version_ok version.

Definition sample_package : AutomationPackage.t :=
  AutomationPackage.mk "Lead Intake" "lead-intake" [] "Leads are typed in by hand"
    [] "Saves two hours a day" [] [] [] "" DRAFT "2.5.10" None None.






(** A constructed node whose retry fields are assigned afterwards, as
    [node.retries = 0] and [node.retry_on_fail = False] do: the model class
    does not validate assignments. *)
Definition reassigned_node : N8nNode.t := N8nNode.set_retry sample_node 0 false.

Definition reassigned_workflow : N8nWorkflow.t :=
  N8nWorkflow.mk "sample" [reassigned_node] [] [] None false [].

(** Workflows for the scan: one node that holds a literal password next
    to an expression, and the same node followed by one that holds a
    counter of tokens. *)
Definition mixed_workflow : N8nWorkflow.t :=
  N8nWorkflow.mk "logins" [mixed_node] [] [] None false [].

Definition mixed_and_count_workflow : N8nWorkflow.t :=
  N8nWorkflow.mk "logins" [mixed_node; token_count_node] [] [] None false [].

(* ================================================================== *)
(** * Properties *)

Ltac ascii_cases c := destruct c as [[|] [|] [|] [|] [|] [|] [|] [|]].

Example normalize_examples :
  map _normalize_name
      ["Valid Name"; "has-hyphens-and spaces"; "Special@#$%Characters";
       "Multiple___Underscores"; ""]
  = ["valid_name"; "has_hyphens_and_spaces"; "specialcharacters";
     "multiple_underscores"; "unnamed"].
Proof. reflexivity. Qed.

Example md5_examples :
  map MD5.hexdigest [""; "abc"]
  = ["d41d8cd98f00b204e9800998ecf8427e"; "900150983cd24fb0d6963f7d28e17f72"].
Proof. vm_compute. reflexivity. Qed.

(** The cases of the repository's test of [_add_integration_prefix]. *)
Example add_integration_prefix_examples :
  map (fun type_name =>
         _add_integration_prefix
           (N8nNode.mk "test_1" (snd type_name) (fst type_name) (mkPosition 0 0)
                       [] None 3 true))
      [ ("n8n-nodes-base.slack", "test_node");
        ("n8n-nodes-base.hubspot", "create_contact");
        ("n8n-nodes-base.webhook", "webhook_handler");
        ("n8n-nodes-base.set", "data_processor") ]
  = [ "slack_test_node"; "hubspot_create_contact"; "webhook_webhook_handler";
      "data_processor" ].
Proof. reflexivity. Qed.

Example generate_workflow_name_example :
  _generate_workflow_name (mkOpportunity "Lead Capture" []) = "lead_capture_automation".
Proof. reflexivity. Qed.

Example json_dumps_example :
  json_dumps (PList [PInt 1; PBool true; PNone; PDict []; PList []; PInt (-3)])
  = "[1, true, null, {}, [], -3]".
Proof. reflexivity. Qed.

Example py_repr_example :
  py_repr (PList [PInt 1; PBool true; PNone; PStr "x"; PDict [("a", PList [])]; PDict []])
  = "[1, True, None, 'x', {'a': []}, {}]".
Proof. reflexivity. Qed.

Example findall_env_example :
  findall_env "url ${{ $env.NOTION_TOKEN }} key ${{$env.API_KEY}} {{ $env.NOT_ONE }}"
  = ["NOTION_TOKEN"; "API_KEY"].
Proof. reflexivity. Qed.

(** The repository's fixture is in order, loads, and its connections hold. *)
Example sample_workflow_json_loads :
  validate_workflow_json sample_workflow_json = Ok []
  /\ match from_n8n_json sample_workflow_json with
     | Ok w =>
         N8nWorkflow.name w = "sample_workflow"
         /\ map N8nNode.id (N8nWorkflow.nodes w) = ["webhook_1"; "set_1"]
         /\ N8nWorkflow.tags w = ["test"; "sample"]
         /\ validate_node_connections w = Ok []
     | Raise _ => False
     end.
Proof. split; [reflexivity|]. simpl. repeat split; reflexivity. Qed.

Example match_node_naming_examples :
  map match_node_naming ["valid_node_name"; "invalid node name!"; ""; "a-b"]
  = [true; false; false; false].
Proof. reflexivity. Qed.

(* ------------------------------------------------------------------ *)
(** ** Dictionaries *)

Lemma dict_get_set_same (d : pydict) (k : string) (v : pyval) :
  dict_get (dict_set d k v) k = Some v.
Proof.
  induction d as [|[k' v'] d IH]; simpl.
  - now rewrite String.eqb_refl.
  - destruct (k' =? k)%string eqn:E; simpl; rewrite E; auto.
Qed.

Lemma dict_get_set_other (d : pydict) (k k' : string) (v : pyval) :
  k <> k' -> dict_get (dict_set d k v) k' = dict_get d k'.
Proof.
  intros Hne. induction d as [|[k0 v0] d IH]; simpl.
  - destruct (String.eqb_spec k k'); congruence.
  - destruct (String.eqb_spec k0 k) as [->|Hk]; simpl.
    + destruct (String.eqb_spec k k'); congruence.
    + now rewrite IH.
Qed.

(* ------------------------------------------------------------------ *)
(** ** Retries *)

Lemma N8nNode_new_inv i n t p ps c r f node :
  N8nNode_new i n t p ps c r f = Ok node ->
  validate_naming_convention n = Ok n /\ r = 3%Z
  /\ node = N8nNode.mk i n t p ps c 3 f.
Proof.
  unfold N8nNode_new, validate_naming_convention, validate_retry_count, bind.
  destruct (negb (sall _ n)); [discriminate|].
  destruct (_ || _ || _); [discriminate|].
  destruct (Z.eqb_spec r 3); simpl; [|discriminate].
  intros [= <-]. subst r. auto.
Qed.

Lemma N8nNode_new_rejects i n t p ps c r f :
  r <> 3%Z -> exists e, N8nNode_new i n t p ps c r f = Raise e.
Proof.
  intros Hr. unfold N8nNode_new, bind.
  destruct (validate_naming_convention n); [|eauto].
  unfold validate_retry_count.
  destruct (Z.eqb_spec r 3); [contradiction|]. simpl. eauto.
Qed.

Lemma constructed_retries node : constructed node -> N8nNode.retries node = 3%Z.
Proof.
  intros (i & n & t & p & ps & c & r & f & H).
  apply N8nNode_new_inv in H. destruct H as (_ & _ & ->). reflexivity.
Qed.

Lemma N8nWorkflow_new_inv name nodes conns settings wid active tags workflow :
  N8nWorkflow_new name nodes conns settings wid active tags = Ok workflow ->
  nodes <> []
  /\ workflow = N8nWorkflow.mk (validate_workflow_naming name) nodes conns settings
                               wid active tags.
Proof.
  unfold N8nWorkflow_new, validate_required_nodes, bind.
  destruct nodes; [discriminate|]. intros [= <-]. split; [discriminate|reflexivity].
Qed.

Lemma filter_all {A} (p : A -> bool) (l : list A) :
  Forall (fun a => p a = true) l -> filter p l = l.
Proof.
  induction 1; simpl; [reflexivity|]. rewrite H. now f_equal.
Qed.

(** C9.  A node comes out of the constructor with [retries] equal to 3: any
    other value is refused and 3 is the default.  Hence in a workflow built
    by the constructor from constructed nodes every node has a positive
    retry count, and the business-logic check never reports that retry logic
    is missing from all nodes. *)
Theorem constructed_workflow_has_retry_logic :
  forall name nodes conns settings wid active tags workflow,
    Forall constructed nodes ->
    N8nWorkflow_new name nodes conns settings wid active tags = Ok workflow ->
    default_retries = 3%Z
    /\ (forall i n t p ps c r f, r <> 3%Z ->
          exists e, N8nNode_new i n t p ps c r f = Raise e)
    /\ Forall (fun node => N8nNode.retries node = 3%Z) (N8nWorkflow.nodes workflow)
    /\ Forall (fun node => (0 < N8nNode.retries node)%Z) (N8nWorkflow.nodes workflow)
    /\ (forall r, In r (_validate_business_logic workflow) ->
          message r <> "Retry logic is missing from all nodes")
    /\ In (mkResult true "logic"
             ("Retry logic implemented: "
              ++ string_of_nat (List.length (N8nWorkflow.nodes workflow)) ++ " nodes"))
          (_validate_business_logic workflow).
Proof.
  intros name nodes conns settings wid active tags workflow Hc Hnew.
  apply N8nWorkflow_new_inv in Hnew. destruct Hnew as [Hne ->]. simpl.
  assert (H3 : Forall (fun node => N8nNode.retries node = 3%Z) nodes).
  { eapply Forall_impl; [|exact Hc]. apply constructed_retries. }
  assert (Hpos : Forall (fun node => (0 <? N8nNode.retries node)%Z = true) nodes).
  { eapply Forall_impl; [|exact H3]. intros a Ha. simpl in Ha. now rewrite Ha. }
  split; [reflexivity|]. split; [intros; now apply N8nNode_new_rejects|].
  split; [exact H3|].
  split.
  { eapply Forall_impl; [|exact H3]. intros a Ha. simpl in Ha. rewrite Ha. lia. }
  unfold _validate_business_logic. cbv zeta.
  rewrite (filter_all _ nodes Hpos).
  assert (Hlen : (List.length nodes =? 0)%nat = false).
  { destruct nodes; [contradiction|reflexivity]. }
  rewrite Hlen. simpl (required_retry_logic && false).
  split.
  - intros r [<-|[<-|[]]].
    + match goal with |- context [if ?b then _ else _] => destruct b end;
        simpl; discriminate.
    + simpl. discriminate.
  - right. left. reflexivity.
Qed.

Lemma sample_node_constructed : constructed sample_node.
Proof.
  exists "node_1", "trigger", "n8n-nodes-base.webhook", (mkPosition 100 100),
         [], None, 3%Z, true.
  reflexivity.
Qed.

Lemma constructed_workflow_has_retry_logic_witness :
  Forall (fun node => (0 < N8nNode.retries node)%Z) (N8nWorkflow.nodes sample_workflow).
Proof.
  refine (proj1 (proj2 (proj2 (proj2
    (constructed_workflow_has_retry_logic "Sample" [sample_node] [] [] None false []
       sample_workflow _ _))))).
  - constructor; [apply sample_node_constructed | constructor].
  - reflexivity.
Defined.

(** C9, where it does not hold as it was stated.  The retry count of a
    node is checked by the constructor only: an assignment to the field of
    a constructed node is not validated.  The workflow below holds the
    constructed sample node after [retries] was set to 0, it is a typed
    workflow value, and the business-logic check reports that retry logic
    is missing from all nodes. *)
Lemma retry_failure_reachable_by_assignment :
  N8nNode_new "node_1" "trigger" "n8n-nodes-base.webhook" (mkPosition 100 100)
              [] None 3 true = Ok sample_node
  /\ reassigned_node = N8nNode.set_retry sample_node 0 false
  /\ N8nWorkflow.nodes reassigned_workflow = [reassigned_node]
  /\ N8nNode.retries reassigned_node = 0%Z
  /\ In (mkResult false "logic" "Retry logic is missing from all nodes")
        (_validate_business_logic reassigned_workflow).
Proof.
  repeat split; try reflexivity. right. left. reflexivity.
Qed.

(* ------------------------------------------------------------------ *)
(** ** Retry injection *)

Lemma with_retry_keys_get (parameters : pydict) :
  dict_get (with_retry_keys parameters) "retryOnFail" = Some (PBool true)
  /\ dict_get (with_retry_keys parameters) "maxTries" = Some (PInt 3)
  /\ dict_get (with_retry_keys parameters) "waitBetweenTries" = Some (PInt 200).
Proof.
  unfold with_retry_keys. repeat split.
  - rewrite !dict_get_set_other by discriminate. apply dict_get_set_same.
  - rewrite dict_get_set_other by discriminate. apply dict_get_set_same.
  - apply dict_get_set_same.
Qed.

Lemma inject_retry_node_spec (node : N8nNode.t) :
  retry_injected node (inject_retry_node node).
Proof.
  unfold retry_injected, inject_retry_node, retry_compliant.
  destruct (Z.eqb_spec (N8nNode.retries node) 3) as [H3|H3];
    destruct (N8nNode.retry_on_fail node) eqn:Hf; simpl;
    try (destruct (dict_has (N8nNode.parameters node) "retryOnFail"); simpl);
    repeat split; auto.
Qed.

(** C8, as the code has it.  [inject_retry_logic] leaves every node with
    [retries = 3] and [retry_on_fail = True] and touches nothing but the
    retry fields and the parameters.  A node that already had [retries = 3]
    and [retry_on_fail = True] is skipped and keeps its parameters, whether
    or not they hold the retry keys.  Another node gets the three keys
    [retryOnFail = True], [maxTries = 3], [waitBetweenTries = 200] when its
    parameters have no [retryOnFail] key, and keeps its parameters
    otherwise. *)
Theorem inject_retry_logic_spec :
  forall workflow,
    let result := inject_retry_logic workflow in
    N8nWorkflow.name result = N8nWorkflow.name workflow
    /\ N8nWorkflow.connections result = N8nWorkflow.connections workflow
    /\ Forall2 retry_injected (N8nWorkflow.nodes workflow) (N8nWorkflow.nodes result)
    /\ (forall parameters,
          dict_get (with_retry_keys parameters) "retryOnFail" = Some (PBool true)
          /\ dict_get (with_retry_keys parameters) "maxTries" = Some (PInt 3)
          /\ dict_get (with_retry_keys parameters) "waitBetweenTries" = Some (PInt 200)).
Proof.
  intros workflow result. subst result. unfold inject_retry_logic. simpl.
  repeat split; try apply with_retry_keys_get.
  induction (N8nWorkflow.nodes workflow) as [|node nodes IH]; simpl; constructor; auto.
  apply inject_retry_node_spec.
Qed.

(** C8, as stated, fails: a node with [retries = 3], [retry_on_fail = True]
    and empty parameters has none of the three keys, and gets none. *)
Lemma inject_retry_logic_skips_default_node :
  dict_has (N8nNode.parameters sample_node) "retryOnFail" = false
  /\ dict_has (N8nNode.parameters sample_node) "maxTries" = false
  /\ dict_has (N8nNode.parameters sample_node) "waitBetweenTries" = false
  /\ N8nWorkflow.nodes (inject_retry_logic sample_workflow) = [sample_node]
  /\ N8nNode.parameters sample_node = [].
Proof. repeat split; reflexivity. Qed.

(* ------------------------------------------------------------------ *)
(** ** Names in normal form *)

Lemma snake_char_lower c : snake_char c = true -> py_lower_char c = c.
Proof. ascii_cases c; vm_compute; congruence. Qed.

Lemma snake_char_not_separator c : snake_char c = true -> is_separator c = false.
Proof. ascii_cases c; vm_compute; congruence. Qed.

Lemma snake_char_workflow_valid c :
  snake_char c = true -> char_in c workflow_valid_chars = true.
Proof. ascii_cases c; vm_compute; congruence. Qed.

Lemma snake_char_not_dash_space c :
  snake_char c = true -> (c =? " ")%char = false /\ (c =? "-")%char = false.
Proof. ascii_cases c; vm_compute; intuition congruence. Qed.

Lemma canon_from_snake prev s : canon_from prev s = true -> sall snake_char s = true.
Proof.
  revert prev. induction s as [|c s IH]; intros prev; simpl; [reflexivity|].
  destruct (snake_char c); simpl; [|discriminate].
  destruct (is_underscore c).
  - destruct prev; simpl; [discriminate|]. apply IH.
  - apply IH.
Qed.

Lemma smap_id_on (f : ascii -> ascii) (p : ascii -> bool) s :
  (forall c, p c = true -> f c = c) -> sall p s = true -> smap f s = s.
Proof.
  intros Hf. induction s as [|c s IH]; simpl; [reflexivity|].
  intros H. apply andb_prop in H. destruct H as [Hc Hs].
  rewrite (Hf c Hc), (IH Hs). reflexivity.
Qed.

Lemma sfilter_id s p : sall p s = true -> sfilter p s = s.
Proof.
  induction s as [|c s IH]; simpl; [reflexivity|].
  intros H. apply andb_prop in H. destruct H as [Hc Hs].
  rewrite Hc, (IH Hs). reflexivity.
Qed.

Lemma sub_runs_id_on (p q : ascii -> bool) b s :
  (forall c, q c = true -> p c = false) -> sall q s = true -> sub_runs p b s = s.
Proof.
  intros Hpq. revert b. induction s as [|c s IH]; intros b; simpl; [reflexivity|].
  intros H. apply andb_prop in H. destruct H as [Hc Hs].
  rewrite (Hpq c Hc), (IH false Hs). reflexivity.
Qed.

Lemma replace_char_id_on (q : ascii -> bool) old new s :
  (forall c, q c = true -> (c =? old)%char = false) ->
  sall q s = true -> replace_char old new s = s.
Proof.
  intros Hq. induction s as [|c s IH]; simpl; [reflexivity|].
  intros H. apply andb_prop in H. destruct H as [Hc Hs].
  rewrite (Hq c Hc), (IH Hs). reflexivity.
Qed.

Lemma canon_collapse_id prev s :
  canon_from prev s = true -> sub_runs is_underscore prev s = s.
Proof.
  revert prev. induction s as [|c s IH]; intros prev; simpl; [reflexivity|].
  destruct (snake_char c); simpl; [|discriminate].
  destruct (is_underscore c) eqn:Hu.
  - destruct prev; simpl; [discriminate|]. intros H. rewrite (IH true H).
    apply Ascii.eqb_eq in Hu. now subst c.
  - intros H. now rewrite (IH false H).
Qed.

Lemma canon_from_weaken s : canon_from true s = true -> canon_from false s = true.
Proof.
  destruct s as [|c s]; simpl; [discriminate|].
  destruct (snake_char c); simpl; [|discriminate].
  destruct (is_underscore c); simpl; [discriminate|auto].
Qed.

Lemma canon_lstrip_id s : canon s = true -> lstrip is_underscore s = s.
Proof.
  unfold canon. destruct s as [|c s]; simpl; [reflexivity|].
  destruct (snake_char c); simpl; [|discriminate].
  destruct (is_underscore c); simpl; [discriminate|reflexivity].
Qed.

Lemma canon_rstrip_id prev s : canon_from prev s = true -> rstrip is_underscore s = s.
Proof.
  revert prev. induction s as [|c s IH]; intros prev; simpl; [reflexivity|].
  destruct (snake_char c); simpl; [|discriminate].
  destruct (is_underscore c) eqn:Hu.
  - destruct prev; simpl; [discriminate|]. intros H. rewrite (IH true H).
    destruct s; [discriminate H|reflexivity].
  - intros H. rewrite (IH false H). destruct s; reflexivity.
Qed.

Lemma canon_nonempty s : canon s = true -> (s =? "")%string = false.
Proof. destruct s; [discriminate|reflexivity]. Qed.

(** A name in normal form is left alone by [_normalize_name]... *)
Lemma normalize_canon_id s : canon s = true -> _normalize_name s = s.
Proof.
  intros H. pose proof (canon_from_snake _ _ H) as Hs.
  unfold _normalize_name, py_lower, strip_underscores.
  rewrite (smap_id_on _ _ _ snake_char_lower Hs).
  rewrite (sub_runs_id_on _ _ _ _ snake_char_not_separator Hs).
  rewrite (sfilter_id _ _ Hs).
  rewrite (canon_collapse_id _ _ (canon_from_weaken _ H)).
  rewrite (canon_lstrip_id _ H), (canon_rstrip_id _ _ H), (canon_nonempty _ H).
  reflexivity.
Qed.

(** ... and by the normalization of workflow names in the model. *)
Lemma validate_workflow_naming_canon_id s :
  canon s = true -> validate_workflow_naming s = s.
Proof.
  intros H. pose proof (canon_from_snake _ _ H) as Hs.
  unfold validate_workflow_naming, py_lower, strip_underscores.
  rewrite (smap_id_on _ _ _ snake_char_lower Hs).
  assert (Hsp : forall c, snake_char c = true -> (c =? " ")%char = false)
    by (intros c Hc; apply snake_char_not_dash_space, Hc).
  assert (Hda : forall c, snake_char c = true -> (c =? "-")%char = false)
    by (intros c Hc; apply snake_char_not_dash_space, Hc).
  assert (Hva : forall c, snake_char c = true ->
                  (if char_in c workflow_valid_chars then c else "_"%char) = c)
    by (intros c Hc; now rewrite (snake_char_workflow_valid c Hc)).
  rewrite (replace_char_id_on snake_char " " "_" s Hsp Hs).
  rewrite (replace_char_id_on snake_char "-" "_" s Hda Hs).
  rewrite (smap_id_on _ snake_char s Hva Hs).
  rewrite (canon_collapse_id _ _ (canon_from_weaken _ H)).
  rewrite (canon_lstrip_id _ H), (canon_rstrip_id _ _ H). reflexivity.
Qed.

Lemma sfilter_sall p s : sall p (sfilter p s) = true.
Proof.
  induction s as [|c s IH]; simpl; [reflexivity|].
  destruct (p c) eqn:Hc; simpl; [rewrite Hc|]; auto.
Qed.

Lemma lstrip_collapse b s :
  lstrip is_underscore (sub_runs is_underscore b s) = sub_runs is_underscore true s.
Proof.
  revert b. induction s as [|c s IH]; intros b; simpl; [reflexivity|].
  destruct (is_underscore c) eqn:Hu.
  - destruct b; simpl; apply IH.
  - simpl. rewrite Hu. reflexivity.
Qed.

Lemma rstrip_collapse_canon b s :
  sall snake_char s = true ->
  rstrip is_underscore (sub_runs is_underscore b s) = ""
  \/ canon_from b (rstrip is_underscore (sub_runs is_underscore b s)) = true.
Proof.
  revert b. induction s as [|c s IH]; intros b; simpl; [auto|].
  intros H. apply andb_prop in H. destruct H as [Hc Hs].
  destruct (is_underscore c) eqn:Hu.
  - destruct b; simpl.
    + apply (IH true Hs).
    + destruct (IH true Hs) as [E|E].
      * rewrite E. simpl. auto.
      * right.
        destruct (rstrip is_underscore (sub_runs is_underscore true s)) eqn:R;
          [discriminate E|].
        cbn [canon_from]. cbn [canon_from] in E.
        replace (snake_char "_") with true by reflexivity.
        replace (is_underscore "_") with true by reflexivity.
        simpl. exact E.
  - simpl. destruct (IH false Hs) as [E|E].
    + rewrite E. rewrite Hu. right. simpl. rewrite Hc, Hu. reflexivity.
    + right.
      destruct (rstrip is_underscore (sub_runs is_underscore false s)) eqn:R.
      * rewrite Hu. simpl. rewrite Hc, Hu. reflexivity.
      * cbn [canon_from]. cbn [canon_from] in E. rewrite Hc, Hu. exact E.
Qed.

(** [_normalize_name] returns a name in normal form. *)
Lemma normalize_is_canon s : canon (_normalize_name s) = true.
Proof.
  unfold _normalize_name, strip_underscores.
  set (v := sfilter snake_char _).
  rewrite lstrip_collapse.
  destruct (rstrip_collapse_canon true v (sfilter_sall _ _)) as [E|E].
  - rewrite E. reflexivity.
  - destruct (rstrip is_underscore (sub_runs is_underscore true v)) eqn:R;
      [discriminate E|].
    simpl ((_ =? _)%string). exact E.
Qed.

Lemma normalize_idempotent s : _normalize_name (_normalize_name s) = _normalize_name s.
Proof. apply normalize_canon_id, normalize_is_canon. Qed.

(* ------------------------------------------------------------------ *)
(** ** Naming enforcement *)

Lemma type_prefix_cases t :
  (t = webhook_type /\ type_prefix t = "webhook_")
  \/ (t <> webhook_type
      /\ In (type_prefix t) [""; "slack_"; "hubspot_"; "salesforce_"; "gmail_"; "notion_"]).
Proof.
  unfold type_prefix, type_prefixes, assoc_get, webhook_type.
  repeat match goal with
         | |- context [String.eqb ?a t] =>
             destruct (String.eqb_spec a t) as [<-|?]
         end;
    try (right; split; [discriminate|simpl; tauto]).
  - left. split; reflexivity.
  - right. split; [congruence|simpl; tauto].
Qed.

Lemma canon_known_prefix p s :
  In p ["slack_"; "hubspot_"; "salesforce_"; "gmail_"; "notion_"; "webhook_"] ->
  canon (p ++ s) = canon s.
Proof.
  simpl. intros [<-|[<-|[<-|[<-|[<-|[<-|[]]]]]]]; reflexivity.
Qed.

Lemma has_known_prefix_after p s :
  In p ["slack_"; "hubspot_"; "salesforce_"; "gmail_"; "notion_"] ->
  has_known_prefix (p ++ s) = true.
Proof.
  simpl. intros [<-|[<-|[<-|[<-|[<-|[]]]]]]; reflexivity.
Qed.

Lemma has_known_prefix_webhook s : has_known_prefix ("webhook_" ++ s) = false.
Proof. reflexivity. Qed.

Lemma append_grows p s : p ++ s = s -> p = "".
Proof.
  intros H. assert (L : String.length (p ++ s) = String.length s) by now rewrite H.
  assert (A : forall a b, String.length (a ++ b) = String.length a + String.length b).
  { induction a; simpl; auto. }
  rewrite A in L. destruct p; [reflexivity|simpl in L; lia].
Qed.

Lemma enforce_node_naming_name node :
  N8nNode.name (enforce_node_naming node) =
    let name := _normalize_name (N8nNode.name node) in
    if has_known_prefix name then name
    else if negb (type_prefix (N8nNode.type node) =? "")%string
         then type_prefix (N8nNode.type node) ++ name else name.
Proof. reflexivity. Qed.

Lemma enforce_node_naming_canon node :
  canon (N8nNode.name (enforce_node_naming node)) = true.
Proof.
  rewrite enforce_node_naming_name. cbv zeta.
  pose proof (normalize_is_canon (N8nNode.name node)) as Hc.
  destruct (has_known_prefix _); [exact Hc|].
  destruct (negb _); [|exact Hc].
  destruct (type_prefix_cases (N8nNode.type node)) as [[_ ->]|[_ Hin]].
  - rewrite canon_known_prefix by (simpl; tauto). exact Hc.
  - simpl in Hin. destruct Hin as [<-|Hin]; [exact Hc|].
    rewrite canon_known_prefix by (simpl; tauto). exact Hc.
Qed.

Lemma enforce_node_naming_twice node :
  N8nNode.name (enforce_node_naming (enforce_node_naming node)) =
    if reprefixed node
    then "webhook_" ++ N8nNode.name (enforce_node_naming node)
    else N8nNode.name (enforce_node_naming node).
Proof.
  rewrite (enforce_node_naming_name (enforce_node_naming node)). cbv zeta.
  rewrite (normalize_canon_id _ (enforce_node_naming_canon node)).
  replace (N8nNode.type (enforce_node_naming node)) with (N8nNode.type node)
    by reflexivity.
  rewrite enforce_node_naming_name. cbv zeta. unfold reprefixed.
  set (name := _normalize_name (N8nNode.name node)).
  destruct (has_known_prefix name) eqn:Hk.
  - rewrite Hk, andb_false_r. reflexivity.
  - simpl (negb false). rewrite andb_true_r.
    destruct (type_prefix_cases (N8nNode.type node)) as [[Ht Hp]|[Ht Hin]].
    + rewrite Hp, Ht. simpl. reflexivity.
    + destruct (String.eqb_spec (N8nNode.type node) webhook_type); [contradiction|].
      simpl in Hin. destruct Hin as [<-|Hin].
      * simpl. rewrite Hk. reflexivity.
      * assert (Hne : (type_prefix (N8nNode.type node) =? "")%string = false).
        { destruct Hin as [<-|[<-|[<-|[<-|[<-|[]]]]]]; reflexivity. }
        rewrite Hne. simpl (negb false). cbv iota.
        rewrite has_known_prefix_after by (simpl; tauto). reflexivity.
Qed.

Lemma enforce_node_naming_fixed node :
  enforce_node_naming (enforce_node_naming node) = enforce_node_naming node
  <-> reprefixed node = false.
Proof.
  split.
  - intros H. apply (f_equal N8nNode.name) in H.
    rewrite enforce_node_naming_twice in H.
    destruct (reprefixed node); [|reflexivity].
    apply append_grows in H. discriminate.
  - intros H.
    pose proof (enforce_node_naming_twice node) as T. rewrite H in T.
    destruct node as [i n t p ps c r f].
    unfold enforce_node_naming, N8nNode.set_name in *. simpl in *.
    f_equal. exact T.
Qed.

Lemma enforce_node_naming_second node :
  enforce_node_naming (enforce_node_naming node) = second_pass node.
Proof.
  unfold second_pass. cbv zeta.
  pose proof (enforce_node_naming_twice node) as T.
  destruct (reprefixed node) eqn:R.
  - destruct node as [i n t p ps c r f].
    unfold enforce_node_naming, N8nNode.set_name in *. simpl in *.
    f_equal. exact T.
  - now apply enforce_node_naming_fixed.
Qed.

Lemma map_fixed {A} (f g : A -> A) (l : list A) :
  map f l = map g l <-> Forall (fun a => f a = g a) l.
Proof.
  induction l as [|a l IH]; simpl.
  - split; constructor.
  - split.
    + intros [= Ha Hl]. constructor; [exact Ha|now apply IH].
    + intros H. inversion H; subst. f_equal; [assumption|now apply IH].
Qed.

(** C1, as the code has it.  A second pass of [enforce_naming_conventions]
    leaves the workflow name and every node as the first pass made them,
    except the nodes of webhook kind whose normalized name starts with none
    of [slack], [hubspot], [salesforce], [gmail], [notion]: each of these
    gets [webhook_] in front of its name once more.  So two passes equal one
    exactly when the workflow has no such node. *)
Theorem enforce_naming_conventions_twice :
  forall workflow,
    let once := enforce_naming_conventions workflow in
    let twice := enforce_naming_conventions once in
    N8nWorkflow.name twice = N8nWorkflow.name once
    /\ N8nWorkflow.nodes twice = map second_pass (N8nWorkflow.nodes workflow)
    /\ (twice = once <->
        Forall (fun node => reprefixed node = false) (N8nWorkflow.nodes workflow)).
Proof.
  intros workflow once twice. subst once twice.
  destruct workflow as [name nodes conns settings wid active tags].
  unfold enforce_naming_conventions, N8nWorkflow.set_name, N8nWorkflow.set_nodes.
  simpl.
  assert (Hmap : map enforce_node_naming (map enforce_node_naming nodes)
                 = map second_pass nodes).
  { rewrite map_map. apply map_ext. apply enforce_node_naming_second. }
  split; [apply normalize_idempotent|]. split; [exact Hmap|].
  rewrite normalize_idempotent. split.
  - intros [= H]. rewrite map_map in H.
    apply map_fixed in H.
    eapply Forall_impl; [|exact H]. intros node Hn. now apply enforce_node_naming_fixed.
  - intros H. f_equal. rewrite map_map. apply map_fixed.
    eapply Forall_impl; [|exact H]. intros node Hn. now apply enforce_node_naming_fixed.
Qed.

Lemma enforce_naming_conventions_twice_witness :
  enforce_naming_conventions (enforce_naming_conventions slack_workflow)
  = enforce_naming_conventions slack_workflow.
Proof.
  apply (proj2 (proj2 (proj2 (enforce_naming_conventions_twice slack_workflow)))).
  repeat constructor.
Defined.

(** C1, as stated, fails on a webhook node: the first pass names it
    [webhook_trigger], the second [webhook_webhook_trigger]. *)
Lemma enforce_naming_not_idempotent_on_webhook :
  map N8nNode.name (N8nWorkflow.nodes (enforce_naming_conventions sample_workflow))
  = ["webhook_trigger"]
  /\ map N8nNode.name
       (N8nWorkflow.nodes
          (enforce_naming_conventions (enforce_naming_conventions sample_workflow)))
     = ["webhook_webhook_trigger"]
  /\ enforce_naming_conventions (enforce_naming_conventions sample_workflow)
     <> enforce_naming_conventions sample_workflow.
Proof.
  split; [reflexivity|]. split; [reflexivity|]. vm_compute. discriminate.
Qed.

(* ------------------------------------------------------------------ *)
(** ** Combination *)

(** C7, as the code has it.  [combine_workflows] refuses the empty list with
    its own error; for one workflow it returns a workflow with the same
    nodes, connections, settings, id, active flag and tags, whose name is the
    combined name after the normalization every workflow name goes through
    at construction: the combined name itself when that is already in snake
    case. *)
Theorem combine_workflows_empty_and_single :
  forall (original : N8nWorkflow.t) (combined_name : string),
    N8nWorkflow.nodes original <> [] ->
    combine_workflows [] combined_name = Raise CannotCombineEmpty
    /\ is_WorkflowProcessorError CannotCombineEmpty = true
    /\ combine_workflows [original] combined_name
       = Ok (N8nWorkflow.set_name original (validate_workflow_naming combined_name))
    /\ (canon combined_name = true ->
        combine_workflows [original] combined_name
        = Ok (N8nWorkflow.set_name original combined_name)).
Proof.
  intros original combined_name Hne.
  assert (H : combine_workflows [original] combined_name
              = Ok (N8nWorkflow.set_name original
                      (validate_workflow_naming combined_name))).
  { unfold combine_workflows, N8nWorkflow_new, validate_required_nodes.
    destruct (N8nWorkflow.nodes original) eqn:E; [contradiction|].
    simpl. rewrite <- E. reflexivity. }
  repeat split; auto.
  intros Hc. rewrite H. now rewrite validate_workflow_naming_canon_id.
Qed.

Lemma combine_workflows_empty_and_single_witness :
  combine_workflows [sample_workflow] "combined_workflow"
  = Ok (N8nWorkflow.set_name sample_workflow "combined_workflow").
Proof.
  refine (proj2 (proj2 (proj2
    (combine_workflows_empty_and_single sample_workflow "combined_workflow" _))) _).
  - discriminate.
  - reflexivity.
Defined.

(** C7, as stated, fails on a combined name that is not in snake case: the
    clone is not named [My Flow] but [my_flow]. *)
Lemma combine_single_normalizes_name :
  combine_workflows [sample_workflow] "My Flow"
  = Ok (N8nWorkflow.set_name sample_workflow "my_flow")
  /\ combine_workflows [sample_workflow] "My Flow"
     <> Ok (N8nWorkflow.set_name sample_workflow "My Flow").
Proof. split; [reflexivity|]. vm_compute. discriminate. Qed.

Lemma snake_char_model c :
  char_in c valid_chars
  && negb ((" " =? c)%char || py_isupper c || char_in c forbidden_punctuation)
  = snake_char c.
Proof. ascii_cases c; vm_compute; reflexivity. Qed.

Lemma sall_sany_merge (f g1 g2 g3 : ascii -> bool) v :
  sall f v && negb (sany g1 v || sany g2 v || sany g3 v)
  = sall (fun c => f c && negb (g1 c || g2 c || g3 c)) v.
Proof.
  induction v as [|c v IH]; simpl; [reflexivity|].
  rewrite <- IH.
  generalize (sall f v) (sany g1 v) (sany g2 v) (sany g3 v).
  intros b1 b2 b3 b4.
  destruct (f c), (g1 c), (g2 c), (g3 c), b1, b2, b3, b4; reflexivity.
Qed.

Lemma sall_ext (p q : ascii -> bool) v :
  (forall c, p c = q c) -> sall p v = sall q v.
Proof. intros H. induction v as [|c v IH]; simpl; [reflexivity|]. now rewrite H, IH. Qed.

Lemma sall_model v :
  sall snake_char v =
  sall (fun c => char_in c valid_chars) v
  && negb (char_in " " v || sany py_isupper v
           || sany (fun c => char_in c forbidden_punctuation) v).
Proof.
  unfold char_in at 2. rewrite sall_sany_merge.
  apply sall_ext. intros c. symmetry. apply snake_char_model.
Qed.

(** The model accepts exactly the names made of [[a-z0-9_]]. *)
Lemma validate_naming_convention_spec v :
  validate_naming_convention v =
    if sall snake_char v then Ok v else Raise (ValidationError snake_case_message).
Proof.
  unfold validate_naming_convention. rewrite sall_model.
  destruct (sall (fun c => char_in c valid_chars) v); simpl; [|reflexivity].
  destruct (_ || _ || _); reflexivity.
Qed.

Lemma sall_app p a b : sall p (a ++ b) = sall p a && sall p b.
Proof. induction a as [|c a IH]; simpl; [reflexivity|]. now rewrite IH, andb_assoc. Qed.

Lemma N8nNode_new_ok i n t p ps c f :
  sall snake_char n = true ->
  N8nNode_new i n t p ps c 3 f = Ok (N8nNode.mk i n t p ps c 3 f).
Proof.
  intros H. unfold N8nNode_new. rewrite validate_naming_convention_spec, H.
  reflexivity.
Qed.

Lemma mapM_ok {A B} (f : A -> result B) (g : A -> B) (l : list A) :
  Forall (fun a => f a = Ok (g a)) l -> mapM f l = Ok (map g l).
Proof.
  induction 1 as [|a l Ha _ IH]; simpl; [reflexivity|].
  rewrite Ha. simpl. rewrite IH. reflexivity.
Qed.

Lemma prefixed_node_ok workflow_name x_offset y_offset node :
  sall snake_char workflow_name = true ->
  node_invariant node ->
  prefixed_node workflow_name x_offset y_offset node
  = Ok (prefixed_copy workflow_name x_offset y_offset node).
Proof.
  intros Hw [Hn Hr]. unfold prefixed_node, prefixed_copy. rewrite Hr.
  apply N8nNode_new_ok. unfold prefixed. rewrite !sall_app, Hw, Hn. reflexivity.
Qed.

Lemma rewrite_connections_ok workflow_name connections acc :
  Forall (fun e => is_dict (snd e)) connections ->
  rewrite_connections workflow_name connections acc
  = Ok (build (prefixed workflow_name) (rewritten_targets workflow_name)
              connections acc).
Proof.
  intros H. revert acc. induction H as [|[source targets] rest [d Hd] _ IH];
    intros acc; simpl; [reflexivity|].
  simpl in Hd. subst targets. simpl. apply IH.
Qed.




Lemma id_in_app ids ids' i : id_in (ids ++ ids') i = id_in ids i || id_in ids' i.
Proof. unfold id_in. apply existsb_app. Qed.


Lemma node_ids_prefixed_copies workflow_name x_offset y_offset nodes :
  map N8nNode.id (map (prefixed_copy workflow_name x_offset y_offset) nodes)
  = map (prefixed workflow_name) (map N8nNode.id nodes).
Proof. rewrite !map_map. reflexivity. Qed.

Lemma combine_two_ok w1 w2 combined_name :
  N8nWorkflow.nodes w1 <> [] ->
  sall snake_char (N8nWorkflow.name w2) = true ->
  Forall node_invariant (N8nWorkflow.nodes w2) ->
  Forall (fun e => is_dict (snd e)) (N8nWorkflow.connections w2) ->
  combine_workflows [w1; w2] combined_name = Ok (combined_of w1 w2 combined_name).
Proof.
  intros Hne Hname Hnodes Hconns.
  unfold combine_workflows, N8nWorkflow_new, validate_required_nodes.
  destruct (N8nWorkflow.nodes w1) eqn:E1; [contradiction|].
  rewrite <- E1. simpl. unfold merge_workflow. simpl.
  rewrite (mapM_ok _ (prefixed_copy (N8nWorkflow.name w2) 400 0)).
  - simpl. rewrite rewrite_connections_ok by exact Hconns. reflexivity.
  - eapply Forall_impl; [|exact Hnodes]. intros node Hn.
    now apply prefixed_node_ok.
Qed.






(* ------------------------------------------------------------------ *)
(** ** The wire format *)

Lemma node_round_trip_ok node :
  sall snake_char (N8nNode.name node) = true ->
  node_from_n8n_json (node_to_n8n_json node) = Ok (node_round_trip node).
Proof.
  intros Hn. destruct node as [i n t [px py] ps c r f]. simpl in Hn.
  unfold node_from_n8n_json, node_to_n8n_json, node_round_trip. simpl.
  destruct c as [[|e c]|]; simpl; now rewrite N8nNode_new_ok.
Qed.

Lemma as_str_list_ok tags : mapM as_str (map PStr tags) = Ok tags.
Proof. induction tags as [|s tags IH]; simpl; [reflexivity|]. now rewrite IH. Qed.

Lemma mapM_map_ok {A B C} (f : B -> result C) (h : A -> B) (g : A -> C) (l : list A) :
  Forall (fun a => f (h a) = Ok (g a)) l -> mapM f (map h l) = Ok (map g l).
Proof.
  induction 1 as [|a l Ha _ IH]; simpl; [reflexivity|].
  rewrite Ha. simpl. rewrite IH. reflexivity.
Qed.

Lemma from_to_n8n_json w :
  N8nWorkflow.nodes w <> [] ->
  Forall (fun node => sall snake_char (N8nNode.name node) = true) (N8nWorkflow.nodes w) ->
  from_n8n_json (to_n8n_json w) = Ok (workflow_round_trip w).
Proof.
  intros Hne Hnames. destruct w as [name nodes conns settings wid active tags].
  simpl in *. unfold from_n8n_json, to_n8n_json, workflow_round_trip. simpl.
  rewrite (mapM_map_ok _ _ node_round_trip).
  2:{ eapply Forall_impl; [|exact Hnames].
      intros node Hn. now apply node_round_trip_ok. }
  simpl.
  assert (Hne' : map node_round_trip nodes <> []) by (destruct nodes; [tauto|discriminate]).
  destruct wid as [[|a i]|]; simpl; rewrite as_str_list_ok; simpl;
    unfold N8nWorkflow_new, validate_required_nodes;
    destruct (map node_round_trip nodes) eqn:E; try contradiction; reflexivity.
Qed.





(* ------------------------------------------------------------------ *)
(** ** The scan for hardcoded secrets *)

Lemma append_assoc (a b c : string) : (a ++ b) ++ c = a ++ b ++ c.
Proof. induction a as [|x a IH]; simpl; [reflexivity|]. now rewrite IH. Qed.

Lemma prefix_append p s : String.prefix p (p ++ s) = true.
Proof.
  induction p as [|c p IH]; simpl; [now destruct s|].
  destruct (ascii_dec c c); [exact IH|contradiction].
Qed.

Lemma contains_unfold needle s :
  contains needle s =
    String.prefix needle s
    || match s with
       | EmptyString => false
       | String _ s' => contains needle s'
       end.
Proof. destruct s; reflexivity. Qed.

Lemma contains_here needle s : contains needle (needle ++ s) = true.
Proof. rewrite contains_unfold, prefix_append. reflexivity. Qed.

Lemma contains_after needle a s :
  contains needle s = true -> contains needle (a ++ s) = true.
Proof.
  intros H. induction a as [|c a IH]; simpl; [exact H|].
  rewrite IH. apply orb_true_r.
Qed.

Lemma prefix_split p s : String.prefix p s = true -> exists b, s = p ++ b.
Proof.
  revert s. induction p as [|c p IH]; intros s; simpl.
  - exists s. reflexivity.
  - destruct s as [|d s]; simpl; [discriminate|].
    destruct (ascii_dec c d) as [<-|]; [|discriminate].
    intros H. destruct (IH s H) as [b ->]. exists b. reflexivity.
Qed.

Lemma contains_split needle s :
  contains needle s = true -> exists a b, s = a ++ needle ++ b.
Proof.
  induction s as [|c s IH]; rewrite contains_unfold; intros H;
    apply orb_prop in H; destruct H as [H|H].
  - destruct (prefix_split _ _ H) as [b Hb]. exists "", b. exact Hb.
  - discriminate.
  - destruct (prefix_split _ _ H) as [b Hb]. exists "", b. exact Hb.
  - destruct (IH H) as (a & b & ->). exists (String c a), b. reflexivity.
Qed.

Lemma contains_middle needle a b : contains needle (a ++ needle ++ b) = true.
Proof. apply contains_after, contains_here. Qed.

Lemma contains_inside needle a s b :
  contains needle s = true -> contains needle (a ++ s ++ b) = true.
Proof.
  intros H. destruct (contains_split _ _ H) as (u & v & ->).
  rewrite !append_assoc, <- (append_assoc a u). apply contains_middle.
Qed.

Lemma sflat_map_app f a b : sflat_map f (a ++ b) = sflat_map f a ++ sflat_map f b.
Proof. induction a as [|c a IH]; simpl; [reflexivity|]. now rewrite IH, append_assoc. Qed.

(** A word that [json.dumps] prints as it is shows up in the printed
    string wherever it shows up in the string. *)
Lemma contains_json_string needle s :
  sflat_map json_escape_char needle = needle ->
  contains needle s = true -> contains needle (json_string s) = true.
Proof.
  intros Hplain H. destruct (contains_split _ _ H) as (a & b & ->).
  unfold json_string. rewrite !sflat_map_app, Hplain.
  change (String double_quote (?u ++ ?v)) with (String double_quote "" ++ u ++ v).
  rewrite !append_assoc.
  apply (contains_after _ (String double_quote "")), contains_middle.
Qed.

Lemma join_contains sep (l : list string) e :
  In e l -> exists a b, join sep l = a ++ e ++ b.
Proof.
  induction l as [|s l IH]; [contradiction|].
  intros [->|Hin].
  - destruct l as [|s' l]; simpl.
    + exists "", "". simpl. clear. induction e; simpl; congruence.
    + exists "", (sep ++ join sep (s' :: l)). reflexivity.
  - destruct (IH Hin) as (a & b & E).
    destruct l as [|s' l]; [contradiction|].
    exists (s ++ sep ++ a), b.
    change (join sep (s :: s' :: l)) with (s ++ sep ++ join sep (s' :: l)).
    rewrite E, !append_assoc. reflexivity.
Qed.

Lemma json_dumps_dict d :
  json_dumps (PDict d) = "{" ++ join ", " (map dumps_entry d) ++ "}".
Proof.
  simpl. do 3 f_equal. apply map_ext. intros [k v]. reflexivity.
Qed.

Lemma dumps_contains_entry needle d kv :
  In kv d -> contains needle (dumps_entry kv) = true ->
  contains needle (json_dumps (PDict d)) = true.
Proof.
  intros Hin H. rewrite json_dumps_dict.
  destruct (join_contains ", " (map dumps_entry d) (dumps_entry kv)) as (a & b & E).
  { now apply in_map. }
  rewrite E, append_assoc, append_assoc.
  apply (contains_after _ "{"). now apply contains_inside.
Qed.

(** A printable word inside a key of the parameters is inside their
    serialization... *)
Lemma dumps_contains_key needle (d : pydict) k v :
  sflat_map json_escape_char needle = needle ->
  In (k, v) d -> contains needle k = true ->
  contains needle (json_dumps (PDict d)) = true.
Proof.
  intros Hplain Hin H. apply (dumps_contains_entry _ _ (k, v) Hin).
  unfold dumps_entry. simpl fst. simpl snd.
  apply (contains_inside needle "" (json_string k)). now apply contains_json_string.
Qed.

(** ... and so is one inside a string value. *)
Lemma dumps_contains_value needle (d : pydict) k s :
  sflat_map json_escape_char needle = needle ->
  In (k, PStr s) d -> contains needle s = true ->
  contains needle (json_dumps (PDict d)) = true.
Proof.
  intros Hplain Hin H. apply (dumps_contains_entry _ _ (k, PStr s) Hin).
  unfold dumps_entry. simpl fst. simpl snd.
  change (json_dumps (PStr s)) with (json_string s).
  apply contains_after, (contains_after needle ": ").
  now apply contains_json_string.
Qed.

Lemma node_secrets_cases node :
  let params_str := json_dumps (PDict (N8nNode.parameters node)) in
  node_secrets node =
    if contains "{{" params_str then []
    else ((if contains "password" params_str then [password_finding node] else [])
          ++ (if contains "token" params_str then [token_finding node] else []))%list.
Proof.
  cbv zeta. unfold node_secrets, password_finding, token_finding.
  destruct (contains "{{" _), (contains "password" _), (contains "token" _); reflexivity.
Qed.

(** C4, as the code has it.  The scan goes through the nodes one by one and
    looks at the serialized parameters of each: it reports the node when the
    serialization holds [password] or [token] and does not hold two opening
    braces; it does not look for [api_key].  A node whose parameters are
    [{"password": "hunter2"}] is reported, one whose parameters are
    [{"password": "{{ $env.PASS }}"}] is not, and the first security result
    passes when nothing is reported and fails otherwise. *)
Theorem hardcoded_secret_scan :
  forall workflow node,
    let params_str := json_dumps (PDict (N8nNode.parameters node)) in
    _find_hardcoded_secrets workflow = flat_map node_secrets (N8nWorkflow.nodes workflow)
    /\ (node_secrets node <> [] <->
        (contains "password" params_str || contains "token" params_str)
        && negb (contains "{{" params_str) = true)
    /\ (N8nNode.parameters node = [("password", PStr "hunter2")] ->
        node_secrets node = [password_finding node])
    /\ (N8nNode.parameters node = [("password", PStr "{{ $env.PASS }}")] ->
        node_secrets node = [])
    /\ match _find_hardcoded_secrets workflow with
       | [] => hd_error (_validate_security workflow)
               = Some (mkResult true "security" "No hardcoded secrets detected")
       | _ => exists found, hd_error (_validate_security workflow)
                            = Some (mkResult false "security" found)
       end.
Proof.
  intros workflow node params_str. split; [reflexivity|].
  split.
  { rewrite node_secrets_cases. fold params_str.
    destruct (contains "{{" params_str), (contains "password" params_str),
      (contains "token" params_str); simpl; split; congruence. }
  split.
  { intros E. rewrite node_secrets_cases, E. reflexivity. }
  split.
  { intros E. rewrite node_secrets_cases, E. reflexivity. }
  unfold _validate_security. cbv zeta.
  destruct (_find_hardcoded_secrets workflow); simpl; eauto.
Qed.

Lemma hardcoded_secret_scan_witness :
  node_secrets (password_node "hunter2") = ["Potential hardcoded password in login"]
  /\ node_secrets (password_node "{{ $env.PASS }}") = [].
Proof.
  split.
  - apply (proj1 (proj2 (proj2 (hardcoded_secret_scan sample_workflow
                                  (password_node "hunter2"))))).
    reflexivity.
  - apply (proj1 (proj2 (proj2 (proj2 (hardcoded_secret_scan sample_workflow
                                         (password_node "{{ $env.PASS }}")))))).
    reflexivity.
Defined.

(** C4, as stated, fails for [api_key]: a literal under that key, with no
    template delimiter anywhere, is not reported. *)
Lemma api_key_literal_not_flagged :
  json_dumps (PDict (N8nNode.parameters api_key_node))
  = "{" ++ String double_quote "api_key" ++ String double_quote ": "
    ++ String double_quote "hardcoded_key" ++ String double_quote "}"
  /\ contains "{{" (json_dumps (PDict (N8nNode.parameters api_key_node))) = false
  /\ _find_hardcoded_secrets api_key_workflow = []
  /\ hd_error (_validate_security api_key_workflow)
     = Some (mkResult true "security" "No hardcoded secrets detected").
Proof. repeat split; reflexivity. Qed.

Lemma find_hardcoded_secrets_split workflow before node after :
  N8nWorkflow.nodes workflow = (before ++ node :: after)%list ->
  _find_hardcoded_secrets workflow
  = (_find_hardcoded_secrets (N8nWorkflow.set_nodes workflow before)
     ++ node_secrets node
     ++ _find_hardcoded_secrets (N8nWorkflow.set_nodes workflow after))%list.
Proof.
  intros E. unfold _find_hardcoded_secrets, N8nWorkflow.set_nodes.
  cbn [N8nWorkflow.nodes]. rewrite E, flat_map_app. reflexivity.
Qed.

Lemma secret_check_fails workflow finding :
  In finding (_find_hardcoded_secrets workflow) ->
  hd_error (_validate_security workflow)
  = Some (mkResult false "security"
            ("Hardcoded secrets found: "
             ++ py_repr (PList (map PStr (_find_hardcoded_secrets workflow))))).
Proof.
  intros Hin. unfold _validate_security. cbv zeta.
  destruct (_find_hardcoded_secrets workflow); [contradiction|reflexivity].
Qed.

(** C10.  [_find_hardcoded_secrets] decides for each node on the
    serialization of all the parameters of the node at once.  Take a node
    of a workflow, with the nodes before it and the nodes after it.  When
    two opening braces occur anywhere in the serialization of its
    parameters, in a string value or in a key, the scan of the workflow
    reports what it reports for the nodes before and for the nodes after
    and nothing for this node, whatever its other parameters hold; with no
    other node it reports nothing and the first result of
    [_validate_security] passes.  When they do not occur, the scan reports
    the node for [password] and then for [token] exactly when the word
    occurs in the serialization, also inside the name of a key, and the
    first result of [_validate_security] fails with the list of what was
    found. *)
Theorem secret_scan_is_per_node_serialization :
  forall workflow before node after,
    N8nWorkflow.nodes workflow = (before ++ node :: after)%list ->
    let params_str := json_dumps (PDict (N8nNode.parameters node)) in
    let found_before :=
      _find_hardcoded_secrets (N8nWorkflow.set_nodes workflow before) in
    let found_after :=
      _find_hardcoded_secrets (N8nWorkflow.set_nodes workflow after) in
    let silent :=
      _find_hardcoded_secrets workflow = (found_before ++ found_after)%list
      /\ (before = [] -> after = [] ->
          _find_hardcoded_secrets workflow = []
          /\ hd_error (_validate_security workflow)
             = Some (mkResult true "security" "No hardcoded secrets detected")) in
    let reported finding :=
      In finding (_find_hardcoded_secrets workflow)
      /\ hd_error (_validate_security workflow)
         = Some (mkResult false "security"
                   ("Hardcoded secrets found: "
                    ++ py_repr (PList (map PStr (_find_hardcoded_secrets workflow))))) in
    (contains "{{" params_str = true -> silent)
    /\ (forall key value,
          In (key, PStr value) (N8nNode.parameters node) ->
          contains "{{" value = true -> silent)
    /\ (forall key value,
          In (key, value) (N8nNode.parameters node) ->
          contains "{{" key = true -> silent)
    /\ (contains "{{" params_str = false ->
        _find_hardcoded_secrets workflow
        = (found_before
           ++ (if contains "password" params_str then [password_finding node] else [])
           ++ (if contains "token" params_str then [token_finding node] else [])
           ++ found_after)%list
        /\ (contains "password" params_str = true -> reported (password_finding node))
        /\ (contains "token" params_str = true -> reported (token_finding node))
        /\ (forall key value,
              In (key, value) (N8nNode.parameters node) ->
              (contains "password" key = true -> reported (password_finding node))
              /\ (contains "token" key = true -> reported (token_finding node)))).
Proof.
  intros workflow before node after Hnodes params_str found_before found_after
         silent reported.
  pose proof (find_hardcoded_secrets_split workflow before node after Hnodes) as Hsplit.
  fold found_before found_after in Hsplit.
  rewrite node_secrets_cases in Hsplit. fold params_str in Hsplit.
  assert (Hsilent : contains "{{" params_str = true -> silent).
  { intros H. rewrite H in Hsplit. simpl in Hsplit. subst silent. split; [exact Hsplit|].
    intros Hb Ha.
    assert (E : _find_hardcoded_secrets workflow = []).
    { rewrite Hsplit. subst found_before found_after. rewrite Hb, Ha. reflexivity. }
    split; [exact E|]. unfold _validate_security. cbv zeta. now rewrite E. }
  assert (Hreported : forall finding,
             In finding (_find_hardcoded_secrets workflow) -> reported finding).
  { intros finding Hin. split; [exact Hin|]. now apply (secret_check_fails _ finding). }
  assert (Hpw : contains "{{" params_str = false ->
                contains "password" params_str = true ->
                reported (password_finding node)).
  { intros Hb H. apply Hreported. rewrite Hsplit, Hb, H.
    apply in_or_app. right. simpl. now left. }
  assert (Htk : contains "{{" params_str = false ->
                contains "token" params_str = true ->
                reported (token_finding node)).
  { intros Hb H. apply Hreported. rewrite Hsplit, Hb, H.
    apply in_or_app. right. apply in_or_app. left.
    apply in_or_app. right. simpl. now left. }
  split; [exact Hsilent|]. split.
  { intros key value Hin H. apply Hsilent.
    now apply (dumps_contains_value "{{" _ key value). }
  split.
  { intros key value Hin H. apply Hsilent.
    now apply (dumps_contains_key "{{" _ key value). }
  intros Hb. split.
  { rewrite Hsplit, Hb. now rewrite <- app_assoc. }
  split; [now apply Hpw|]. split; [now apply Htk|].
  intros key value Hin. split; intros H.
  - apply Hpw; [exact Hb|]. now apply (dumps_contains_key "password" _ key value).
  - apply Htk; [exact Hb|]. now apply (dumps_contains_key "token" _ key value).
Qed.

Lemma secret_scan_is_per_node_serialization_witness :
  (_find_hardcoded_secrets mixed_workflow = []
   /\ hd_error (_validate_security mixed_workflow)
      = Some (mkResult true "security" "No hardcoded secrets detected"))
  /\ (In "Potential hardcoded token in count"
         (_find_hardcoded_secrets mixed_and_count_workflow)
      /\ hd_error (_validate_security mixed_and_count_workflow)
         = Some (mkResult false "security"
                   "Hardcoded secrets found: ['Potential hardcoded token in count']")).
Proof.
  split.
  - apply (proj1 (proj2 (secret_scan_is_per_node_serialization
                           mixed_workflow [] mixed_node [] eq_refl))
             "url" "{{ $json.url }}").
    + simpl. auto.
    + reflexivity.
    + reflexivity.
    + reflexivity.
  - destruct (secret_scan_is_per_node_serialization
                mixed_and_count_workflow [mixed_node] token_count_node [] eq_refl)
      as (_ & _ & _ & Hloud).
    destruct (Hloud eq_refl) as (_ & _ & _ & Hkeys).
    apply (Hkeys "token_count" (PInt 5)).
    + simpl. auto.
    + reflexivity.
Defined.

(* ------------------------------------------------------------------ *)
(** ** Loading from the vault *)











(* ------------------------------------------------------------------ *)
(** ** What a loaded workflow satisfies *)

Ltac bind_inv H :=
  match type of H with
  | bind ?r _ = Ok _ =>
      let E := fresh "E" in
      destruct r eqn:E; simpl in H; [|discriminate H]
  end.

Lemma mapM_forall {A B} (f : A -> result B) (P : B -> Prop) (l : list A) (bs : list B) :
  (forall a b, f a = Ok b -> P b) -> mapM f l = Ok bs -> Forall P bs.
Proof.
  intros Hf. revert bs. induction l as [|a l IH]; intros bs H; simpl in H.
  - injection H as <-. constructor.
  - bind_inv H. bind_inv H. injection H as <-. constructor; eauto.
Qed.

Lemma mapM_length {A B} (f : A -> result B) (l : list A) (bs : list B) :
  mapM f l = Ok bs -> List.length bs = List.length l.
Proof.
  revert bs. induction l as [|a l IH]; intros bs H; simpl in H.
  - injection H as <-. reflexivity.
  - bind_inv H. bind_inv H. injection H as <-. simpl. f_equal. now apply IH.
Qed.

Lemma node_from_n8n_json_invariant node_data node :
  node_from_n8n_json node_data = Ok node ->
  node_invariant node /\ N8nNode.retry_on_fail node = true.
Proof.
  unfold node_from_n8n_json. intros H. repeat bind_inv H.
  apply N8nNode_new_inv in H. destruct H as (Hv & _ & ->).
  rewrite validate_naming_convention_spec in Hv.
  unfold node_invariant. simpl.
  destruct (sall snake_char _); [auto|discriminate].
Qed.

Lemma sall_sub_runs p b s :
  sall snake_char s = true -> sall snake_char (sub_runs p b s) = true.
Proof.
  revert b. induction s as [|c s IH]; intros b; simpl; [reflexivity|].
  intros H. apply andb_prop in H. destruct H as [Hc Hs].
  destruct (p c); [destruct b|]; simpl; rewrite ?Hc, IH; auto.
Qed.

Lemma sall_lstrip p q s : sall q s = true -> sall q (lstrip p s) = true.
Proof.
  induction s as [|c s IH]; simpl; [reflexivity|].
  intros H. destruct (p c); [|exact H].
  apply andb_prop in H. now apply IH.
Qed.

Lemma sall_rstrip p q s : sall q s = true -> sall q (rstrip p s) = true.
Proof.
  induction s as [|c s IH]; simpl; [reflexivity|].
  intros H. apply andb_prop in H. destruct H as [Hc Hs].
  specialize (IH Hs). destruct (rstrip p s).
  - destruct (p c); simpl; rewrite ?Hc; reflexivity.
  - simpl. simpl in IH. now rewrite Hc, IH.
Qed.

Lemma workflow_valid_snake c : char_in c workflow_valid_chars = snake_char c.
Proof. ascii_cases c; vm_compute; reflexivity. Qed.

(** The name the workflow constructor stores is made of [[a-z0-9_]]. *)
Lemma validate_workflow_naming_snake v :
  sall snake_char (validate_workflow_naming v) = true.
Proof.
  unfold validate_workflow_naming, strip_underscores.
  apply sall_rstrip, sall_lstrip, sall_sub_runs.
  generalize (replace_char "-" "_" (replace_char " " "_" (py_lower v))).
  intros s. induction s as [|c s IH]; simpl; [reflexivity|].
  rewrite IH, andb_true_r. rewrite workflow_valid_snake.
  destruct (snake_char c) eqn:E; [exact E|reflexivity].
Qed.

Lemma from_n8n_json_invariant data w :
  from_n8n_json data = Ok w -> workflow_invariant w.
Proof.
  unfold from_n8n_json. intros H. repeat bind_inv H.
  apply N8nWorkflow_new_inv in H. destruct H as [Hne ->].
  unfold workflow_invariant. simpl.
  split; [exact Hne|]. split; [apply validate_workflow_naming_snake|].
  match goal with
  | E : mapM node_from_n8n_json _ = Ok _ |- _ =>
      apply (mapM_forall _ node_invariant) in E; [exact E|]
  end.
  intros raw node Hb. now apply node_from_n8n_json_invariant in Hb.
Qed.

Lemma load_invariant v workflow_name w :
  load_workflow_from_vault v workflow_name = Ok w -> workflow_invariant w.
Proof.
  unfold load_workflow_from_vault.
  destruct (v workflow_name) as [[|data]|]; try discriminate.
  destruct (validate_workflow_json data) as [[|e errors]|]; simpl; try discriminate.
  destruct (from_n8n_json data) eqn:E; [|discriminate].
  intros [= <-]. now apply from_n8n_json_invariant in E.
Qed.

(* ------------------------------------------------------------------ *)
(** ** Shadow nodes *)

Lemma Forall_enumerate_from {A} (P : A -> Prop) (l : list A) start :
  Forall P l -> Forall (fun i_a => P (snd i_a)) (enumerate_from start l).
Proof.
  intros H. revert start. induction H; intros start; simpl; constructor; auto.
Qed.

Lemma enumerate_from_length {A} (l : list A) start :
  List.length (enumerate_from start l) = List.length l.
Proof. revert start. induction l; intros start; simpl; auto. Qed.

Lemma shadow_nodes_ok prefixes make nodes :
  Forall (fun node => has_shadow_prefix prefixes node = false
                      /\ forall i, exists m, make i node = Ok m) nodes ->
  shadow_nodes prefixes make nodes = Ok (map (shadow make) (enumerate nodes)).
Proof.
  intros H. unfold shadow_nodes, enumerate.
  apply (Forall_enumerate_from _ _ 0) in H.
  rewrite filter_all.
  - apply mapM_ok. eapply Forall_impl; [|exact H].
    intros [i node] [_ Hm]. simpl in *. unfold shadow. simpl.
    destruct (Hm i) as [m ->]. reflexivity.
  - eapply Forall_impl; [|exact H]. intros [i node] [Hp _]. simpl in *. now rewrite Hp.
Qed.

Lemma canon_no_shadow_prefix s :
  canon s = true -> startswith s "log__" = false /\ startswith s "error__" = false.
Proof.
  intros Hc. unfold startswith. split.
  - destruct (String.prefix "log__" s) eqn:E; [|reflexivity].
    destruct (prefix_split _ _ E) as [b ->]. vm_compute in Hc.
    repeat match type of Hc with
           | context [match ?x with _ => _ end] => destruct x
           end; discriminate.
  - destruct (String.prefix "error__" s) eqn:E; [|reflexivity].
    destruct (prefix_split _ _ E) as [b ->]. vm_compute in Hc.
    repeat match type of Hc with
           | context [match ?x with _ => _ end] => destruct x
           end; discriminate.
Qed.

Lemma log_node_ok workflow_name i node :
  sall snake_char (N8nNode.name node) = true ->
  exists m, log_node workflow_name i node = Ok m
            /\ N8nNode.name m = "log__" ++ N8nNode.name node
            /\ N8nNode.retries m = 3%Z
            /\ contains "{{" (json_dumps (PDict (N8nNode.parameters m))) = true.
Proof.
  intros H. unfold log_node. rewrite N8nNode_new_ok.
  - eexists. repeat split.
  - simpl. exact H.
Qed.

Lemma error_node_ok workflow_name i node :
  sall snake_char (N8nNode.name node) = true ->
  exists m, error_node workflow_name i node = Ok m
            /\ N8nNode.name m = "error__" ++ N8nNode.name node
            /\ N8nNode.retries m = 3%Z
            /\ contains "{{" (json_dumps (PDict (N8nNode.parameters m))) = true.
Proof.
  intros H. unfold error_node. rewrite N8nNode_new_ok.
  - eexists. split; [reflexivity|]. split; [reflexivity|]. split; [reflexivity|].
    simpl N8nNode.parameters.
    apply (dumps_contains_entry _ _
             ("errorData",
              PDict [ ("original_node", PStr (N8nNode.name node));
                      ("workflow_name", PStr workflow_name);
                      ("timestamp", PStr "{{ new Date().toISOString() }}");
                      ("error_message", PStr "{{ $json.error }}");
                      ("input_data", PStr "{{ $json.input }}") ]));
      [simpl; tauto|].
    unfold dumps_entry. simpl fst. simpl snd.
    apply contains_after, (contains_after _ ": ").
    apply (dumps_contains_value "{{" _ "timestamp" "{{ new Date().toISOString() }}");
      [reflexivity|simpl; tauto|reflexivity].
  - simpl. exact H.
Qed.

Lemma add_logging_ok w :
  Forall canon_named (N8nWorkflow.nodes w) ->
  add_logging_instrumentation w
  = Ok (N8nWorkflow.set_nodes w (N8nWorkflow.nodes w ++ log_nodes_of w)%list)
  /\ Forall is_log_shadow (log_nodes_of w)
  /\ List.length (log_nodes_of w) = List.length (N8nWorkflow.nodes w).
Proof.
  intros H. split; [|split].
  - unfold add_logging_instrumentation. rewrite shadow_nodes_ok; [reflexivity|].
    eapply Forall_impl; [|exact H]. intros node Hc. split.
    + unfold has_shadow_prefix. simpl.
      destruct (canon_no_shadow_prefix _ Hc) as [-> ->]. reflexivity.
    + intros i.
      destruct (log_node_ok (N8nWorkflow.name w) i node (canon_from_snake _ _ Hc))
        as (m & Hm & _). eauto.
  - unfold log_nodes_of, enumerate. rewrite Forall_map.
    apply (Forall_enumerate_from _ _ 0) in H.
    eapply Forall_impl; [|exact H]. intros [i node] Hc. simpl in Hc.
    destruct (log_node_ok (N8nWorkflow.name w) i node (canon_from_snake _ _ Hc))
      as (m & Hm & Hn & Hr & Hp).
    unfold shadow. simpl. rewrite Hm. unfold is_log_shadow.
    split; [exists (N8nNode.name node); split; assumption|split; assumption].
  - unfold log_nodes_of, enumerate. now rewrite length_map, enumerate_from_length.
Qed.

Lemma add_error_handling_ok w :
  Forall (fun node => sall snake_char (N8nNode.name node) = true
                      /\ startswith (N8nNode.name node) "error__" = false)
         (N8nWorkflow.nodes w) ->
  add_error_handling w
  = Ok (N8nWorkflow.set_nodes w (N8nWorkflow.nodes w ++ error_nodes_of w)%list)
  /\ Forall is_error_shadow (error_nodes_of w)
  /\ List.length (error_nodes_of w) = List.length (N8nWorkflow.nodes w).
Proof.
  intros H. split; [|split].
  - unfold add_error_handling. rewrite shadow_nodes_ok; [reflexivity|].
    eapply Forall_impl; [|exact H]. intros node [Hs Hp]. split.
    + unfold has_shadow_prefix. simpl. now rewrite Hp.
    + intros i.
      destruct (error_node_ok (N8nWorkflow.name w) i node Hs) as (m & Hm & _). eauto.
  - unfold error_nodes_of, enumerate. rewrite Forall_map.
    apply (Forall_enumerate_from _ _ 0) in H.
    eapply Forall_impl; [|exact H]. intros [i node] [Hs Hpre]. simpl in Hs.
    destruct (error_node_ok (N8nWorkflow.name w) i node Hs)
      as (m & Hm & Hn & Hr & Hp).
    unfold shadow. simpl. rewrite Hm. unfold is_error_shadow. rewrite Hn.
    split; [apply prefix_append|split; assumption].
  - unfold error_nodes_of, enumerate. now rewrite length_map, enumerate_from_length.
Qed.

Lemma log_shadow_errorable m :
  is_log_shadow m ->
  sall snake_char (N8nNode.name m) = true
  /\ startswith (N8nNode.name m) "error__" = false.
Proof.
  intros [(s & Hc & ->) _]. split.
  - rewrite sall_app. simpl. now apply canon_from_snake in Hc.
  - reflexivity.
Qed.

Lemma canon_errorable node :
  canon_named node ->
  sall snake_char (N8nNode.name node) = true
  /\ startswith (N8nNode.name node) "error__" = false.
Proof.
  intros Hc. split; [now apply canon_from_snake in Hc|].
  apply (canon_no_shadow_prefix _ Hc).
Qed.

(** Logging and then error handling, on a workflow whose names are in
    normal form: one logging node for every node, then one error node for
    every node and every logging node. *)
Lemma shadow_pipeline w :
  Forall canon_named (N8nWorkflow.nodes w) ->
  exists logs errors,
    add_logging_instrumentation w
    = Ok (N8nWorkflow.set_nodes w (N8nWorkflow.nodes w ++ logs)%list)
    /\ add_error_handling (N8nWorkflow.set_nodes w (N8nWorkflow.nodes w ++ logs)%list)
       = Ok (N8nWorkflow.set_nodes w ((N8nWorkflow.nodes w ++ logs) ++ errors)%list)
    /\ Forall is_log_shadow logs
    /\ Forall is_error_shadow errors
    /\ List.length logs = List.length (N8nWorkflow.nodes w)
    /\ List.length errors = 2 * List.length (N8nWorkflow.nodes w).
Proof.
  intros H. destruct (add_logging_ok w H) as (Hlog & Hlogs & Hlen).
  set (w2 := N8nWorkflow.set_nodes w (N8nWorkflow.nodes w ++ log_nodes_of w)%list).
  destruct (add_error_handling_ok w2) as (Herr & Herrs & Hlen2).
  { subst w2. simpl. apply Forall_app. split.
    - eapply Forall_impl; [|exact H]. apply canon_errorable.
    - eapply Forall_impl; [|exact Hlogs]. apply log_shadow_errorable. }
  exists (log_nodes_of w), (error_nodes_of w2).
  split; [exact Hlog|]. split; [exact Herr|].
  split; [exact Hlogs|]. split; [exact Herrs|]. split; [exact Hlen|].
  rewrite Hlen2. subst w2. simpl. rewrite length_app, Hlen. lia.
Qed.

(* ------------------------------------------------------------------ *)
(** ** Connections that can be checked *)

Lemma check_destination_total ids dest :
  dest_checkable dest = true -> exists errs, check_destination ids dest = Ok errs.
Proof.
  destruct dest as [| | | |l|d]; simpl; eauto.
  destruct (dict_get d "node") as [n|]; eauto.
  destruct (truthy n) eqn:T; eauto.
  destruct n as [| | | |[|e l]|[|e l]]; simpl; try discriminate; eauto.
Qed.

Lemma mapM_total {A B} (f : A -> result B) (l : list A) :
  Forall (fun a => exists b, f a = Ok b) l -> exists bs, mapM f l = Ok bs.
Proof.
  induction 1 as [|a l [b Hb] _ [bs IH]]; simpl; eauto.
  rewrite Hb. simpl. rewrite IH. simpl. eauto.
Qed.

Lemma check_output_total ids destinations :
  destinations_checkable destinations = true ->
  exists errs, check_output ids destinations = Ok errs.
Proof.
  intros H. unfold check_output.
  assert (Hall : Forall (fun d => exists e, check_destination ids d = Ok e)
                        match destinations with
                        | PList l => l
                        | other => [other]
                        end).
  { destruct destinations; simpl in H;
      try (constructor; [apply check_destination_total; exact H|constructor]).
    rewrite forallb_forall in H. apply Forall_forall. intros d Hd.
    apply check_destination_total. now apply H. }
  destruct (mapM_total _ _ Hall) as [errs ->]. simpl. eauto.
Qed.

Lemma check_source_total ids entry :
  targets_checkable (snd entry) = true -> exists errs, check_source ids entry = Ok errs.
Proof.
  destruct entry as [source targets]. simpl. intros H. unfold check_source.
  destruct (negb (id_in ids source)); eauto.
  destruct targets; simpl in H; try discriminate. simpl.
  assert (Hall : Forall (fun out => exists e, check_output ids (snd out) = Ok e) d).
  { rewrite forallb_forall in H. apply Forall_forall. intros out Hout.
    apply check_output_total. now apply H. }
  destruct (mapM_total _ _ Hall) as [errs ->]. simpl. eauto.
Qed.

Lemma validate_node_connections_total w :
  connections_checkable (N8nWorkflow.connections w) = true ->
  exists errs, validate_node_connections w = Ok errs.
Proof.
  intros H. unfold validate_node_connections.
  assert (Hall : Forall (fun e => exists errs, check_source (node_ids w) e = Ok errs)
                        (N8nWorkflow.connections w)).
  { unfold connections_checkable in H. rewrite forallb_forall in H.
    apply Forall_forall. intros e He. apply check_source_total. now apply H. }
  destruct (mapM_total _ _ Hall) as [errs ->]. simpl. eauto.
Qed.

Lemma dict_set_forallb (P : string * pyval -> bool) d k v :
  forallb P d = true -> P (k, v) = true ->
  (forall k' v', P (k', v') = P (k, v')) ->
  forallb P (dict_set d k v) = true.
Proof.
  intros Hd Hv Hk. induction d as [|[k0 v0] d IH]; simpl in *.
  - now rewrite Hv.
  - apply andb_prop in Hd. destruct Hd as [H0 Hd].
    destruct (k0 =? k)%string; simpl.
    + rewrite (Hk k0 v), Hv. exact Hd.
    + rewrite H0. now apply IH.
Qed.

Lemma build_forallb (P : pyval -> bool) kf vf entries acc :
  forallb (fun e => P (snd e)) acc = true ->
  (forall e, In e entries -> P (vf (snd e)) = true) ->
  forallb (fun e => P (snd e)) (build kf vf entries acc) = true.
Proof.
  unfold build. revert acc. induction entries as [|e entries IH]; intros acc Ha He;
    simpl; [exact Ha|].
  apply IH.
  - apply dict_set_forallb; [exact Ha| |reflexivity]. simpl. apply He. now left.
  - intros e' He'. apply He. now right.
Qed.

Lemma rewrite_destination_checkable workflow_name dest :
  dest_checkable dest = true ->
  dest_checkable (rewrite_destination workflow_name dest) = true.
Proof.
  destruct dest as [| | | |l|d]; simpl; auto.
  destruct (dict_get d "node") as [n|] eqn:E; simpl.
  - intros _. now rewrite dict_get_set_same.
  - now rewrite E.
Qed.

Lemma rewrite_destinations_checkable workflow_name destinations :
  destinations_checkable destinations = true ->
  destinations_checkable (rewrite_destinations workflow_name destinations) = true.
Proof.
  destruct destinations as [| | | |l|d]; simpl; auto.
  rewrite !forallb_forall. intros H dest Hin.
  apply in_map_iff in Hin. destruct Hin as (d0 & <- & Hin).
  apply rewrite_destination_checkable. now apply H.
Qed.

Lemma rewritten_targets_checkable workflow_name targets :
  targets_checkable targets = true ->
  targets_checkable (rewritten_targets workflow_name targets) = true.
Proof.
  destruct targets as [| | | |l|d]; simpl; try discriminate.
  intros H. apply (build_forallb destinations_checkable); [reflexivity|].
  intros e He. apply rewrite_destinations_checkable.
  rewrite forallb_forall in H. now apply H.
Qed.

Lemma combined_connections_checkable workflow_name connections acc :
  connections_checkable acc = true ->
  connections_checkable connections = true ->
  connections_checkable
    (build (prefixed workflow_name) (rewritten_targets workflow_name) connections acc)
  = true.
Proof.
  intros Ha Hc. apply (build_forallb targets_checkable); [exact Ha|].
  intros e He. apply rewritten_targets_checkable.
  unfold connections_checkable in Hc. rewrite forallb_forall in Hc. now apply Hc.
Qed.

Lemma connections_checkable_dicts connections :
  connections_checkable connections = true ->
  Forall (fun e => is_dict (snd e)) connections.
Proof.
  unfold connections_checkable. rewrite forallb_forall. intros H.
  apply Forall_forall. intros [k v] Hin. specialize (H _ Hin). simpl in *.
  destruct v; try discriminate. eexists. reflexivity.
Qed.

(* ------------------------------------------------------------------ *)
(** ** The assembled workflow and its validation *)

Lemma processed_facts w :
  N8nWorkflow.name (processed w) = _normalize_name (N8nWorkflow.name w)
  /\ N8nWorkflow.connections (processed w) = N8nWorkflow.connections w
  /\ List.length (N8nWorkflow.nodes (processed w)) = List.length (N8nWorkflow.nodes w)
  /\ Forall canon_named (N8nWorkflow.nodes (processed w))
  /\ Forall (fun node => N8nNode.retries node = 3%Z) (N8nWorkflow.nodes (processed w)).
Proof.
  unfold processed, add_idempotency_keys, inject_retry_logic, enforce_naming_conventions.
  simpl. split; [reflexivity|]. split; [reflexivity|].
  split; [now rewrite !length_map|].
  rewrite !map_map. split; apply Forall_map, Forall_forall; intros node _.
  - unfold canon_named.
    assert (E : forall n, N8nNode.name (inject_retry_node n) = N8nNode.name n)
      by (intros n; apply (inject_retry_node_spec n)).
    destruct (_supports_idempotency _); simpl; rewrite E;
      apply enforce_node_naming_canon.
  - assert (E : forall n, N8nNode.retries (inject_retry_node n) = 3%Z)
      by (intros n; apply (inject_retry_node_spec n)).
    destruct (_supports_idempotency _); simpl; apply E.
Qed.

Lemma filter_length_le {A} (p : A -> bool) l :
  (List.length (filter p l) <= List.length l)%nat.
Proof. induction l as [|a l IH]; simpl; [lia|]. destruct (p a); simpl; lia. Qed.

Lemma filter_length_all {A} (p : A -> bool) l :
  List.length (filter p l) = List.length l -> Forall (fun a => p a = true) l.
Proof.
  induction l as [|a l IH]; simpl; [constructor|].
  pose proof (filter_length_le p l) as Hle. destruct (p a) eqn:E; simpl; intros Hlen.
  - constructor; [exact E|]. apply IH. lia.
  - lia.
Qed.

Lemma filter_some {A} (p : A -> bool) l a :
  In a l -> p a = true -> (List.length (filter p l) =? 0)%nat = false.
Proof.
  intros Hin Hp. assert (Hf : In a (filter p l)) by (apply filter_In; auto).
  destruct (filter p l); [contradiction|reflexivity].
Qed.

(** A report passes only if every result passed. *)
Lemma report_pass_all results :
  overall_status (summary (generate_validation_report results)) = "PASS" ->
  Forall (fun r => passed r = true) results.
Proof.
  unfold generate_validation_report. simpl.
  destruct (Nat.eqb_spec (List.length results - List.length (filter passed results)) 0)
    as [E|E]; [|discriminate].
  intros _. apply filter_length_all.
  pose proof (filter_length_le passed results). lia.
Qed.

Lemma security_pass_env w :
  Forall (fun r => passed r = true) (_validate_security w) ->
  _find_hardcoded_secrets w = []
  /\ id_in (_extract_env_variables w) "NOTION_TOKEN" = true.
Proof.
  unfold _validate_security. cbv zeta. intros H.
  inversion H as [|? ? H1 H']; subst. inversion H' as [|? ? H2 _]; subst.
  split.
  - destruct (_find_hardcoded_secrets w); [reflexivity|discriminate H1].
  - unfold required_env_vars in H2. simpl in H2.
    destruct (id_in (_extract_env_variables w) "NOTION_TOKEN");
      [reflexivity|discriminate H2].
Qed.

(** The validator on a workflow that ends with error shadow nodes, whose
    nodes all have three retries and whose connections can be checked. *)
Lemma validate_assembled w :
  connections_checkable (N8nWorkflow.connections w) = true ->
  Forall (fun node => N8nNode.retries node = 3%Z) (N8nWorkflow.nodes w) ->
  (exists m, In m (N8nWorkflow.nodes w) /\ is_error_shadow m) ->
  exists results,
    validate_workflow w = Ok results
    /\ In (schema_name_check w) results
    /\ In (schema_node_check w) results
    /\ Forall (fun r => passed r = true) (_validate_business_logic w)
    /\ (overall_status (summary (generate_validation_report results)) = "PASS" ->
        _find_hardcoded_secrets w = []
        /\ id_in (_extract_env_variables w) "NOTION_TOKEN" = true).
Proof.
  intros Hc Hr (m & Hin & Hm & Hm3 & _).
  destruct (validate_node_connections_total w Hc) as [errs He].
  unfold validate_workflow, _validate_json_schema. rewrite He.
  cbv beta iota delta [bind].
  eexists. split; [reflexivity|].
  split; [simpl; auto|]. split; [simpl; auto|]. split.
  - unfold _validate_business_logic. cbv zeta.
    rewrite (filter_some _ _ m Hin Hm).
    rewrite (filter_some (fun node => (0 <? N8nNode.retries node)%Z) _ m Hin)
      by now rewrite Hm3.
    simpl. repeat constructor.
  - intros Hpass. apply report_pass_all in Hpass.
    apply security_pass_env. rewrite Forall_forall in Hpass |- *.
    intros r Hin'. apply Hpass.
    apply in_or_app. right. apply in_or_app. right. apply in_or_app. now left.
Qed.

Lemma assemble_workflows_unfold v workflow_names opportunity :
  assemble_workflows v workflow_names opportunity =
    match (workflows <- mapM (load_workflow_from_vault v) workflow_names ;;
           combined <- combine_workflows workflows (_generate_workflow_name opportunity) ;;
           logged <- add_logging_instrumentation (processed combined) ;;
           handled <- add_error_handling logged ;;
           _ <- validate_node_connections handled ;;
           Ok handled) with
    | Ok combined_workflow => Ok combined_workflow
    | Raise e => Raise (FailedToAssemble e)
    end.
Proof. reflexivity. Qed.

(** Two templates that load and whose connections can be checked are
    assembled into the processed combination followed by one logging node
    for each of its nodes and one error node for each node and each logging
    node. *)
Lemma assemble_two v name_a name_b opportunity wa wb :
  load_workflow_from_vault v name_a = Ok wa ->
  load_workflow_from_vault v name_b = Ok wb ->
  connections_checkable (N8nWorkflow.connections wa) = true ->
  connections_checkable (N8nWorkflow.connections wb) = true ->
  let p := processed (combined_of wa wb (_generate_workflow_name opportunity)) in
  exists logs errors,
    assemble_workflows v [name_a; name_b] opportunity
    = Ok (N8nWorkflow.set_nodes p ((N8nWorkflow.nodes p ++ logs) ++ errors)%list)
    /\ Forall is_log_shadow logs
    /\ Forall is_error_shadow errors
    /\ List.length logs
       = List.length (N8nWorkflow.nodes wa) + List.length (N8nWorkflow.nodes wb)
    /\ List.length errors
       = 2 * (List.length (N8nWorkflow.nodes wa) + List.length (N8nWorkflow.nodes wb)).
Proof.
  intros Hla Hlb Hca Hcb p.
  destruct (load_invariant _ _ _ Hla) as (Hnea & _ & _).
  destruct (load_invariant _ _ _ Hlb) as (_ & Hnameb & Hnodesb).
  set (combined := combined_of wa wb (_generate_workflow_name opportunity)) in *.
  destruct (processed_facts combined) as (_ & Hconn & Hlen & Hcanon & _).
  destruct (shadow_pipeline p Hcanon) as (logs & errors & Hlog & Herr & Hlogs & Herrs
                                          & Hll & Hle).
  exists logs, errors.
  assert (Hcount : List.length (N8nWorkflow.nodes p)
                   = List.length (N8nWorkflow.nodes wa) + List.length (N8nWorkflow.nodes wb)).
  { subst p. rewrite Hlen. subst combined. simpl. now rewrite length_app, length_map. }
  split; [|rewrite <- Hcount; auto].
  rewrite assemble_workflows_unfold.
  cbn [mapM]. rewrite Hla, Hlb. cbv beta iota delta [bind].
  rewrite (combine_two_ok wa wb _ Hnea Hnameb Hnodesb
             (connections_checkable_dicts _ Hcb)).
  fold combined. fold p. rewrite Hlog, Herr.
  destruct (validate_node_connections_total
              (N8nWorkflow.set_nodes p ((N8nWorkflow.nodes p ++ logs) ++ errors)%list))
    as [errs ->]; [|reflexivity].
  exact (combined_connections_checkable _ _ _ Hca Hcb).
Qed.

Lemma processed_types w :
  map N8nNode.type (N8nWorkflow.nodes (processed w))
  = map N8nNode.type (N8nWorkflow.nodes w).
Proof.
  unfold processed, add_idempotency_keys, inject_retry_logic, enforce_naming_conventions.
  simpl. rewrite !map_map. apply map_ext. intros node.
  assert (E : forall n, N8nNode.type (inject_retry_node n) = N8nNode.type n)
    by (intros n; apply (inject_retry_node_spec n)).
  destruct (_supports_idempotency _); simpl; now rewrite E.
Qed.

(** C2, as the code has it.  Two templates [A] and [B] that load, with one
    node each, of webhook and of slack kind, and with connections that can
    be checked, are assembled for an opportunity titled [Lead Capture] into
    a workflow named [lead_capture_automation] of 8 nodes: the 2 originals,
    2 logging nodes and 4 error nodes, one for each original and one for
    each logging node.  Every node has 3 retries.  The validator accepts the
    name and the node count and passes both business-logic checks; its
    report says PASS only if no secret is found and some parameter refers to
    [NOTION_TOKEN] through the environment. *)
Theorem assemble_lead_capture :
  forall (v : vault) (opportunity : AutomationOpportunity)
         (wa wb : N8nWorkflow.t) (a b : N8nNode.t),
    load_workflow_from_vault v "A" = Ok wa ->
    load_workflow_from_vault v "B" = Ok wb ->
    N8nWorkflow.nodes wa = [a] ->
    N8nWorkflow.nodes wb = [b] ->
    N8nNode.type a = webhook_type ->
    N8nNode.type b = slack_type ->
    connections_checkable (N8nWorkflow.connections wa) = true ->
    connections_checkable (N8nWorkflow.connections wb) = true ->
    title opportunity = "Lead Capture" ->
    exists w originals logs errors results,
      assemble_workflows v ["A"; "B"] opportunity = Ok w
      /\ N8nWorkflow.name w = "lead_capture_automation"
      /\ N8nWorkflow.nodes w = ((originals ++ logs) ++ errors)%list
      /\ map N8nNode.type originals = [webhook_type; slack_type]
      /\ Forall is_log_shadow logs /\ List.length logs = 2
      /\ Forall is_error_shadow errors /\ List.length errors = 4
      /\ List.length (N8nWorkflow.nodes w) = 8
      /\ Forall (fun node => N8nNode.retries node = 3%Z) (N8nWorkflow.nodes w)
      /\ validate_workflow w = Ok results
      /\ In (mkResult true "schema" "Workflow name is valid") results
      /\ In (mkResult true "schema" "Node count is acceptable: 8") results
      /\ Forall (fun r => passed r = true) (_validate_business_logic w)
      /\ (overall_status (summary (generate_validation_report results)) = "PASS" ->
          _find_hardcoded_secrets w = []
          /\ id_in (_extract_env_variables w) "NOTION_TOKEN" = true).
Proof.
  intros v opportunity wa wb a b Hla Hlb Hna Hnb Hta Htb Hca Hcb Htitle.
  destruct (assemble_two v "A" "B" opportunity wa wb Hla Hlb Hca Hcb)
    as (logs & errors & Hasm & Hlogs & Herrs & Hll & Hle).
  rewrite Hna, Hnb in Hll, Hle. simpl in Hll, Hle.
  set (combined := combined_of wa wb (_generate_workflow_name opportunity)) in *.
  destruct (processed_facts combined) as (Hname & Hconn & Hlen & Hcanon & Hretries).
  set (p := processed combined) in *.
  set (w := N8nWorkflow.set_nodes p ((N8nWorkflow.nodes p ++ logs) ++ errors)%list) in *.
  assert (Hlenp : List.length (N8nWorkflow.nodes p) = 2).
  { rewrite Hlen. subst combined. cbn [combined_of N8nWorkflow.nodes].
    rewrite length_app, length_map, Hna, Hnb. reflexivity. }
  assert (Hnodes : N8nWorkflow.nodes w
                   = ((N8nWorkflow.nodes p ++ logs) ++ errors)%list) by reflexivity.
  assert (Hcount : List.length (N8nWorkflow.nodes w) = 8).
  { rewrite Hnodes, !length_app, Hlenp, Hll, Hle. reflexivity. }
  assert (Hwname : N8nWorkflow.name w = "lead_capture_automation").
  { change (N8nWorkflow.name p = "lead_capture_automation").
    rewrite Hname.
    change (N8nWorkflow.name combined)
      with (validate_workflow_naming (_generate_workflow_name opportunity)).
    unfold _generate_workflow_name. rewrite Htitle. vm_compute. reflexivity. }
  assert (Hall3 : Forall (fun node => N8nNode.retries node = 3%Z) (N8nWorkflow.nodes w)).
  { rewrite Hnodes. apply Forall_app. split; [apply Forall_app; split|].
    - exact Hretries.
    - eapply Forall_impl; [|exact Hlogs]. intros m Hm. apply Hm.
    - eapply Forall_impl; [|exact Herrs]. intros m Hm. apply Hm. }
  destruct (validate_assembled w) as (results & Hval & Hn1 & Hn2 & Hlogic & Hpass).
  { exact (combined_connections_checkable _ _ _ Hca Hcb). }
  { exact Hall3. }
  { destruct errors as [|m errors]; [discriminate Hle|].
    exists m. split.
    - rewrite Hnodes. apply in_or_app. right. now left.
    - now inversion Herrs. }
  exists w, (N8nWorkflow.nodes p), logs, errors, results.
  split; [exact Hasm|]. split; [exact Hwname|]. split; [exact Hnodes|].
  split.
  { subst p. rewrite processed_types. subst combined.
    cbn [combined_of N8nWorkflow.nodes].
    rewrite map_app, map_map, Hna, Hnb. cbn [map prefixed_copy N8nNode.type app].
    now rewrite Hta, Htb. }
  split; [exact Hlogs|]. split; [exact Hll|].
  split; [exact Herrs|]. split; [exact Hle|].
  split; [exact Hcount|]. split; [exact Hall3|]. split; [exact Hval|].
  split.
  { unfold schema_name_check in Hn1. rewrite Hwname in Hn1. exact Hn1. }
  split.
  { unfold schema_node_check in Hn2. rewrite Hcount in Hn2. exact Hn2. }
  split; [exact Hlogic|exact Hpass].
Qed.

Lemma assemble_lead_capture_witness :
  exists w,
    assemble_workflows lead_vault ["A"; "B"] lead_capture = Ok w
    /\ N8nWorkflow.name w = "lead_capture_automation"
    /\ List.length (N8nWorkflow.nodes w) = 8.
Proof.
  destruct (assemble_lead_capture lead_vault lead_capture
              (loaded "a" (loaded_node "a1" "trigger" webhook_type))
              (loaded "b" (loaded_node "b1" "notify" slack_type))
              (loaded_node "a1" "trigger" webhook_type)
              (loaded_node "b1" "notify" slack_type)
              eq_refl eq_refl eq_refl eq_refl eq_refl eq_refl eq_refl eq_refl eq_refl)
    as (w & originals & logs & errors & results & Hasm & Hname & _ & _ & _ & _ & _ & _
        & Hcount & _).
  exists w. repeat split; assumption.
Defined.

(** C2, as stated, fails on two templates with empty parameters and no
    connections: the assembled workflow has 8 nodes, not 6, four of them
    error nodes, and the report of the validator says FAIL, because no
    parameter refers to [NOTION_TOKEN]. *)
Lemma assemble_lead_capture_has_eight_nodes_and_fails :
  exists w results,
    assemble_workflows lead_vault ["A"; "B"] lead_capture = Ok w
    /\ List.length (N8nWorkflow.nodes w) = 8
    /\ map N8nNode.name (N8nWorkflow.nodes w)
       = [ "webhook_trigger"; "slack_b_notify";
           "log__webhook_trigger"; "log__slack_b_notify";
           "error__webhook_trigger"; "error__slack_b_notify";
           "error__log__webhook_trigger"; "error__log__slack_b_notify" ]
    /\ validate_workflow w = Ok results
    /\ In (mkResult false "security"
             "Missing required environment variables: ['NOTION_TOKEN']") results
    /\ overall_status (summary (generate_validation_report results)) = "FAIL".
Proof.
  eexists. eexists.
  split; [vm_compute; reflexivity|].
  split; [reflexivity|]. split; [reflexivity|].
  split; [vm_compute; reflexivity|].
  split; [simpl; tauto|reflexivity].
Qed.

(* ------------------------------------------------------------------ *)
(** ** Three retries, from construction on *)

Lemma shadow_nodes_retries prefixes make nodes shadows :
  (forall i node m, make i node = Ok m -> N8nNode.retries m = 3%Z) ->
  shadow_nodes prefixes make nodes = Ok shadows ->
  Forall (fun node => N8nNode.retries node = 3%Z) shadows.
Proof.
  intros Hmake H. unfold shadow_nodes in H.
  apply (mapM_forall _ (fun node => N8nNode.retries node = 3%Z)) in H; [exact H|].
  intros [i node] m Hm. now apply (Hmake i node).
Qed.

Lemma N8nNode_new_retries i n t p ps c r f node :
  N8nNode_new i n t p ps c r f = Ok node -> N8nNode.retries node = 3%Z.
Proof. intros H. apply N8nNode_new_inv in H. now destruct H as (_ & _ & ->). Qed.

Lemma merge_workflows_retries rest :
  forall combined x_offset y_offset w,
    three_retries combined ->
    merge_workflows combined x_offset y_offset rest = Ok w ->
    three_retries w.
Proof.
  induction rest as [|workflow rest IH]; intros combined x_offset y_offset w Hc H;
    simpl in H.
  - now injection H as <-.
  - bind_inv H. refine (IH _ _ _ _ _ H).
    match goal with
    | E : merge_workflow _ _ _ _ = Ok _ |- _ =>
        unfold merge_workflow in E; bind_inv E; bind_inv E; injection E as <-
    end.
    unfold three_retries. simpl. apply Forall_app. split; [exact Hc|].
    match goal with
    | E : mapM _ _ = Ok _ |- _ =>
        apply (mapM_forall _ (fun node => N8nNode.retries node = 3%Z)) in E; [exact E|]
    end.
    intros node m Hm. now apply N8nNode_new_retries in Hm.
Qed.

(** No operation of the processor gives a node another retry count than 3:
    what the constructor establishes holds for every workflow the program
    builds from loaded ones. *)
Lemma processor_keeps_three_retries :
  (forall w, three_retries w -> three_retries (enforce_naming_conventions w))
  /\ (forall w, three_retries (inject_retry_logic w))
  /\ (forall w key_field, three_retries w -> three_retries (add_idempotency_keys w key_field))
  /\ (forall w w', three_retries w -> add_logging_instrumentation w = Ok w' ->
                   three_retries w')
  /\ (forall w w', three_retries w -> add_error_handling w = Ok w' -> three_retries w')
  /\ (forall workflows combined_name w,
        Forall three_retries workflows ->
        combine_workflows workflows combined_name = Ok w -> three_retries w)
  /\ (forall data w, from_n8n_json data = Ok w -> three_retries w).
Proof.
  unfold three_retries. repeat split.
  - intros w H. unfold enforce_naming_conventions. simpl. rewrite Forall_map.
    eapply Forall_impl; [|exact H]. intros node Hn. exact Hn.
  - intros w. unfold inject_retry_logic. simpl. rewrite Forall_map.
    apply Forall_forall. intros node _. apply (inject_retry_node_spec node).
  - intros w key_field H. unfold add_idempotency_keys. simpl. rewrite Forall_map.
    eapply Forall_impl; [|exact H]. intros node Hn.
    destruct (_supports_idempotency node); exact Hn.
  - intros w w' H Hlog. unfold add_logging_instrumentation in Hlog. bind_inv Hlog.
    injection Hlog as <-. simpl. apply Forall_app. split; [exact H|].
    eapply shadow_nodes_retries; [|eassumption].
    intros i node m Hm. now apply N8nNode_new_retries in Hm.
  - intros w w' H Herr. unfold add_error_handling in Herr. bind_inv Herr.
    injection Herr as <-. simpl. apply Forall_app. split; [exact H|].
    eapply shadow_nodes_retries; [|eassumption].
    intros i node m Hm. now apply N8nNode_new_retries in Hm.
  - intros workflows combined_name w Hall H.
    destruct workflows as [|first rest]; [discriminate H|].
    inversion Hall as [|? ? Hfirst Hrest]; subst.
    destruct rest as [|second rest].
    + apply N8nWorkflow_new_inv in H. destruct H as [_ ->]. exact Hfirst.
    + unfold combine_workflows in H. bind_inv H.
      match goal with
      | E : N8nWorkflow_new _ _ _ _ _ _ _ = Ok _ |- _ =>
          apply N8nWorkflow_new_inv in E; destruct E as [_ ->]
      end.
      refine (merge_workflows_retries (second :: rest) _ 400 0 w _ H). exact Hfirst.
  - intros data w H. apply from_n8n_json_invariant in H.
    destruct H as (_ & _ & H). eapply Forall_impl; [|exact H]. intros node Hn. apply Hn.
Qed.

(* ------------------------------------------------------------------ *)
(** ** More on names *)

Lemma prefix_cons c p d s :
  String.prefix (String c p) (String d s) = (c =? d)%char && String.prefix p s.
Proof.
  cbn [String.prefix]. destruct (ascii_dec c d) as [->|N].
  - now rewrite Ascii.eqb_refl.
  - apply Ascii.eqb_neq in N. now rewrite N.
Qed.

Lemma canon_from_no_double prev s :
  canon_from prev s = true -> contains "__" s = false.
Proof.
  revert prev. induction s as [|c s IH]; intros prev H; [reflexivity|].
  rewrite contains_unfold. cbn [canon_from] in H.
  apply andb_prop in H. destruct H as [_ H].
  rewrite prefix_cons, Ascii.eqb_sym. fold (is_underscore c).
  destruct (is_underscore c) eqn:Hu.
  - apply andb_prop in H. destruct H as [_ H]. rewrite (IH true H), orb_false_r.
    destruct s as [|d s]; [reflexivity|].
    rewrite prefix_cons, Ascii.eqb_sym. fold (is_underscore d).
    cbn [canon_from] in H. destruct (is_underscore d); [|reflexivity].
    rewrite andb_false_r in H. discriminate H.
  - rewrite (IH false H). reflexivity.
Qed.

Lemma canon_valid_name s : canon s = true -> validate_naming_convention s = Ok s.
Proof.
  intros H. rewrite validate_naming_convention_spec.
  now rewrite (canon_from_snake _ _ H).
Qed.

(** X1.  Whatever it is given, [_normalize_name] returns a name that is not
    empty, is made of [[a-z0-9_]], neither starts nor ends with an
    underscore and has no two underscores in a row.  The node constructor
    accepts it, and normalizing it again, in the processor or in the
    workflow constructor, changes nothing. *)
Theorem normalize_name_normal_form :
  forall name,
    let n := _normalize_name name in
    n <> ""
    /\ sall snake_char n = true
    /\ startswith n "_" = false
    /\ rstrip is_underscore n = n
    /\ contains "__" n = false
    /\ validate_naming_convention n = Ok n
    /\ _normalize_name n = n
    /\ validate_workflow_naming n = n.
Proof.
  intros name n. pose proof (normalize_is_canon name) as Hc. fold n in Hc.
  split; [intros E; rewrite E in Hc; discriminate|].
  split; [exact (canon_from_snake _ _ Hc)|].
  split.
  { unfold startswith. destruct n as [|c s]; [reflexivity|].
    rewrite prefix_cons, Ascii.eqb_sym. fold (is_underscore c).
    unfold canon in Hc. cbn [canon_from] in Hc.
    destruct (is_underscore c); [|reflexivity].
    rewrite andb_false_r in Hc. discriminate Hc. }
  split; [exact (canon_rstrip_id _ _ Hc)|].
  split; [exact (canon_from_no_double _ _ Hc)|].
  split; [exact (canon_valid_name _ Hc)|].
  split; [exact (normalize_canon_id _ Hc)|exact (validate_workflow_naming_canon_id _ Hc)].
Qed.

Lemma validate_workflow_naming_shape v :
  validate_workflow_naming v = "" \/ canon (validate_workflow_naming v) = true.
Proof.
  unfold validate_workflow_naming, strip_underscores.
  rewrite lstrip_collapse.
  apply rstrip_collapse_canon.
  generalize (replace_char "-" "_" (replace_char " " "_" (py_lower v))).
  intros s. induction s as [|c s IH]; simpl; [reflexivity|].
  rewrite IH, andb_true_r, workflow_valid_snake.
  destruct (snake_char c) eqn:E; [exact E|reflexivity].
Qed.

Lemma validate_workflow_naming_idempotent v :
  validate_workflow_naming (validate_workflow_naming v) = validate_workflow_naming v.
Proof.
  destruct (validate_workflow_naming_shape v) as [E|E].
  - rewrite E. reflexivity.
  - now apply validate_workflow_naming_canon_id.
Qed.

(** X2.  The workflow constructor refuses an empty node list and nothing
    else.  The name it stores is the normalized one: empty, or in normal
    form; storing it again through the constructor leaves it as it is. *)
Theorem workflow_constructor_normalizes :
  forall name nodes connections settings wid active tags,
    (nodes = [] ->
     exists msg, N8nWorkflow_new name nodes connections settings wid active tags
                 = Raise (ValidationError msg))
    /\ (nodes <> [] ->
        exists w,
          N8nWorkflow_new name nodes connections settings wid active tags = Ok w
          /\ N8nWorkflow.nodes w = nodes
          /\ (N8nWorkflow.name w = "" \/ canon (N8nWorkflow.name w) = true)
          /\ sall snake_char (N8nWorkflow.name w) = true
          /\ N8nWorkflow_new (N8nWorkflow.name w) nodes connections settings wid
                             active tags = Ok w).
Proof.
  intros name nodes connections settings wid active tags. split.
  - intros ->. eexists. reflexivity.
  - intros Hne. unfold N8nWorkflow_new, validate_required_nodes.
    destruct nodes as [|node nodes]; [contradiction|]. simpl.
    eexists. split; [reflexivity|]. simpl.
    split; [reflexivity|]. split; [apply validate_workflow_naming_shape|].
    split; [apply validate_workflow_naming_snake|].
    now rewrite validate_workflow_naming_idempotent.
Qed.

Lemma workflow_constructor_normalizes_witness :
  exists w,
    N8nWorkflow_new "Lead Intake - v2!" [sample_node] [] [] None false [] = Ok w
    /\ N8nWorkflow.name w = "lead_intake_v2".
Proof.
  destruct (proj2 (workflow_constructor_normalizes "Lead Intake - v2!" [sample_node]
                     [] [] None false []))
    as (w & Hw & _).
  - discriminate.
  - exists w. split; [exact Hw|]. vm_compute in Hw. now injection Hw as <-.
Defined.

Lemma enforce_node_naming_fields node :
  let node' := enforce_node_naming node in
  N8nNode.id node' = N8nNode.id node
  /\ N8nNode.type node' = N8nNode.type node
  /\ N8nNode.position node' = N8nNode.position node
  /\ N8nNode.parameters node' = N8nNode.parameters node
  /\ N8nNode.credentials node' = N8nNode.credentials node
  /\ N8nNode.retries node' = N8nNode.retries node
  /\ N8nNode.retry_on_fail node' = N8nNode.retry_on_fail node.
Proof. repeat split. Qed.

(** X3.  After [enforce_naming_conventions] the workflow name and every
    node name are in normal form, so the node constructor accepts each of
    them; the pass changes names only: node ids, types, positions,
    parameters, credentials and retry fields, the connections, settings and
    flags are as before, and so is the outcome of
    [validate_node_connections]. *)
Theorem enforce_naming_postcondition :
  forall w,
    let w' := enforce_naming_conventions w in
    canon (N8nWorkflow.name w') = true
    /\ Forall (fun node => canon (N8nNode.name node) = true
                           /\ validate_naming_convention (N8nNode.name node)
                              = Ok (N8nNode.name node))
              (N8nWorkflow.nodes w')
    /\ Forall2 (fun node node' =>
                  N8nNode.set_name node' (N8nNode.name node) = node)
               (N8nWorkflow.nodes w) (N8nWorkflow.nodes w')
    /\ N8nWorkflow.set_name
         (N8nWorkflow.set_nodes w' (N8nWorkflow.nodes w)) (N8nWorkflow.name w) = w
    /\ validate_node_connections w' = validate_node_connections w.
Proof.
  intros w w'. subst w'. destruct w as [name nodes conns settings wid active tags].
  unfold enforce_naming_conventions. simpl.
  split; [apply normalize_is_canon|]. split.
  { rewrite Forall_map. apply Forall_forall. intros node _.
    pose proof (enforce_node_naming_canon node) as Hc.
    split; [exact Hc|exact (canon_valid_name _ Hc)]. }
  split.
  { induction nodes as [|node nodes IH]; simpl; constructor; [|exact IH].
    now destruct node. }
  split; [reflexivity|].
  unfold validate_node_connections, node_ids. simpl. rewrite map_map.
  replace (map (fun node => N8nNode.id (enforce_node_naming node)) nodes)
    with (map N8nNode.id nodes); [reflexivity|].
  apply map_ext. reflexivity.
Qed.

Lemma normalize_shadow_prefix p s :
  In p ["log"; "error"] -> canon s = true ->
  _normalize_name (p ++ "__" ++ s) = p ++ "_" ++ s.
Proof.
  intros Hp Hc.
  assert (Hcanon : canon (p ++ "_" ++ s) = true).
  { destruct Hp as [<-|[<-|[]]]; exact Hc. }
  assert (Hs : sall snake_char (p ++ "__" ++ s) = true).
  { rewrite !sall_app. rewrite (canon_from_snake _ _ Hc).
    destruct Hp as [<-|[<-|[]]]; reflexivity. }
  unfold _normalize_name, py_lower, strip_underscores.
  rewrite (smap_id_on _ _ _ snake_char_lower Hs).
  rewrite (sub_runs_id_on _ _ _ _ snake_char_not_separator Hs).
  rewrite (sfilter_id _ _ Hs).
  assert (E : sub_runs is_underscore false (p ++ "__" ++ s) = p ++ "_" ++ s).
  { destruct Hp as [<-|[<-|[]]]; simpl; now rewrite (canon_collapse_id _ _ Hc). }
  rewrite E, (canon_lstrip_id _ Hcanon), (canon_rstrip_id _ _ Hcanon),
    (canon_nonempty _ Hcanon).
  reflexivity.
Qed.

(** X4.  The naming pass does not keep the marks of shadow nodes: a name
    [log__s] or [error__s] comes out as [log_s] or [error_s] (before any
    integration prefix), and no name that comes out of the pass starts with
    [log__] or [error__].  So on the result of the pass, whatever the
    workflow held, the business-logic check reports that error handling
    nodes are missing, and the logging step takes every node for an
    original. *)
Theorem enforce_naming_erases_shadow_marks :
  forall w,
    (forall s, canon s = true ->
       _normalize_name ("log__" ++ s) = "log_" ++ s
       /\ _normalize_name ("error__" ++ s) = "error_" ++ s)
    /\ Forall (fun node => has_shadow_prefix ["log__"; "error__"] node = false)
              (N8nWorkflow.nodes (enforce_naming_conventions w))
    /\ In (mkResult false "logic" "Error handling nodes are missing")
          (_validate_business_logic (enforce_naming_conventions w)).
Proof.
  intros w. split.
  { intros s Hc. split.
    - apply (normalize_shadow_prefix "log"); [simpl; auto|exact Hc].
    - apply (normalize_shadow_prefix "error"); [simpl; auto|exact Hc]. }
  assert (Hno : Forall (fun node => startswith (N8nNode.name node) "log__" = false
                                    /\ startswith (N8nNode.name node) "error__" = false)
                       (N8nWorkflow.nodes (enforce_naming_conventions w))).
  { unfold enforce_naming_conventions. simpl. rewrite Forall_map.
    apply Forall_forall. intros node _.
    apply canon_no_shadow_prefix, enforce_node_naming_canon. }
  split.
  { eapply Forall_impl; [|exact Hno]. intros node [Hl He].
    unfold has_shadow_prefix. simpl. now rewrite Hl, He. }
  unfold _validate_business_logic. cbv zeta.
  replace (filter (fun node => startswith (N8nNode.name node) "error__")
                  (N8nWorkflow.nodes (enforce_naming_conventions w)))
    with (@nil N8nNode.t).
  - left. reflexivity.
  - symmetry. induction Hno as [|node nodes [_ He] _ IH]; simpl; [reflexivity|].
    now rewrite He.
Qed.

Lemma enforce_naming_erases_shadow_marks_witness :
  _normalize_name "error__validate_email" = "error_validate_email".
Proof.
  apply (proj1 (enforce_naming_erases_shadow_marks sample_workflow) "validate_email").
  reflexivity.
Defined.

(* ------------------------------------------------------------------ *)
(** ** Retry injection, again and on loaded workflows *)

Lemma inject_retry_node_compliant node :
  retry_compliant (inject_retry_node node) = true.
Proof.
  destruct (inject_retry_node_spec node) as (Hr & Hf & _).
  unfold retry_compliant. now rewrite Hr, Hf.
Qed.

Lemma inject_retry_node_skip node :
  retry_compliant node = true -> inject_retry_node node = node.
Proof. unfold retry_compliant, inject_retry_node. now intros ->. Qed.

(** X5.  [inject_retry_logic] is idempotent: after one pass every node has
    three retries and retries on failure, so a second pass skips them all. *)
Theorem inject_retry_logic_idempotent :
  forall w,
    Forall (fun node => retry_compliant node = true)
           (N8nWorkflow.nodes (inject_retry_logic w))
    /\ inject_retry_logic (inject_retry_logic w) = inject_retry_logic w.
Proof.
  intros w.
  assert (H : Forall (fun node => retry_compliant node = true)
                     (N8nWorkflow.nodes (inject_retry_logic w))).
  { unfold inject_retry_logic. simpl. rewrite Forall_map.
    apply Forall_forall. intros node _. apply inject_retry_node_compliant. }
  split; [exact H|].
  destruct w as [name nodes conns settings wid active tags].
  unfold inject_retry_logic, N8nWorkflow.set_nodes in *.
  cbn [N8nWorkflow.nodes N8nWorkflow.name N8nWorkflow.connections
       N8nWorkflow.settings N8nWorkflow.id N8nWorkflow.active N8nWorkflow.tags] in *.
  apply (f_equal (fun l => N8nWorkflow.mk name l conns settings wid active tags)).
  transitivity (map (fun node => node) (map inject_retry_node nodes));
    [|apply map_id].
  apply map_fixed. eapply Forall_impl; [|exact H].
  intros node. apply inject_retry_node_skip.
Qed.

Lemma from_n8n_json_compliant data w :
  from_n8n_json data = Ok w ->
  Forall (fun node => retry_compliant node = true) (N8nWorkflow.nodes w).
Proof.
  unfold from_n8n_json. intros H. repeat bind_inv H.
  apply N8nWorkflow_new_inv in H. destruct H as [_ ->]. simpl.
  match goal with
  | E : mapM node_from_n8n_json _ = Ok _ |- _ =>
      apply (mapM_forall _ (fun node => retry_compliant node = true)) in E; [exact E|]
  end.
  intros raw node Hb. apply node_from_n8n_json_invariant in Hb.
  destruct Hb as [[_ Hr] Hf]. unfold retry_compliant. now rewrite Hr, Hf.
Qed.

(** X6.  On a workflow read from the wire format, and so on every workflow
    loaded from the vault, [inject_retry_logic] changes nothing: the
    constructor has given every node three retries and [retry_on_fail], and
    the retry keys are not written into the parameters. *)
Theorem inject_retry_logic_noop_on_loaded :
  forall v workflow_name w,
    load_workflow_from_vault v workflow_name = Ok w ->
    inject_retry_logic w = w.
Proof.
  intros v workflow_name w H.
  assert (Hc : Forall (fun node => retry_compliant node = true) (N8nWorkflow.nodes w)).
  { unfold load_workflow_from_vault in H.
    destruct (v workflow_name) as [[|data]|]; try discriminate.
    destruct (validate_workflow_json data) as [[|e errors]|]; simpl in H;
      try discriminate.
    destruct (from_n8n_json data) eqn:E; [|discriminate].
    injection H as <-. now apply from_n8n_json_compliant in E. }
  destruct w as [name nodes conns settings wid active tags].
  unfold inject_retry_logic, N8nWorkflow.set_nodes.
  cbn [N8nWorkflow.nodes N8nWorkflow.name N8nWorkflow.connections
       N8nWorkflow.settings N8nWorkflow.id N8nWorkflow.active N8nWorkflow.tags] in *.
  apply (f_equal (fun l => N8nWorkflow.mk name l conns settings wid active tags)).
  transitivity (map (fun node => node) nodes); [|apply map_id].
  apply map_fixed. eapply Forall_impl; [|exact Hc].
  intros node. apply inject_retry_node_skip.
Qed.

Lemma inject_retry_logic_noop_on_loaded_witness :
  inject_retry_logic (loaded "a" (loaded_node "a1" "trigger" webhook_type))
  = loaded "a" (loaded_node "a1" "trigger" webhook_type).
Proof.
  apply (inject_retry_logic_noop_on_loaded lead_vault "A"). reflexivity.
Defined.

(* ------------------------------------------------------------------ *)
(** ** Idempotency keys *)

Lemma dict_set_over d k v v' : dict_set (dict_set d k v) k v' = dict_set d k v'.
Proof.
  induction d as [|[k0 v0] d IH]; simpl.
  - now rewrite String.eqb_refl.
  - destruct (k0 =? k)%string eqn:E; simpl; rewrite E; [reflexivity|now rewrite IH].
Qed.

Lemma dict_set_comm d k k' v v' :
  k <> k' -> dict_has d k = true ->
  dict_set (dict_set d k' v') k v = dict_set (dict_set d k v) k' v'.
Proof.
  intros Hne. unfold dict_has.
  induction d as [|[k0 v0] d IH]; simpl; [discriminate|].
  destruct (k0 =? k)%string eqn:E; destruct (k0 =? k')%string eqn:E'; simpl;
    rewrite ?E, ?E'; intros H; try reflexivity.
  - apply String.eqb_eq in E, E'. congruence.
  - now rewrite IH.
Qed.

Lemma dict_has_set d k v : dict_has (dict_set d k v) k = true.
Proof. unfold dict_has. now rewrite dict_get_set_same. Qed.

Lemma dict_has_set_other d k k' v :
  dict_has d k = true -> dict_has (dict_set d k' v) k = true.
Proof.
  unfold dict_has. destruct (String.eqb_spec k' k) as [->|Hne].
  - now rewrite dict_get_set_same.
  - now rewrite dict_get_set_other.
Qed.

Lemma three_keys_over d a b c va vb vc va' vb' vc' :
  a <> b -> a <> c -> b <> c ->
  dict_set (dict_set (dict_set
    (dict_set (dict_set (dict_set d a va) b vb) c vc) a va') b vb') c vc'
  = dict_set (dict_set (dict_set d a va') b vb') c vc'.
Proof.
  intros Hab Hac Hbc.
  rewrite (dict_set_comm (dict_set (dict_set d a va) b vb) a c va' vc Hac)
    by (apply dict_has_set_other, dict_has_set).
  rewrite (dict_set_comm (dict_set d a va) a b va' vb Hab) by apply dict_has_set.
  rewrite dict_set_over.
  rewrite (dict_set_comm (dict_set (dict_set d a va') b vb) b c vb' vc Hbc)
    by apply dict_has_set.
  now rewrite !dict_set_over.
Qed.

(** X7.  The last call of [add_idempotency_keys] wins: applying it with one
    key field and then with another gives what the second call alone gives,
    entry for entry and in the same order of keys.  With the same key field
    twice, the pass is idempotent. *)
Theorem add_idempotency_keys_last_call_wins :
  forall w key_field key_field',
    add_idempotency_keys (add_idempotency_keys w key_field) key_field'
    = add_idempotency_keys w key_field'.
Proof.
  intros [name nodes conns settings wid active tags] k k'.
  unfold add_idempotency_keys, N8nWorkflow.set_nodes.
  cbn [N8nWorkflow.nodes N8nWorkflow.name N8nWorkflow.connections
       N8nWorkflow.settings N8nWorkflow.id N8nWorkflow.active N8nWorkflow.tags].
  apply (f_equal (fun l => N8nWorkflow.mk name l conns settings wid active tags)).
  rewrite map_map.
  apply map_ext. intros node. unfold _supports_idempotency.
  destruct (id_in idempotent_types (N8nNode.type node)) eqn:E;
    cbn [N8nNode.type N8nNode.set_parameters]; rewrite E; [|reflexivity].
  cbn [N8nNode.parameters N8nNode.id N8nNode.name N8nNode.type N8nNode.position
       N8nNode.credentials N8nNode.retries N8nNode.retry_on_fail].
  unfold N8nNode.set_parameters.
  cbn [N8nNode.parameters N8nNode.id N8nNode.name N8nNode.type N8nNode.position
       N8nNode.credentials N8nNode.retries N8nNode.retry_on_fail].
  rewrite three_keys_over by discriminate. reflexivity.
Qed.

Lemma hex_digit_high c : is_hex_lower (hex_digit (code c / 16)) = true.
Proof. ascii_cases c; vm_compute; reflexivity. Qed.

Lemma hex_digit_low c : is_hex_lower (hex_digit (code c mod 16)) = true.
Proof. ascii_cases c; vm_compute; reflexivity. Qed.

Lemma workflow_salt_shape workflow_name :
  String.length (workflow_salt workflow_name) = 8
  /\ sall is_hex_lower (workflow_salt workflow_name) = true.
Proof.
  unfold workflow_salt, MD5.hexdigest, MD5.digest.
  destruct (MD5.chunks _ _ _) as [[[a b] c] d].
  cbn [MD5.le_bytes List.app map String.concat].
  unfold hex2. cbn [append substring String.length sall].
  rewrite !hex_digit_high, !hex_digit_low. split; reflexivity.
Qed.

(** X8.  What [add_idempotency_keys] leaves behind.  The workflow keeps its
    name, connections and the number of its nodes.  A node of another type
    than the five supported ones is unchanged.  A node of a supported type
    keeps everything but its parameters; there the three keys read
    [{{ hash('<key_field>') }}], the key field and the salt, and every other
    key reads as before.  The salt is made of eight lowercase hexadecimal
    digits. *)
Theorem add_idempotency_keys_postcondition :
  forall w key_field,
    let w' := add_idempotency_keys w key_field in
    N8nWorkflow.set_nodes w' (N8nWorkflow.nodes w) = w
    /\ Forall2
         (fun node node' =>
            if _supports_idempotency node then
              N8nNode.set_parameters node' (N8nNode.parameters node) = node
              /\ dict_get (N8nNode.parameters node') "idempotencyKey"
                 = Some (PStr ("{{ hash('" ++ key_field ++ "') }}"))
              /\ dict_get (N8nNode.parameters node') "deduplicationField"
                 = Some (PStr key_field)
              /\ dict_get (N8nNode.parameters node') "workflowSalt"
                 = Some (PStr (workflow_salt (N8nWorkflow.name w)))
              /\ (forall k, ~ In k idempotency_keys ->
                    dict_get (N8nNode.parameters node') k
                    = dict_get (N8nNode.parameters node) k)
            else node' = node)
         (N8nWorkflow.nodes w) (N8nWorkflow.nodes w')
    /\ String.length (workflow_salt (N8nWorkflow.name w)) = 8
    /\ sall is_hex_lower (workflow_salt (N8nWorkflow.name w)) = true.
Proof.
  intros [name nodes conns settings wid active tags] key_field. cbv zeta.
  split; [reflexivity|]. split; [|apply workflow_salt_shape].
  unfold add_idempotency_keys. cbn [N8nWorkflow.nodes N8nWorkflow.set_nodes
                                    N8nWorkflow.name].
  induction nodes as [|node nodes IH]; cbn [map]; constructor; [|exact IH].
  destruct (_supports_idempotency node); [|reflexivity].
  cbn [N8nNode.parameters N8nNode.set_parameters N8nNode.id N8nNode.name
       N8nNode.type N8nNode.position N8nNode.credentials N8nNode.retries
       N8nNode.retry_on_fail].
  split; [now destruct node|].
  split.
  { rewrite !dict_get_set_other by discriminate. apply dict_get_set_same. }
  split.
  { rewrite dict_get_set_other by discriminate. apply dict_get_set_same. }
  split; [apply dict_get_set_same|].
  intros k Hk. unfold idempotency_keys in Hk. simpl in Hk.
  rewrite !dict_get_set_other; [reflexivity| | |]; intros E; apply Hk; rewrite <- E;
    tauto.
Qed.

(* ------------------------------------------------------------------ *)
(** ** Shadow nodes, a second time *)

Lemma enumerate_from_app {A} (l l' : list A) start :
  enumerate_from start (l ++ l')
  = (enumerate_from start l ++ enumerate_from (start + List.length l) l')%list.
Proof.
  revert start. induction l as [|a l IH]; intros start; simpl.
  - now rewrite Nat.add_0_r.
  - rewrite IH. now rewrite Nat.add_succ_r.
Qed.

Lemma filter_none {A} (p : A -> bool) (l : list A) :
  Forall (fun a => p a = false) l -> filter p l = [].
Proof. induction 1 as [|a l Ha _ IH]; simpl; [reflexivity|]. now rewrite Ha. Qed.

(** Nodes that carry one of the prefixes do not count, wherever the list
    ends with them. *)
Lemma shadow_nodes_app_skipped prefixes make nodes extra :
  Forall (fun node => has_shadow_prefix prefixes node = true) extra ->
  shadow_nodes prefixes make (nodes ++ extra) = shadow_nodes prefixes make nodes.
Proof.
  intros H. unfold shadow_nodes, enumerate.
  rewrite enumerate_from_app, filter_app.
  rewrite (filter_none _ (enumerate_from _ extra)); [now rewrite app_nil_r|].
  apply (Forall_enumerate_from
           (fun node => negb (has_shadow_prefix prefixes node) = false)).
  eapply Forall_impl; [|exact H]. intros node Hn. now rewrite Hn.
Qed.

Lemma shadow_nodes_prefixed prefixes make nodes shadows :
  (forall i node m, make i node = Ok m -> has_shadow_prefix prefixes m = true) ->
  shadow_nodes prefixes make nodes = Ok shadows ->
  Forall (fun node => has_shadow_prefix prefixes node = true) shadows.
Proof.
  intros Hmake H. unfold shadow_nodes in H.
  apply (mapM_forall _ (fun node => has_shadow_prefix prefixes node = true)) in H;
    [exact H|].
  intros [i node] m Hm. now apply (Hmake i node).
Qed.

Lemma shadow_nodes_count prefixes make nodes shadows :
  shadow_nodes prefixes make nodes = Ok shadows ->
  List.length shadows
  = List.length (filter (fun node => negb (has_shadow_prefix prefixes node)) nodes).
Proof.
  intros H. unfold shadow_nodes in H. apply mapM_length in H. rewrite H. clear H.
  unfold enumerate. generalize 0.
  induction nodes as [|node nodes IH]; intros start; simpl; [reflexivity|].
  destruct (negb (has_shadow_prefix prefixes node)); simpl;
    rewrite (IH (S start)); reflexivity.
Qed.

Lemma log_node_prefixed workflow_name i node m :
  log_node workflow_name i node = Ok m ->
  has_shadow_prefix ["log__"; "error__"] m = true.
Proof.
  intros H. apply N8nNode_new_inv in H. destruct H as (_ & _ & ->).
  unfold has_shadow_prefix, startswith. cbn [existsb N8nNode.name].
  now rewrite prefix_append.
Qed.

Lemma error_node_prefixed workflow_name i node m :
  error_node workflow_name i node = Ok m -> has_shadow_prefix ["error__"] m = true.
Proof.
  intros H. apply N8nNode_new_inv in H. destruct H as (_ & _ & ->).
  unfold has_shadow_prefix, startswith. cbn [existsb N8nNode.name].
  now rewrite prefix_append.
Qed.

Lemma repeated_not_NoDup {A} (l l' : list A) :
  l' <> [] -> ~ NoDup (l ++ l' ++ l').
Proof.
  intros Hne Hnd. apply NoDup_app_remove_l in Hnd.
  destruct l' as [|a l']; [contradiction|].
  simpl in Hnd. apply NoDup_cons_iff in Hnd. destruct Hnd as [Hnin _].
  apply Hnin, in_elt.
Qed.

(** X9.  [add_logging_instrumentation] is not idempotent.  It appends one
    logging node for each node whose name starts with neither [log__] nor
    [error__] and keeps the rest of the workflow; a second pass skips the
    logging nodes but builds the same logging nodes, with the same ids, for
    the originals once more.  So as soon as the first pass has added a node,
    the node ids of the second result are not distinct. *)
Theorem add_logging_instrumentation_twice :
  forall w w1,
    add_logging_instrumentation w = Ok w1 ->
    exists logs,
      w1 = N8nWorkflow.set_nodes w (N8nWorkflow.nodes w ++ logs)%list
      /\ List.length logs
         = List.length (filter (fun node =>
                                  negb (has_shadow_prefix ["log__"; "error__"] node))
                               (N8nWorkflow.nodes w))
      /\ Forall (fun m => startswith (N8nNode.name m) "log__" = true
                          /\ N8nNode.type m = "n8n-nodes-base.set") logs
      /\ add_logging_instrumentation w1
         = Ok (N8nWorkflow.set_nodes w (N8nWorkflow.nodes w ++ logs ++ logs)%list)
      /\ (logs <> [] ->
          ~ NoDup (map N8nNode.id (N8nWorkflow.nodes w ++ logs ++ logs)%list)).
Proof.
  intros w w1 H. unfold add_logging_instrumentation in H.
  destruct (shadow_nodes _ _ (N8nWorkflow.nodes w)) as [logs|] eqn:E;
    [|discriminate H].
  cbv beta iota delta [bind] in H. injection H as <-.
  exists logs. split; [reflexivity|].
  split; [exact (shadow_nodes_count _ _ _ _ E)|].
  split.
  { unfold shadow_nodes in E.
    apply (mapM_forall _ (fun m => startswith (N8nNode.name m) "log__" = true
                                   /\ N8nNode.type m = "n8n-nodes-base.set")) in E;
      [exact E|].
    intros [i node] m Hm. apply N8nNode_new_inv in Hm. destruct Hm as (_ & _ & ->).
    split; [apply prefix_append|reflexivity]. }
  split.
  { unfold add_logging_instrumentation.
    cbn [N8nWorkflow.set_nodes N8nWorkflow.nodes N8nWorkflow.name].
    rewrite shadow_nodes_app_skipped.
    - rewrite E. cbv beta iota delta [bind]. now rewrite <- app_assoc.
    - apply (shadow_nodes_prefixed _ _ _ _ (log_node_prefixed (N8nWorkflow.name w)) E). }
  intros Hne. rewrite !map_app. apply repeated_not_NoDup.
  destruct logs; [contradiction|discriminate].
Qed.

Lemma add_logging_instrumentation_twice_witness :
  exists logs,
    List.length logs = 1
    /\ ~ NoDup (map N8nNode.id (N8nWorkflow.nodes sample_workflow ++ logs ++ logs)%list).
Proof.
  destruct (add_logging_instrumentation sample_workflow) as [w1|] eqn:E;
    [|discriminate E].
  destruct (add_logging_instrumentation_twice sample_workflow w1 E)
    as (logs & _ & Hlen & _ & _ & Hdup).
  exists logs. split; [exact Hlen|]. apply Hdup.
  destruct logs; [discriminate Hlen|discriminate].
Defined.

(** X10.  [add_error_handling] is not idempotent either.  It appends one
    error node for each node whose name does not start with [error__],
    logging nodes included; a second pass skips the error nodes and appends
    the same error nodes, with the same ids, once more. *)
Theorem add_error_handling_twice :
  forall w w1,
    add_error_handling w = Ok w1 ->
    exists errors,
      w1 = N8nWorkflow.set_nodes w (N8nWorkflow.nodes w ++ errors)%list
      /\ List.length errors
         = List.length (filter (fun node =>
                                  negb (startswith (N8nNode.name node) "error__"))
                               (N8nWorkflow.nodes w))
      /\ Forall (fun m => startswith (N8nNode.name m) "error__" = true
                          /\ N8nNode.type m = "n8n-nodes-base.webhook") errors
      /\ add_error_handling w1
         = Ok (N8nWorkflow.set_nodes w (N8nWorkflow.nodes w ++ errors ++ errors)%list)
      /\ (errors <> [] ->
          ~ NoDup (map N8nNode.id (N8nWorkflow.nodes w ++ errors ++ errors)%list)).
Proof.
  intros w w1 H. unfold add_error_handling in H.
  destruct (shadow_nodes _ _ (N8nWorkflow.nodes w)) as [errors|] eqn:E;
    [|discriminate H].
  cbv beta iota delta [bind _update_error_connections] in H. injection H as <-.
  exists errors. split; [reflexivity|].
  split.
  { rewrite (shadow_nodes_count _ _ _ _ E). f_equal. apply filter_ext.
    intros node. unfold has_shadow_prefix. cbn [existsb]. now rewrite orb_false_r. }
  split.
  { unfold shadow_nodes in E.
    apply (mapM_forall _ (fun m => startswith (N8nNode.name m) "error__" = true
                                   /\ N8nNode.type m = "n8n-nodes-base.webhook")) in E;
      [exact E|].
    intros [i node] m Hm. apply N8nNode_new_inv in Hm. destruct Hm as (_ & _ & ->).
    split; [apply prefix_append|reflexivity]. }
  split.
  { unfold add_error_handling.
    cbn [N8nWorkflow.set_nodes N8nWorkflow.nodes N8nWorkflow.name].
    rewrite shadow_nodes_app_skipped.
    - rewrite E. cbv beta iota delta [bind _update_error_connections].
      now rewrite <- app_assoc.
    - apply (shadow_nodes_prefixed _ _ _ _ (error_node_prefixed (N8nWorkflow.name w)) E). }
  intros Hne. rewrite !map_app. apply repeated_not_NoDup.
  destruct errors; [contradiction|discriminate].
Qed.

Lemma add_error_handling_twice_witness :
  exists errors,
    List.length errors = 1
    /\ ~ NoDup (map N8nNode.id (N8nWorkflow.nodes sample_workflow
                                 ++ errors ++ errors)%list).
Proof.
  destruct (add_error_handling sample_workflow) as [w1|] eqn:E; [|discriminate E].
  destruct (add_error_handling_twice sample_workflow w1 E)
    as (errors & _ & Hlen & _ & _ & Hdup).
  exists errors. split; [exact Hlen|]. apply Hdup.
  destruct errors; [discriminate Hlen|discriminate].
Defined.

(* ------------------------------------------------------------------ *)
(** ** The validation report *)

Lemma level_update_passed by_level r :
  levels_passed (level_update by_level r)
  = levels_passed by_level + (if passed r then 1 else 0).
Proof.
  unfold levels_passed.
  induction by_level as [|[k l] rest IH]; simpl.
  - destruct (passed r); reflexivity.
  - destruct (k =? level r)%string; simpl.
    + destruct (passed r); lia.
    + rewrite IH. lia.
Qed.

Lemma level_update_failed by_level r :
  levels_failed (level_update by_level r)
  = levels_failed by_level + (if passed r then 0 else 1).
Proof.
  unfold levels_failed.
  induction by_level as [|[k l] rest IH]; simpl.
  - destruct (passed r); reflexivity.
  - destruct (k =? level r)%string; simpl.
    + destruct (passed r); lia.
    + rewrite IH. lia.
Qed.

Lemma level_update_keys by_level r k :
  In k (map fst (level_update by_level r)) ->
  In k (map fst by_level) \/ k = level r.
Proof.
  induction by_level as [|[k0 l] rest IH]; simpl.
  - intros [<-|[]]. now right.
  - destruct (k0 =? level r)%string; simpl.
    + tauto.
    + intros [<-|H]; [tauto|]. destruct (IH H); tauto.
Qed.

Lemma level_update_NoDup by_level r :
  NoDup (map fst by_level) -> NoDup (map fst (level_update by_level r)).
Proof.
  induction by_level as [|[k0 l] rest IH]; simpl; intros H.
  - constructor; [intros []|constructor].
  - inversion H as [|? ? Hnin Hnd]; subst.
    destruct (String.eqb_spec k0 (level r)) as [E|E]; simpl.
    + constructor; assumption.
    + constructor; [|now apply IH].
      intros Hin. apply level_update_keys in Hin. destruct Hin; [contradiction|].
      congruence.
Qed.

Lemma level_update_consistent by_level r :
  Forall level_consistent by_level -> Forall level_consistent (level_update by_level r).
Proof.
  unfold level_consistent.
  induction by_level as [|[k0 l] rest IH]; simpl; intros H.
  - constructor; [|constructor]. simpl. destruct (passed r); reflexivity.
  - inversion H as [|? ? Hl Hrest]; subst. simpl in Hl.
    destruct (k0 =? level r)%string.
    + constructor; [|exact Hrest]. simpl. rewrite length_app, Hl. simpl.
      destruct (passed r); lia.
    + constructor; [exact Hl|now apply IH].
Qed.

Lemma fold_level_update results :
  forall by_level,
    NoDup (map fst by_level) -> Forall level_consistent by_level ->
    let final := fold_left level_update results by_level in
    levels_passed final = levels_passed by_level + List.length (filter passed results)
    /\ levels_failed final
       = levels_failed by_level
         + (List.length results - List.length (filter passed results))
    /\ NoDup (map fst final)
    /\ Forall level_consistent final.
Proof.
  induction results as [|r results IH]; intros by_level Hnd Hc; cbn [fold_left].
  - cbv zeta. simpl. repeat split; auto; lia.
  - destruct (IH (level_update by_level r) (level_update_NoDup _ r Hnd)
                 (level_update_consistent _ r Hc)) as (Hp & Hf & Hn & Hk).
    cbv zeta in *. rewrite Hp, Hf, level_update_passed, level_update_failed.
    pose proof (filter_length_le passed results) as Hle.
    cbn [filter]. destruct (passed r); cbn [List.length];
      (split; [lia|]); (split; [lia|]); split; assumption.
Qed.

Lemma level_update_keeps by_level r k :
  In k (map fst by_level) \/ k = level r -> In k (map fst (level_update by_level r)).
Proof.
  induction by_level as [|[k0 l] rest IH]; simpl.
  - intros [[]| ->]. now left.
  - destruct (String.eqb_spec k0 (level r)) as [E|E]; simpl.
    + intros [[H|H]|H]; [tauto|tauto|]. left. congruence.
    + intros [[H|H]|H]; [tauto| |]; right; apply IH; tauto.
Qed.

Lemma fold_level_update_keys results k :
  forall acc,
    In k (map fst (fold_left level_update results acc))
    <-> In k (map fst acc) \/ In k (map level results).
Proof.
  induction results as [|r rs IH]; intros acc; cbn [fold_left map].
  - simpl. tauto.
  - rewrite IH. split.
    + intros [H|H]; [|simpl; tauto].
      apply level_update_keys in H. destruct H as [H| ->]; simpl; tauto.
    + intros [H|[<-|H]]; [| |tauto]; left; apply level_update_keeps; tauto.
Qed.

Lemma forallb_filter_length {A} (p : A -> bool) l :
  forallb p l = (List.length l - List.length (filter p l) =? 0)%nat.
Proof.
  induction l as [|a l IH]; [reflexivity|].
  pose proof (filter_length_le p l) as Hle.
  cbn [forallb filter]. destruct (p a); cbn [List.length andb].
  - rewrite IH. reflexivity.
  - symmetry. apply Nat.eqb_neq. lia.
Qed.

(** X11.  The counts of [generate_validation_report] agree with each other
    and with the results: passed and failed add up to the total, the status
    is PASS exactly when every result passed and FAIL otherwise, every level
    has one entry, the entries' passed and failed counts add up to the
    summary's, and each entry holds as many messages as it counted. *)
Theorem generate_validation_report_counts :
  forall results,
    let report := generate_validation_report results in
    total_checks (summary report) = List.length results
    /\ passed_checks (summary report) + failed_checks (summary report)
       = total_checks (summary report)
    /\ overall_status (summary report)
       = (if forallb passed results then "PASS" else "FAIL")
    /\ levels_passed (by_level report) = passed_checks (summary report)
    /\ levels_failed (by_level report) = failed_checks (summary report)
    /\ NoDup (map fst (by_level report))
    /\ Forall level_consistent (by_level report)
    /\ (forall k, In k (map fst (by_level report)) <-> In k (map level results)).
Proof.
  intros results. cbv zeta. unfold generate_validation_report.
  cbn [summary by_level total_checks passed_checks failed_checks overall_status].
  pose proof (filter_length_le passed results) as Hle.
  split; [reflexivity|]. split; [lia|].
  split; [now rewrite forallb_filter_length|].
  destruct (fold_level_update results [] (NoDup_nil _) (Forall_nil _))
    as (Hp & Hf & Hn & Hc).
  cbv zeta in *. split; [exact Hp|]. split; [exact Hf|].
  split; [exact Hn|]. split; [exact Hc|].
  intros k. rewrite fold_level_update_keys. simpl. tauto.
Qed.

(* ------------------------------------------------------------------ *)
(** ** When a workflow passes validation *)

Lemma existsb_filter_length {A} (p : A -> bool) l :
  existsb p l = negb (List.length (filter p l) =? 0)%nat.
Proof.
  induction l as [|a l IH]; simpl; [reflexivity|]. destruct (p a); simpl; auto.
Qed.

Lemma performance_within_node_limit w :
  (List.length (N8nWorkflow.nodes w) <=? max_nodes)%nat = true ->
  Forall (fun r => passed r = true) (_validate_performance w).
Proof.
  intros H. apply Nat.leb_le in H. unfold _validate_performance. cbv zeta.
  unfold _estimate_execution_time, max_execution_time_estimate, max_nodes in *.
  destruct (Nat.ltb_spec 300 (List.length (N8nWorkflow.nodes w) * 2)); [lia|].
  repeat constructor.
Qed.

Lemma integrations_always_pass w :
  exists msg, _validate_integrations w = [mkResult true "integration" msg].
Proof. unfold _validate_integrations. destruct (_identify_integrations w); eauto. Qed.

Lemma schema_levels w connection_errors :
  level (schema_name_check w) = "schema"
  /\ level (schema_node_check w) = "schema"
  /\ level (schema_connection_check connection_errors) = "schema".
Proof.
  unfold schema_name_check, schema_node_check. cbv zeta.
  destruct (negb _);
    destruct (List.length (N8nWorkflow.nodes w) =? 0)%nat;
    destruct (max_nodes <? List.length (N8nWorkflow.nodes w))%nat;
    destruct connection_errors; repeat split.
Qed.

Lemma logic_levels w : map level (_validate_business_logic w) = ["logic"; "logic"].
Proof.
  unfold _validate_business_logic. cbv zeta.
  repeat match goal with
         | |- context [if ?c then _ else _] => destruct c
         end; reflexivity.
Qed.

Lemma security_levels w : map level (_validate_security w) = ["security"; "security"].
Proof.
  unfold _validate_security. cbv zeta.
  destruct (_find_hardcoded_secrets w); destruct (filter _ required_env_vars);
    reflexivity.
Qed.

Lemma performance_levels w : map level (_validate_performance w) = ["performance"].
Proof.
  unfold _validate_performance. cbv zeta.
  destruct (max_execution_time_estimate <? _estimate_execution_time w)%nat; reflexivity.
Qed.

Lemma logic_passes w :
  forallb passed (_validate_business_logic w)
  = existsb (fun node => startswith (N8nNode.name node) "error__") (N8nWorkflow.nodes w)
    && existsb (fun node => (0 <? N8nNode.retries node)%Z) (N8nWorkflow.nodes w).
Proof.
  unfold _validate_business_logic. cbv zeta. rewrite !existsb_filter_length.
  unfold required_error_handling, required_retry_logic. cbn [andb forallb].
  destruct (List.length (filter (fun node => startswith (N8nNode.name node) "error__")
                                (N8nWorkflow.nodes w)) =? 0)%nat;
    destruct (List.length (filter (fun node => (0 <? N8nNode.retries node)%Z)
                                  (N8nWorkflow.nodes w)) =? 0)%nat;
    reflexivity.
Qed.

Lemma security_passes w :
  forallb passed (_validate_security w)
  = (List.length (_find_hardcoded_secrets w) =? 0)%nat
    && id_in (_extract_env_variables w) "NOTION_TOKEN".
Proof.
  unfold _validate_security. cbv zeta. unfold required_env_vars.
  cbn [filter forallb].
  destruct (_find_hardcoded_secrets w);
    destruct (id_in (_extract_env_variables w) "NOTION_TOKEN"); reflexivity.
Qed.

(** X12.  [validate_workflow] returns nine results, three of level schema,
    two of logic, two of security, one of performance and one of
    integration.  The report made of them says PASS exactly when the
    workflow has a name, between one and fifty nodes, no connection error,
    a node whose name starts with [error__], a node with a positive retry
    count, no finding of the secret scan and a reference to [NOTION_TOKEN].
    The checks of performance and of integration decide nothing: the first
    passes whenever the node count does, the second always passes. *)
Theorem validate_workflow_pass_iff :
  forall w connection_errors,
    validate_node_connections w = Ok connection_errors ->
    exists results,
      validate_workflow w = Ok results
      /\ map level results = result_levels
      /\ overall_status (summary (generate_validation_report results))
         = (if passes_all w connection_errors then "PASS" else "FAIL").
Proof.
  intros w errs He. unfold validate_workflow, _validate_json_schema. rewrite He.
  cbv beta iota delta [bind]. eexists. split; [reflexivity|].
  destruct (integrations_always_pass w) as [msg Hi]. rewrite Hi.
  split.
  { rewrite !map_app. cbn [map].
    rewrite logic_levels, security_levels, performance_levels.
    destruct (schema_levels w errs) as (-> & -> & ->). reflexivity. }
  unfold generate_validation_report. cbn [summary overall_status].
  rewrite <- forallb_filter_length.
  rewrite !forallb_app. cbn [forallb List.app].
  unfold passes_all.
  assert (E1 : passed (schema_name_check w) = negb (N8nWorkflow.name w =? "")%string).
  { unfold schema_name_check. cbn [truthy]. now destruct (N8nWorkflow.name w =? ""). }
  assert (E2 : passed (schema_node_check w)
               = ((1 <=? List.length (N8nWorkflow.nodes w))%nat
                  && (List.length (N8nWorkflow.nodes w) <=? max_nodes)%nat)).
  { unfold schema_node_check. cbv zeta.
    generalize (List.length (N8nWorkflow.nodes w)). intros n.
    destruct n as [|n]; [reflexivity|].
    change (S n =? 0)%nat with false. change (1 <=? S n)%nat with true.
    cbn [andb]. rewrite Nat.ltb_antisym.
    destruct (S n <=? max_nodes)%nat; reflexivity. }
  assert (E3 : passed (schema_connection_check errs) = (List.length errs =? 0)%nat).
  { now destruct errs. }
  assert (E6 : (List.length (N8nWorkflow.nodes w) <=? max_nodes)%nat = true ->
               forallb passed (_validate_performance w) = true).
  { intros H. apply forallb_forall. apply Forall_forall.
    now apply performance_within_node_limit. }
  rewrite E1, E2, E3, logic_passes, security_passes.
  clear E1 E2 E3.
  destruct (negb (N8nWorkflow.name w =? "")%string); cbn [andb]; [|reflexivity].
  destruct (1 <=? List.length (N8nWorkflow.nodes w))%nat; cbn [andb]; [|reflexivity].
  destruct (List.length (N8nWorkflow.nodes w) <=? max_nodes)%nat; cbn [andb];
    [|reflexivity].
  rewrite (E6 eq_refl).
  destruct (List.length errs =? 0)%nat; cbn [andb]; [|reflexivity].
  rewrite !andb_true_r, !andb_assoc. reflexivity.
Qed.

Lemma validate_workflow_pass_iff_witness :
  exists results,
    validate_workflow sample_workflow = Ok results
    /\ overall_status (summary (generate_validation_report results)) = "FAIL".
Proof.
  destruct (validate_workflow_pass_iff sample_workflow [] eq_refl)
    as (results & Hv & _ & Hs).
  exists results. split; [exact Hv|exact Hs].
Defined.

(* ------------------------------------------------------------------ *)
(** ** References to environment variables *)

Lemma span_fst_all p s : sall p (fst (span p s)) = true.
Proof.
  induction s as [|c s IH]; simpl; [reflexivity|].
  destruct (p c) eqn:E; [|reflexivity].
  destruct (span p s) as [a b]. simpl in *. now rewrite E, IH.
Qed.

Lemma match_env_at_shape s var :
  match_env_at s = Some var -> var <> "" /\ sall env_name_char var = true.
Proof.
  unfold match_env_at.
  destruct (strip_prefix "${{" s) as [s1|]; [|discriminate].
  destruct (strip_prefix "$env." (lstrip py_isspace s1)) as [s2|]; [|discriminate].
  pose proof (span_fst_all env_name_char s2) as Hall.
  destruct (span env_name_char s2) as [v rest]. simpl in Hall.
  destruct (String.eqb_spec v "") as [|Hne]; [discriminate|].
  destruct (String.prefix "}}" (lstrip py_isspace rest)); [|discriminate].
  intros [= <-]. split; assumption.
Qed.

Lemma findall_env_shape s :
  Forall (fun var => var <> "" /\ sall env_name_char var = true) (findall_env s).
Proof.
  induction s as [|c s IH]; [constructor|].
  cbn [findall_env]. destruct (match_env_at (String c s)) as [var|] eqn:E;
    [constructor; [exact (match_env_at_shape _ _ E)|exact IH]|exact IH].
Qed.

Lemma findall_env_finds x t y var :
  match_env_at (t ++ y) = Some var -> In var (findall_env (x ++ t ++ y)).
Proof.
  intros H. induction x as [|c x IH].
  - cbn [append]. destruct (t ++ y) as [|c s] eqn:E; [discriminate H|].
    cbn [findall_env]. rewrite H. now left.
  - cbn [append findall_env].
    destruct (match_env_at (String c (x ++ t ++ y))); [right|]; exact IH.
Qed.

Lemma notion_token_reference_matches y :
  match_env_at (notion_token_reference ++ y) = Some "NOTION_TOKEN".
Proof. destruct y; reflexivity. Qed.

(** X13.  The names that [_extract_env_variables] returns are not empty and
    are made of capitals and underscores.  A workflow in which some
    parameter of some node is a string that contains
    [${{ $env.NOTION_TOKEN }}] refers to [NOTION_TOKEN], and its security
    validation holds the passed check on environment variables. *)
Theorem env_reference_satisfies_security_check :
  forall w,
    Forall (fun var => var <> "" /\ sall env_name_char var = true)
           (_extract_env_variables w)
    /\ (forall node k a b,
          In node (N8nWorkflow.nodes w) ->
          In (k, PStr (a ++ notion_token_reference ++ b)) (N8nNode.parameters node) ->
          In "NOTION_TOKEN" (_extract_env_variables w)
          /\ In (mkResult true "security"
                          "All required environment variables are referenced")
                (_validate_security w)).
Proof.
  intros w. split.
  { unfold _extract_env_variables. apply Forall_flat_map, Forall_forall.
    intros node _. apply findall_env_shape. }
  intros node k a b Hnode Hparam.
  assert (Hin : In "NOTION_TOKEN" (_extract_env_variables w)).
  { unfold _extract_env_variables. apply in_flat_map. exists node.
    split; [exact Hnode|].
    assert (Hc : contains notion_token_reference
                          (json_dumps (PDict (N8nNode.parameters node))) = true).
    { apply (dumps_contains_value _ _ k (a ++ notion_token_reference ++ b));
        [reflexivity|exact Hparam|apply contains_middle]. }
    destruct (contains_split _ _ Hc) as (x & y & ->).
    apply findall_env_finds, notion_token_reference_matches. }
  split; [exact Hin|].
  unfold _validate_security. cbv zeta. unfold required_env_vars. cbn [filter].
  replace (id_in (_extract_env_variables w) "NOTION_TOKEN") with true.
  - right. left. reflexivity.
  - symmetry. unfold id_in. apply existsb_exists. exists "NOTION_TOKEN".
    split; [exact Hin|reflexivity].
Qed.

Lemma env_reference_satisfies_security_check_witness :
  In "NOTION_TOKEN"
     (_extract_env_variables
        (N8nWorkflow.mk "notify"
           [N8nNode.mk "n1" "call" "n8n-nodes-base.httpRequest" (mkPosition 0 0)
                       [("auth", PStr "Bearer ${{ $env.NOTION_TOKEN }}")] None 3 true]
           [] [] None false [])).
Proof.
  apply (proj2 (env_reference_satisfies_security_check _)
               (N8nNode.mk "n1" "call" "n8n-nodes-base.httpRequest" (mkPosition 0 0)
                           [("auth", PStr "Bearer ${{ $env.NOTION_TOKEN }}")]
                           None 3 true)
               "auth" "Bearer " "").
  - simpl. tauto.
  - simpl. tauto.
Defined.

(* ------------------------------------------------------------------ *)
(** ** Combining any number of workflows *)

Lemma merge_workflows_ok rest :
  forall combined start,
    Forall combinable rest ->
    merge_workflows combined (400 + 800 * Z.of_nat start) 0 rest
    = Ok (N8nWorkflow.mk (N8nWorkflow.name combined)
            (N8nWorkflow.nodes combined ++ later_nodes start rest)%list
            (later_connections (N8nWorkflow.connections combined) rest)
            (N8nWorkflow.settings combined) (N8nWorkflow.id combined)
            (N8nWorkflow.active combined) (N8nWorkflow.tags combined)).
Proof.
  induction rest as [|w rest IH]; intros combined start H.
  - unfold later_nodes, later_connections. cbn [merge_workflows enumerate_from map
                                                 List.concat fold_left].
    rewrite app_nil_r. now destruct combined.
  - inversion H as [|? ? (Hname & Hnodes & Hconns) Hrest]; subst.
    cbn [merge_workflows]. unfold merge_workflow.
    rewrite (mapM_ok _ (prefixed_copy (N8nWorkflow.name w)
                                      (400 + 800 * Z.of_nat start) 0))
      by (eapply Forall_impl; [|exact Hnodes]; intros node Hn;
          now apply prefixed_node_ok).
    cbv beta iota delta [bind].
    rewrite rewrite_connections_ok by exact Hconns.
    replace (400 + 800 * Z.of_nat start + 800)%Z
      with (400 + 800 * Z.of_nat (S start))%Z by lia.
    rewrite (IH _ (S start) Hrest).
    unfold later_nodes, later_connections.
    cbn [enumerate_from map List.concat fold_left fst snd
         N8nWorkflow.name N8nWorkflow.nodes N8nWorkflow.connections
         N8nWorkflow.settings N8nWorkflow.id N8nWorkflow.active N8nWorkflow.tags].
    now rewrite <- app_assoc.
Qed.

Lemma later_nodes_length start rest :
  List.length (later_nodes start rest)
  = list_sum (map (fun w => List.length (N8nWorkflow.nodes w)) rest).
Proof.
  unfold later_nodes. revert start.
  induction rest as [|w rest IH]; intros start; [reflexivity|].
  cbn [enumerate_from map List.concat list_sum fst snd].
  now rewrite length_app, length_map, IH.
Qed.

Lemma combine_workflows_many_shape first_workflow second rest combined_name :
  N8nWorkflow.nodes first_workflow <> [] ->
  Forall combinable (second :: rest) ->
  combine_workflows (first_workflow :: second :: rest) combined_name
  = Ok (combined_many first_workflow (second :: rest) combined_name).
Proof.
  intros Hne H.
  unfold combine_workflows, N8nWorkflow_new, validate_required_nodes.
  destruct (N8nWorkflow.nodes first_workflow) as [|node nodes] eqn:E;
    [contradiction|].
  cbv beta iota delta [bind].
  change 400%Z with (400 + 800 * Z.of_nat 0)%Z at 1.
  rewrite (merge_workflows_ok _ _ 0 H). unfold combined_many.
  cbn [N8nWorkflow.name N8nWorkflow.nodes N8nWorkflow.connections
       N8nWorkflow.settings N8nWorkflow.id N8nWorkflow.active N8nWorkflow.tags].
  now rewrite E.
Qed.

Lemma map_later_nodes {A} (f : N8nNode.t -> A) (g : string -> N8nNode.t -> A)
    start rest :
  (forall wn xo yo node, f (prefixed_copy wn xo yo node) = g wn node) ->
  map f (later_nodes start rest)
  = flat_map (fun w => map (g (N8nWorkflow.name w)) (N8nWorkflow.nodes w)) rest.
Proof.
  intros Hf. unfold later_nodes. revert start.
  induction rest as [|w rest IH]; intros start; [reflexivity|].
  cbn [enumerate_from map List.concat flat_map fst snd].
  rewrite map_app, map_map, IH. f_equal. apply map_ext. intros node. apply Hf.
Qed.

Lemma later_nodes_positions start rest :
  map N8nNode.position (later_nodes start rest)
  = flat_map (fun k_w =>
                map (fun node =>
                       mkPosition
                         (float_add_int (x (N8nNode.position node))
                                        (400 + 800 * Z.of_nat (fst k_w)))
                         (float_add_int (y (N8nNode.position node)) 0))
                    (N8nWorkflow.nodes (snd k_w)))
             (enumerate_from start rest).
Proof.
  unfold later_nodes. revert start.
  induction rest as [|w rest IH]; intros start; [reflexivity|].
  cbn [enumerate_from map List.concat flat_map fst snd].
  rewrite map_app, map_map, IH. reflexivity.
Qed.

Lemma binary64_small z : (Z.abs z < 2 ^ 53)%Z -> binary64 z = z.
Proof.
  intros H. unfold binary64. cbv zeta.
  destruct (Z.ltb_spec (Z.abs z) (2 ^ 53)) as [_|H']; [reflexivity|lia].
Qed.

(** X14.  [combine_workflows] on two workflows or more, the first with at
    least one node and the others with what the loop needs.  It returns a
    workflow whose name is the normalized combined name and whose nodes are
    the nodes of the first followed, workflow by workflow, by copies of the
    nodes of the others: the node count is the sum of the node counts, ids
    and names of the copies carry the name of their workflow as a prefix,
    types, parameters, credentials and retry fields are kept.  The
    connections are those of the first with the rewritten connections of
    the others added in turn; the settings are those of the first; id,
    active and tags of the first are dropped. *)
Theorem combine_workflows_many :
  forall first_workflow second rest combined_name,
    N8nWorkflow.nodes first_workflow <> [] ->
    Forall combinable (second :: rest) ->
    exists combined,
      let later (A : Type) (field : string -> N8nNode.t -> A) :=
        flat_map (fun w => map (field (N8nWorkflow.name w)) (N8nWorkflow.nodes w))
                 (second :: rest) in
      combine_workflows (first_workflow :: second :: rest) combined_name = Ok combined
      /\ N8nWorkflow.name combined = validate_workflow_naming combined_name
      /\ List.length (N8nWorkflow.nodes combined)
         = List.length (N8nWorkflow.nodes first_workflow)
           + list_sum (map (fun w => List.length (N8nWorkflow.nodes w)) (second :: rest))
      /\ map N8nNode.id (N8nWorkflow.nodes combined)
         = (map N8nNode.id (N8nWorkflow.nodes first_workflow)
            ++ later string (fun wn node => prefixed wn (N8nNode.id node)))%list
      /\ map N8nNode.name (N8nWorkflow.nodes combined)
         = (map N8nNode.name (N8nWorkflow.nodes first_workflow)
            ++ later string (fun wn node => prefixed wn (N8nNode.name node)))%list
      /\ map N8nNode.type (N8nWorkflow.nodes combined)
         = (map N8nNode.type (N8nWorkflow.nodes first_workflow)
            ++ later string (fun _ node => N8nNode.type node))%list
      /\ map N8nNode.parameters (N8nWorkflow.nodes combined)
         = (map N8nNode.parameters (N8nWorkflow.nodes first_workflow)
            ++ later pydict (fun _ node => N8nNode.parameters node))%list
      /\ map N8nNode.credentials (N8nWorkflow.nodes combined)
         = (map N8nNode.credentials (N8nWorkflow.nodes first_workflow)
            ++ later _ (fun _ node => N8nNode.credentials node))%list
      /\ map (fun node => (N8nNode.retries node, N8nNode.retry_on_fail node))
             (N8nWorkflow.nodes combined)
         = (map (fun node => (N8nNode.retries node, N8nNode.retry_on_fail node))
                (N8nWorkflow.nodes first_workflow)
            ++ later _ (fun _ node =>
                          (N8nNode.retries node, N8nNode.retry_on_fail node)))%list
      /\ N8nWorkflow.connections combined
         = later_connections (N8nWorkflow.connections first_workflow) (second :: rest)
      /\ N8nWorkflow.settings combined = N8nWorkflow.settings first_workflow
      /\ N8nWorkflow.id combined = None
      /\ N8nWorkflow.active combined = false
      /\ N8nWorkflow.tags combined = [].
Proof.
  intros first_workflow second rest combined_name Hne H.
  exists (combined_many first_workflow (second :: rest) combined_name).
  cbv zeta. split; [now apply combine_workflows_many_shape|].
  unfold combined_many.
  cbn [N8nWorkflow.name N8nWorkflow.nodes N8nWorkflow.connections
       N8nWorkflow.settings N8nWorkflow.id N8nWorkflow.active N8nWorkflow.tags].
  split; [reflexivity|].
  split; [now rewrite length_app, later_nodes_length|].
  split.
  { now rewrite map_app,
      (map_later_nodes _ (fun wn node => prefixed wn (N8nNode.id node))). }
  split.
  { now rewrite map_app,
      (map_later_nodes _ (fun wn node => prefixed wn (N8nNode.name node))). }
  split.
  { now rewrite map_app, (map_later_nodes _ (fun _ node => N8nNode.type node)). }
  split.
  { now rewrite map_app, (map_later_nodes _ (fun _ node => N8nNode.parameters node)). }
  split.
  { now rewrite map_app, (map_later_nodes _ (fun _ node => N8nNode.credentials node)). }
  split.
  { now rewrite map_app,
      (map_later_nodes _ (fun _ node =>
                            (N8nNode.retries node, N8nNode.retry_on_fail node))). }
  repeat split.
Qed.

Lemma combine_workflows_many_witness :
  exists w,
    combine_workflows [sample_workflow; second_workflow; third_workflow] "All Three"
    = Ok w
    /\ N8nWorkflow.name w = "all_three"
    /\ List.length (N8nWorkflow.nodes w) = 4
    /\ map N8nNode.id (N8nWorkflow.nodes w)
       = ["node_1"; "workflow_2_node_2"; "workflow_2_node_3"; "alerts_a1"].
Proof.
  destruct (combine_workflows_many sample_workflow second_workflow [third_workflow]
              "All Three") as (w & Hw & Hname & Hlen & Hids & _).
  - discriminate.
  - repeat constructor; simpl; eexists; reflexivity.
  - exists w. split; [exact Hw|]. split; [exact Hname|]. split; [exact Hlen|].
    exact Hids.
Defined.

(** X30.  The positions in the workflow that [combine_workflows] returns.
    The nodes of the first workflow stay where they are.  A copy of a node
    of the workflow at position [k] after the first has the coordinates
    [x + (400 + 800 * k)] and [y + 0] as binary64 addition gives them: the
    offset is an [int], turned into a float for the sum.  The sum is the
    sum of the integers while offset and sum stay below [2 ^ 53] in size,
    and a coordinate of [2 ^ 62] is left where it was by an offset of
    400. *)
Theorem combine_workflows_positions :
  forall first_workflow second rest combined_name,
    N8nWorkflow.nodes first_workflow <> [] ->
    Forall combinable (second :: rest) ->
    exists combined,
      combine_workflows (first_workflow :: second :: rest) combined_name = Ok combined
      /\ map N8nNode.position (N8nWorkflow.nodes combined)
         = (map N8nNode.position (N8nWorkflow.nodes first_workflow)
            ++ flat_map
                 (fun k_w =>
                    map (fun node =>
                           mkPosition
                             (float_add_int (x (N8nNode.position node))
                                            (400 + 800 * Z.of_nat (fst k_w)))
                             (float_add_int (y (N8nNode.position node)) 0))
                        (N8nWorkflow.nodes (snd k_w)))
                 (enumerate_from 0 (second :: rest)))%list
      /\ (forall a n,
            (Z.abs n < 2 ^ 53)%Z -> (Z.abs (a + n) < 2 ^ 53)%Z ->
            float_add_int a n = (a + n)%Z)
      /\ float_add_int (2 ^ 62) 400 = (2 ^ 62)%Z.
Proof.
  intros first_workflow second rest combined_name Hne H.
  exists (combined_many first_workflow (second :: rest) combined_name).
  split; [now apply combine_workflows_many_shape|].
  split.
  { unfold combined_many. cbn [N8nWorkflow.nodes].
    now rewrite map_app, later_nodes_positions. }
  split; [|reflexivity].
  intros a n Hn Hsum. unfold float_add_int.
  rewrite (binary64_small n Hn). now apply binary64_small.
Qed.

Lemma combine_workflows_positions_witness :
  exists w,
    combine_workflows [sample_workflow; second_workflow; third_workflow] "All Three"
    = Ok w
    /\ map N8nNode.position (N8nWorkflow.nodes w)
       = [ mkPosition 100 100; mkPosition 500 100; mkPosition 700 100;
           mkPosition 1300 100 ].
Proof.
  destruct (combine_workflows_positions sample_workflow second_workflow
              [third_workflow] "All Three") as (w & Hw & Hpos & _).
  - discriminate.
  - repeat constructor; simpl; eexists; reflexivity.
  - exists w. split; [exact Hw|]. exact Hpos.
Defined.

(* ------------------------------------------------------------------ *)
(** ** Connections without a flaw *)

Lemma concat_nils {A B} (l : list A) : List.concat (map (fun _ => @nil B) l) = [].
Proof. induction l; simpl; auto. Qed.

Lemma check_destination_valid ids dest :
  dest_valid ids dest = true -> check_destination ids dest = Ok [].
Proof.
  destruct dest as [| | | |l|d]; simpl; auto.
  destruct (dict_get d "node") as [[| | |n| |]|]; try discriminate; auto.
  intros H. apply andb_prop in H. destruct H as [Hn Hin].
  cbn [truthy]. rewrite Hn. cbn [not_in_id_set]. rewrite Hin. reflexivity.
Qed.

Lemma check_output_valid ids destinations :
  output_valid ids destinations = true -> check_output ids destinations = Ok [].
Proof.
  destruct destinations as [| | | |l|d]; simpl; try discriminate.
  intros H. unfold check_output.
  rewrite (mapM_ok _ (fun _ => [])).
  - cbv beta iota delta [bind]. now rewrite concat_nils.
  - rewrite forallb_forall in H. apply Forall_forall. intros dest Hin.
    apply check_destination_valid. now apply H.
Qed.

Lemma check_source_valid ids entry :
  id_in ids (fst entry) && targets_valid ids (snd entry) = true ->
  check_source ids entry = Ok [].
Proof.
  destruct entry as [source targets]. cbn [fst snd]. intros H.
  apply andb_prop in H. destruct H as [Hs Ht].
  unfold check_source. rewrite Hs. cbn [negb].
  destruct targets as [| | | |l|d]; simpl in Ht; try discriminate.
  cbn [py_items]. cbv beta iota delta [bind].
  rewrite (mapM_ok _ (fun _ => [])).
  - now rewrite concat_nils.
  - rewrite forallb_forall in Ht. apply Forall_forall. intros out Hin.
    apply check_output_valid. now apply Ht.
Qed.

Lemma well_connected_sound w :
  well_connected w -> validate_node_connections w = Ok [].
Proof.
  unfold well_connected, connections_valid, validate_node_connections. intros H.
  rewrite (mapM_ok _ (fun _ => [])).
  - cbv beta iota delta [bind]. now rewrite concat_nils.
  - rewrite forallb_forall in H. apply Forall_forall. intros e Hin.
    apply check_source_valid. now apply H.
Qed.

Lemma prefixed_nonempty workflow_name s : (prefixed workflow_name s =? "")%string = false.
Proof. unfold prefixed. destruct workflow_name; reflexivity. Qed.

Section Renaming.
Variables (ids ids' : list string) (f : string -> string).
Hypothesis Hf : forall i, id_in ids i = true -> id_in ids' (f i) = true.

Lemma dest_valid_renamed (rewrite : pyval -> pyval) dest :
  (forall d n, dict_get d "node" = Some (PStr n) -> n <> "" ->
               exists d', rewrite (PDict d) = PDict d'
                          /\ dict_get d' "node" = Some (PStr (f n))
                          /\ f n <> "") ->
  (forall d, dict_get d "node" = None -> rewrite (PDict d) = PDict d) ->
  (forall v, (forall d, v <> PDict d) -> forall d, rewrite v <> PDict d) ->
  dest_valid ids dest = true -> dest_valid ids' (rewrite dest) = true.
Proof.
  intros Hsome Hnone Hother H.
  destruct dest as [| | | |l|d];
    try (destruct (rewrite _) eqn:E; try reflexivity;
         exfalso; eapply Hother; [|exact E]; discriminate).
  cbn [dest_valid] in H.
  destruct (dict_get d "node") as [[| | |n| |]|] eqn:E; try discriminate.
  - apply andb_prop in H. destruct H as [Hn Hin].
    destruct (String.eqb_spec n "") as [|Hne]; [discriminate|].
    destruct (Hsome d n E Hne) as (d' & -> & Hd' & Hfn).
    cbn [dest_valid]. rewrite Hd'. rewrite (Hf _ Hin).
    destruct (String.eqb_spec (f n) ""); [contradiction|reflexivity].
  - rewrite (Hnone d E). cbn [dest_valid]. now rewrite E.
Qed.
End Renaming.

Lemma rewrite_destination_valid workflow_name ids ids' dest :
  (forall i, id_in ids i = true -> id_in ids' (prefixed workflow_name i) = true) ->
  dest_valid ids dest = true ->
  dest_valid ids' (rewrite_destination workflow_name dest) = true.
Proof.
  intros Hf. apply (dest_valid_renamed ids ids' (prefixed workflow_name) Hf).
  - intros d n E Hne. eexists. cbn [rewrite_destination]. rewrite E.
    split; [reflexivity|]. split; [apply dict_get_set_same|].
    intros E'. pose proof (prefixed_nonempty workflow_name n) as Hp.
    rewrite E' in Hp. discriminate Hp.
  - intros d E. cbn [rewrite_destination]. now rewrite E.
  - intros v Hv d. destruct v; cbn [rewrite_destination]; try discriminate.
    exfalso. eapply Hv. reflexivity.
Qed.

Lemma dest_valid_mono ids ids' dest :
  (forall i, id_in ids i = true -> id_in ids' i = true) ->
  dest_valid ids dest = true -> dest_valid ids' dest = true.
Proof.
  intros Hsub. destruct dest as [| | | |l|d]; simpl; auto.
  destruct (dict_get d "node") as [[| | |n| |]|]; auto.
  intros H. apply andb_prop in H. destruct H as [-> Hin]. now rewrite (Hsub _ Hin).
Qed.

Lemma connections_valid_mono ids ids' connections :
  (forall i, id_in ids i = true -> id_in ids' i = true) ->
  connections_valid ids connections = true ->
  connections_valid ids' connections = true.
Proof.
  intros Hsub. unfold connections_valid. rewrite !forallb_forall.
  intros H [source targets] Hin. specialize (H _ Hin). cbn [fst snd] in *.
  apply andb_prop in H. destruct H as [Hs Ht]. rewrite (Hsub _ Hs). cbn [andb].
  destruct targets as [| | | |l|d]; simpl in *; try discriminate.
  rewrite forallb_forall in *. intros [out dests] Hout. specialize (Ht _ Hout).
  cbn [snd] in *. destruct dests as [| | | |l|d']; simpl in *; try discriminate.
  rewrite forallb_forall in *. intros dest Hd.
  apply (dest_valid_mono ids ids' dest Hsub). now apply Ht.
Qed.

Lemma rewritten_targets_valid workflow_name ids ids' targets :
  (forall i, id_in ids i = true -> id_in ids' (prefixed workflow_name i) = true) ->
  targets_valid ids targets = true ->
  targets_valid ids' (rewritten_targets workflow_name targets) = true.
Proof.
  intros Hf. destruct targets as [| | | |l|d]; simpl; try discriminate.
  intros H. apply (build_forallb (output_valid ids')); [reflexivity|].
  intros [out dests] Hin. rewrite forallb_forall in H. specialize (H _ Hin).
  cbn [snd] in *. destruct dests as [| | | |l|d']; simpl in *; try discriminate.
  rewrite forallb_forall in *. intros dest Hd.
  apply in_map_iff in Hd. destruct Hd as (d0 & <- & Hd0).
  apply (rewrite_destination_valid workflow_name ids ids' d0 Hf). now apply H.
Qed.

Lemma dict_set_forallb_entry (P : string * pyval -> bool) d k v :
  forallb P d = true -> P (k, v) = true -> forallb P (dict_set d k v) = true.
Proof.
  intros Hd Hv. induction d as [|[k0 v0] d IH]; simpl in *.
  - now rewrite Hv.
  - apply andb_prop in Hd. destruct Hd as [H0 Hd].
    destruct (String.eqb_spec k0 k) as [->|]; simpl.
    + now rewrite Hv.
    + rewrite H0. now apply IH.
Qed.

Lemma merged_connections_valid workflow_name ids ids' connections acc :
  (forall i, id_in ids i = true -> id_in ids' (prefixed workflow_name i) = true) ->
  connections_valid ids' acc = true ->
  connections_valid ids connections = true ->
  connections_valid ids'
    (build (prefixed workflow_name) (rewritten_targets workflow_name) connections acc)
  = true.
Proof.
  intros Hf. unfold connections_valid, build. revert acc.
  induction connections as [|[source targets] rest IH]; intros acc Ha Hc;
    cbn [fold_left]; [exact Ha|].
  cbn [forallb fst snd] in Hc. apply andb_prop in Hc. destruct Hc as [He Hrest].
  apply andb_prop in He. destruct He as [Hs Ht].
  apply IH; [|exact Hrest].
  apply dict_set_forallb_entry; [exact Ha|]. cbn [fst snd].
  rewrite (Hf _ Hs). cbn [andb]. now apply (rewritten_targets_valid _ ids).
Qed.

Lemma id_in_In ids i : id_in ids i = true <-> In i ids.
Proof.
  unfold id_in. rewrite existsb_exists. split.
  - intros (j & Hin & E). apply String.eqb_eq in E. now subst j.
  - intros Hin. exists i. split; [exact Hin|apply String.eqb_refl].
Qed.

Lemma later_nodes_ids start rest w i :
  In w rest -> In i (node_ids w) ->
  In (prefixed (N8nWorkflow.name w) i) (map N8nNode.id (later_nodes start rest)).
Proof.
  unfold later_nodes. revert start.
  induction rest as [|w0 rest IH]; intros start Hw Hi; [contradiction|].
  cbn [enumerate_from map List.concat fst snd]. rewrite map_app. apply in_or_app.
  destruct Hw as [->|Hw].
  - left. rewrite node_ids_prefixed_copies. now apply in_map.
  - right. now apply IH.
Qed.

Lemma later_connections_valid ids' rest :
  forall acc,
    connections_valid ids' acc = true ->
    Forall (fun w => well_connected w
                     /\ forall i, In i (node_ids w) ->
                                  In (prefixed (N8nWorkflow.name w) i) ids') rest ->
    connections_valid ids' (later_connections acc rest) = true.
Proof.
  unfold later_connections.
  induction rest as [|w rest IH]; intros acc Ha H; cbn [fold_left]; [exact Ha|].
  inversion H as [|? ? [Hw Hsub] Hrest]; subst.
  apply IH; [|exact Hrest].
  apply (merged_connections_valid _ (node_ids w)); [|exact Ha|exact Hw].
  intros i Hi. apply id_in_In, Hsub. now apply id_in_In.
Qed.

Lemma combined_many_well_connected first_workflow rest combined_name :
  Forall well_connected (first_workflow :: rest) ->
  well_connected (combined_many first_workflow rest combined_name).
Proof.
  intros Hv. inversion Hv as [|? ? Hfirst Hrest]; subst.
  unfold well_connected, combined_many, node_ids.
  cbn [N8nWorkflow.nodes N8nWorkflow.connections]. rewrite map_app.
  apply later_connections_valid.
  - apply (connections_valid_mono (node_ids first_workflow)); [|exact Hfirst].
    intros i Hi. rewrite id_in_app. unfold node_ids in Hi. now rewrite Hi.
  - apply Forall_forall. intros w Hin. split.
    + rewrite Forall_forall in Hrest. now apply Hrest.
    + intros i Hi. apply in_or_app. right. now apply later_nodes_ids.
Qed.

(** X15.  Combination keeps connections without a flaw.  When in every
    workflow every connection source is a node id, every output holds a
    list, and every destination that names a node names the id of a node by
    a non-empty string, then the workflow that [combine_workflows] returns
    has connections of the same kind, and [validate_node_connections] finds
    no error in it. *)
Theorem combine_keeps_connections_valid :
  forall first_workflow second rest combined_name,
    N8nWorkflow.nodes first_workflow <> [] ->
    Forall combinable (second :: rest) ->
    Forall well_connected (first_workflow :: second :: rest) ->
    exists w,
      combine_workflows (first_workflow :: second :: rest) combined_name = Ok w
      /\ well_connected w
      /\ validate_node_connections w = Ok [].
Proof.
  intros first_workflow second rest combined_name Hne Hc Hv.
  exists (combined_many first_workflow (second :: rest) combined_name).
  split; [now apply combine_workflows_many_shape|].
  pose proof (combined_many_well_connected _ _ combined_name Hv) as Hw.
  split; [exact Hw|now apply well_connected_sound].
Qed.

Lemma combine_keeps_connections_valid_witness :
  exists w,
    combine_workflows [sample_workflow; second_workflow; third_workflow] "All Three"
    = Ok w
    /\ validate_node_connections w = Ok [].
Proof.
  destruct (combine_keeps_connections_valid sample_workflow second_workflow
              [third_workflow] "All Three") as (w & Hw & _ & Hv).
  - discriminate.
  - repeat constructor; simpl; eexists; reflexivity.
  - repeat constructor.
  - exists w. split; [exact Hw|exact Hv].
Defined.

(* ------------------------------------------------------------------ *)
(** ** The whole pipeline *)

Lemma prepared_facts w key_field :
  N8nWorkflow.name (prepared w key_field) = _normalize_name (N8nWorkflow.name w)
  /\ N8nWorkflow.connections (prepared w key_field) = N8nWorkflow.connections w
  /\ List.length (N8nWorkflow.nodes (prepared w key_field))
     = List.length (N8nWorkflow.nodes w)
  /\ Forall canon_named (N8nWorkflow.nodes (prepared w key_field))
  /\ three_retries (prepared w key_field).
Proof.
  unfold prepared, three_retries, add_idempotency_keys, inject_retry_logic,
    enforce_naming_conventions.
  cbn [N8nWorkflow.set_nodes N8nWorkflow.nodes N8nWorkflow.name
       N8nWorkflow.connections].
  split; [reflexivity|]. split; [reflexivity|].
  split; [now rewrite !length_map|].
  rewrite !map_map. split; apply Forall_map, Forall_forall; intros node _.
  - unfold canon_named.
    assert (E : forall n, N8nNode.name (inject_retry_node n) = N8nNode.name n)
      by (intros n; apply (inject_retry_node_spec n)).
    destruct (_supports_idempotency _); cbn [N8nNode.set_parameters N8nNode.name];
      rewrite E; apply enforce_node_naming_canon.
  - assert (E : forall n, N8nNode.retries (inject_retry_node n) = 3%Z)
      by (intros n; apply (inject_retry_node_spec n)).
    destruct (_supports_idempotency _); cbn [N8nNode.set_parameters N8nNode.retries];
      apply E.
Qed.

(** The two injection steps after the three others, on any workflow whose
    connections can be checked. *)
Lemma pipeline_ok w key_field :
  checkable w ->
  exists w',
    (logged <- add_logging_instrumentation (prepared w key_field) ;;
     add_error_handling logged) = Ok w'
    /\ List.length (N8nWorkflow.nodes w') = 4 * List.length (N8nWorkflow.nodes w)
    /\ three_retries w'
    /\ N8nWorkflow.name w' = _normalize_name (N8nWorkflow.name w)
    /\ N8nWorkflow.connections w' = N8nWorkflow.connections w
    /\ (exists errs, validate_node_connections w' = Ok errs)
    /\ (N8nWorkflow.nodes w <> [] -> exists m, In m (N8nWorkflow.nodes w')
                                               /\ is_error_shadow m).
Proof.
  intros Hc.
  destruct (prepared_facts w key_field) as (Hname & Hconn & Hlen & Hcanon & Hr).
  set (p := prepared w key_field) in *.
  destruct (shadow_pipeline p Hcanon)
    as (logs & errors & Hlog & Herr & Hlogs & Herrs & Hll & Hle).
  exists (N8nWorkflow.set_nodes p ((N8nWorkflow.nodes p ++ logs) ++ errors)%list).
  split; [rewrite Hlog; cbv beta iota delta [bind]; exact Herr|].
  cbn [N8nWorkflow.set_nodes N8nWorkflow.nodes N8nWorkflow.name
       N8nWorkflow.connections].
  split; [rewrite !length_app, Hll, Hle, Hlen; lia|].
  split.
  { unfold three_retries. cbn [N8nWorkflow.nodes].
    apply Forall_app. split; [apply Forall_app; split|].
    - exact Hr.
    - eapply Forall_impl; [|exact Hlogs]. intros m Hm. apply Hm.
    - eapply Forall_impl; [|exact Herrs]. intros m Hm. apply Hm. }
  split; [exact Hname|]. split; [exact Hconn|]. split.
  { apply validate_node_connections_total.
    change (connections_checkable (N8nWorkflow.connections p) = true).
    rewrite Hconn. exact Hc. }
  intros Hne. destruct errors as [|m errors].
  - exfalso.
    assert (Hpos : List.length (N8nWorkflow.nodes w) <> 0)
      by (destruct (N8nWorkflow.nodes w); [contradiction|discriminate]).
    cbn [List.length] in Hle. lia.
  - exists m. split; [apply in_or_app; right; now left|].
    now inversion Herrs.
Qed.

Lemma load_name_shape v workflow_name w :
  load_workflow_from_vault v workflow_name = Ok w ->
  N8nWorkflow.name w = "" \/ canon (N8nWorkflow.name w) = true.
Proof.
  unfold load_workflow_from_vault.
  destruct (v workflow_name) as [[|data]|]; try discriminate.
  destruct (validate_workflow_json data) as [[|e errors]|]; simpl; try discriminate.
  destruct (from_n8n_json data) eqn:E; [|discriminate].
  intros [= <-]. unfold from_n8n_json in E. repeat bind_inv E.
  apply N8nWorkflow_new_inv in E. destruct E as [_ ->].
  apply validate_workflow_naming_shape.
Qed.

Lemma normalize_name_or_unnamed s :
  s = "" \/ canon s = true ->
  _normalize_name s = if (s =? "")%string then "unnamed" else s.
Proof.
  intros [->|H]; [reflexivity|].
  rewrite (canon_nonempty _ H). now apply normalize_canon_id.
Qed.

(** X16.  [process_workflow] passes the error of the loading step on as it
    is.  On a template that loads it succeeds whatever the key field: the
    result has four nodes for each node of the template (the node, its
    logging node and an error node for either), three retries everywhere,
    the connections of the template as they were, and the name of the
    template, or [unnamed] when the constructor had left that empty. *)
Theorem process_workflow_total :
  forall v workflow_name key_field,
    (forall e, load_workflow_from_vault v workflow_name = Raise e ->
               process_workflow v workflow_name key_field = Raise e)
    /\ (forall w, load_workflow_from_vault v workflow_name = Ok w ->
          exists w',
            process_workflow v workflow_name key_field = Ok w'
            /\ List.length (N8nWorkflow.nodes w') = 4 * List.length (N8nWorkflow.nodes w)
            /\ three_retries w'
            /\ N8nWorkflow.name w'
               = (if (N8nWorkflow.name w =? "")%string then "unnamed"
                  else N8nWorkflow.name w)
            /\ N8nWorkflow.connections w' = N8nWorkflow.connections w).
Proof.
  intros v workflow_name key_field. split.
  - intros e H. unfold process_workflow. now rewrite H.
  - intros w H. unfold process_workflow. rewrite H. cbv beta iota delta [bind].
    destruct (load_invariant _ _ _ H) as (_ & Hname & Hnodes).
    destruct (prepared_facts w key_field) as (Hn & Hconn & Hlen & Hcanon & Hr).
    fold (prepared w key_field).
    set (p := prepared w key_field) in *.
    destruct (shadow_pipeline p Hcanon)
      as (logs & errors & Hlog & Herr & Hlogs & Herrs & Hll & Hle).
    exists (N8nWorkflow.set_nodes p ((N8nWorkflow.nodes p ++ logs) ++ errors)%list).
    split; [rewrite Hlog; exact Herr|].
    cbn [N8nWorkflow.set_nodes N8nWorkflow.nodes N8nWorkflow.name
         N8nWorkflow.connections].
    split; [rewrite !length_app, Hll, Hle, Hlen; lia|].
    split.
    { unfold three_retries. cbn [N8nWorkflow.nodes].
      apply Forall_app. split; [apply Forall_app; split|].
      - exact Hr.
      - eapply Forall_impl; [|exact Hlogs]. intros m Hm. apply Hm.
      - eapply Forall_impl; [|exact Herrs]. intros m Hm. apply Hm. }
    split; [|exact Hconn].
    rewrite Hn. apply normalize_name_or_unnamed. exact (load_name_shape _ _ _ H).
Qed.

Lemma process_workflow_total_witness :
  exists w',
    process_workflow lead_vault "A" "email" = Ok w'
    /\ List.length (N8nWorkflow.nodes w') = 4
    /\ N8nWorkflow.name w' = "a".
Proof.
  destruct (proj2 (process_workflow_total lead_vault "A" "email")
                  (loaded "a" (loaded_node "a1" "trigger" webhook_type)) eq_refl)
    as (w' & Hp & Hlen & _ & Hname & _).
  exists w'. split; [exact Hp|]. split; [exact Hlen|exact Hname].
Defined.

(* ------------------------------------------------------------------ *)
(** ** Assembly of any number of templates *)

Lemma later_connections_checkable rest :
  forall acc,
    connections_checkable acc = true ->
    Forall checkable rest ->
    connections_checkable (later_connections acc rest) = true.
Proof.
  unfold later_connections.
  induction rest as [|w rest IH]; intros acc Ha H; cbn [fold_left]; [exact Ha|].
  inversion H as [|? ? Hw Hrest]; subst.
  apply IH; [|exact Hrest]. now apply combined_connections_checkable.
Qed.

Lemma combine_loaded workflows combined_name :
  workflows <> [] ->
  Forall workflow_invariant workflows ->
  Forall checkable workflows ->
  exists combined,
    combine_workflows workflows combined_name = Ok combined
    /\ N8nWorkflow.name combined = validate_workflow_naming combined_name
    /\ List.length (N8nWorkflow.nodes combined) = node_count workflows
    /\ checkable combined.
Proof.
  intros Hne Hinv Hc. destruct workflows as [|first_workflow rest]; [contradiction|].
  inversion Hinv as [|? ? (Hnodes & _ & _) Hrest]; subst.
  inversion Hc as [|? ? Hfirst Hcrest]; subst.
  destruct rest as [|second rest].
  - unfold combine_workflows, N8nWorkflow_new, validate_required_nodes.
    destruct (N8nWorkflow.nodes first_workflow) as [|node nodes] eqn:E;
      [contradiction|].
    cbv beta iota delta [bind]. eexists. split; [reflexivity|].
    split; [reflexivity|]. split; [|exact Hfirst].
    unfold node_count. cbn [N8nWorkflow.nodes map list_sum fold_right].
    rewrite ?E. cbn [List.length]. lia.
  - exists (combined_many first_workflow (second :: rest) combined_name).
    split.
    { apply combine_workflows_many_shape; [exact Hnodes|].
      apply Forall_forall. intros w Hin. rewrite Forall_forall in Hrest, Hcrest.
      destruct (Hrest _ Hin) as (_ & Hname & Hn). split; [exact Hname|].
      split; [exact Hn|]. apply connections_checkable_dicts. now apply Hcrest. }
    split; [reflexivity|]. split.
    + unfold combined_many, node_count.
      cbn [N8nWorkflow.nodes].
      rewrite length_app, later_nodes_length. reflexivity.
    + unfold checkable, combined_many. cbn [N8nWorkflow.connections].
      now apply later_connections_checkable.
Qed.

Lemma sany_app p a b : sany p (a ++ b) = sany p a || sany p b.
Proof. induction a as [|c a IH]; simpl; [reflexivity|]. now rewrite IH, orb_assoc. Qed.

Lemma sany_smap (P : ascii -> bool) f s :
  (forall c, P c = true -> P (f c) = true) ->
  sany P s = true -> sany P (smap f s) = true.
Proof.
  intros Hf. induction s as [|c s IH]; simpl; [discriminate|].
  intros H. apply orb_prop in H. destruct H as [H|H].
  - now rewrite (Hf _ H).
  - rewrite (IH H). apply orb_true_r.
Qed.

Lemma sany_replace_char (P : ascii -> bool) old new s :
  P old = false -> sany P s = true -> sany P (replace_char old new s) = true.
Proof.
  intros Hold. induction s as [|c s IH]; simpl; [discriminate|].
  intros H. destruct (Ascii.eqb_spec c old) as [->|Hne].
  - rewrite Hold in H. simpl in H. rewrite sany_app, (IH H). apply orb_true_r.
  - simpl. apply orb_prop in H. destruct H as [->|H]; [reflexivity|].
    rewrite (IH H). apply orb_true_r.
Qed.

Lemma sany_sub_runs (P p : ascii -> bool) b s :
  (forall c, P c = true -> p c = false) -> P "_"%char = false ->
  sany P s = true -> sany P (sub_runs p b s) = true.
Proof.
  intros Hp Hus. revert b. induction s as [|c s IH]; intros b; simpl; [discriminate|].
  intros H. destruct (P c) eqn:Hc.
  - rewrite (Hp _ Hc). simpl. now rewrite Hc.
  - simpl in H. destruct (p c); [destruct b|]; simpl; rewrite ?Hc, ?Hus; simpl; auto.
Qed.

Lemma sany_lstrip (P p : ascii -> bool) s :
  (forall c, P c = true -> p c = false) ->
  sany P s = true -> sany P (lstrip p s) = true.
Proof.
  intros Hp. induction s as [|c s IH]; simpl; [discriminate|].
  intros H. destruct (p c) eqn:Hc; [|exact H].
  destruct (P c) eqn:HP; [rewrite (Hp _ HP) in Hc; discriminate|]. now apply IH.
Qed.

Lemma sany_rstrip (P p : ascii -> bool) s :
  (forall c, P c = true -> p c = false) ->
  sany P s = true -> sany P (rstrip p s) = true.
Proof.
  intros Hp. induction s as [|c s IH]; simpl; [discriminate|].
  intros H. destruct (P c) eqn:HP.
  - destruct (rstrip p s); [rewrite (Hp _ HP)|]; simpl; now rewrite HP.
  - simpl in H. specialize (IH H).
    destruct (rstrip p s); [discriminate IH|]. simpl. simpl in IH.
    rewrite IH. apply orb_true_r.
Qed.

Lemma lower_kept_by_lower c : is_ascii_lower c = true -> is_ascii_lower (py_lower_char c) = true.
Proof. ascii_cases c; vm_compute; auto. Qed.

Lemma lower_kept_by_workflow_chars c :
  is_ascii_lower c = true ->
  is_ascii_lower (if char_in c workflow_valid_chars then c else "_"%char) = true.
Proof. ascii_cases c; vm_compute; auto. Qed.

Lemma lower_not_underscore c : is_ascii_lower c = true -> is_underscore c = false.
Proof. ascii_cases c; vm_compute; auto; discriminate. Qed.

(** A name with a letter [a-z] in it does not come out empty. *)
Lemma validate_workflow_naming_nonempty v :
  sany is_ascii_lower v = true -> canon (validate_workflow_naming v) = true.
Proof.
  intros H.
  assert (Hs : sany is_ascii_lower (validate_workflow_naming v) = true).
  { unfold validate_workflow_naming, strip_underscores, py_lower.
    apply sany_rstrip; [exact lower_not_underscore|].
    apply sany_lstrip; [exact lower_not_underscore|].
    apply sany_sub_runs; [exact lower_not_underscore|reflexivity|].
    apply sany_smap; [exact lower_kept_by_workflow_chars|].
    apply sany_replace_char; [reflexivity|].
    apply sany_replace_char; [reflexivity|].
    apply sany_smap; [exact lower_kept_by_lower|exact H]. }
  destruct (validate_workflow_naming_shape v) as [E|E]; [|exact E].
  rewrite E in Hs. discriminate Hs.
Qed.

Lemma generated_name_canon opportunity :
  canon (validate_workflow_naming (_generate_workflow_name opportunity)) = true.
Proof.
  apply validate_workflow_naming_nonempty. unfold _generate_workflow_name.
  cbv zeta. rewrite sany_app. apply orb_true_r.
Qed.

(** X17.  [assemble_workflows] on any non-empty list of templates that load
    and whose connections can be checked succeeds.  The result has four
    nodes for each node of the templates, three retries everywhere, and the
    name the constructor makes of the generated name, which is never empty
    and is in normal form, so that the naming pass leaves it alone. *)
Theorem assemble_workflows_total :
  forall v workflow_names opportunity workflows,
    workflow_names <> [] ->
    mapM (load_workflow_from_vault v) workflow_names = Ok workflows ->
    Forall checkable workflows ->
    exists w,
      assemble_workflows v workflow_names opportunity = Ok w
      /\ List.length (N8nWorkflow.nodes w) = 4 * node_count workflows
      /\ three_retries w
      /\ N8nWorkflow.name w
         = validate_workflow_naming (_generate_workflow_name opportunity)
      /\ canon (N8nWorkflow.name w) = true.
Proof.
  intros v workflow_names opportunity workflows Hne Hload Hc.
  assert (Hws : workflows <> []).
  { apply mapM_length in Hload. destruct workflow_names; [contradiction|].
    destruct workflows; [discriminate Hload|discriminate]. }
  assert (Hinv : Forall workflow_invariant workflows).
  { apply (mapM_forall _ workflow_invariant) in Hload; [exact Hload|].
    intros name w. apply load_invariant. }
  destruct (combine_loaded workflows (_generate_workflow_name opportunity)
                           Hws Hinv Hc) as (combined & Hcomb & Hname & Hlen & Hcc).
  destruct (pipeline_ok combined "email" Hcc)
    as (w & Hpipe & Hlen' & Hr & Hname' & _ & [errs Herrs] & _).
  destruct (add_logging_instrumentation (prepared combined "email")) as [logged|]
    eqn:Hlog; [|discriminate Hpipe].
  cbv beta iota delta [bind] in Hpipe.
  exists w. split.
  { rewrite assemble_workflows_unfold, Hload. cbv beta iota delta [bind].
    rewrite Hcomb. change (processed combined) with (prepared combined "email").
    rewrite Hlog, Hpipe, Herrs. reflexivity. }
  split; [now rewrite Hlen', Hlen|]. split; [exact Hr|].
  rewrite Hname', Hname.
  pose proof (generated_name_canon opportunity) as Hg.
  rewrite (normalize_canon_id _ Hg). split; [reflexivity|exact Hg].
Qed.

Lemma assemble_workflows_total_witness :
  exists w,
    assemble_workflows lead_vault ["A"; "B"; "A"] lead_capture = Ok w
    /\ List.length (N8nWorkflow.nodes w) = 12
    /\ N8nWorkflow.name w = "lead_capture_automation".
Proof.
  destruct (assemble_workflows_total lead_vault ["A"; "B"; "A"] lead_capture
              [ loaded "a" (loaded_node "a1" "trigger" webhook_type);
                loaded "b" (loaded_node "b1" "notify" slack_type);
                loaded "a" (loaded_node "a1" "trigger" webhook_type) ])
    as (w & Hw & Hlen & _ & Hname & _).
  - discriminate.
  - reflexivity.
  - repeat constructor.
  - exists w. split; [exact Hw|]. split; [exact Hlen|exact Hname].
Defined.

Lemma mapM_raise {A B} (f : A -> result B) before a after bs e :
  mapM f before = Ok bs -> f a = Raise e ->
  mapM f (before ++ a :: after) = Raise e.
Proof.
  revert bs. induction before as [|a0 before IH]; intros bs Hb Ha; simpl.
  - now rewrite Ha.
  - simpl in Hb. destruct (f a0) as [b0|]; [|discriminate Hb].
    cbv beta iota delta [bind] in *.
    destruct (mapM f before) as [l|]; [|discriminate Hb].
    now rewrite (IH l eq_refl Ha).
Qed.

(** X18.  Whatever goes wrong inside [assemble_workflows] comes out as the
    assembler's own error around the cause, and as nothing else.  An empty
    list of names gives the error of the combination of no workflow; the
    first template that does not load gives the error of its loading, and
    the templates after it are not looked at. *)
Theorem assemble_workflows_failures :
  forall v workflow_names opportunity,
    (forall e, assemble_workflows v workflow_names opportunity = Raise e ->
               exists cause, e = FailedToAssemble cause)
    /\ (workflow_names = [] ->
        assemble_workflows v workflow_names opportunity
        = Raise (FailedToAssemble CannotCombineEmpty))
    /\ (forall before name after workflows e,
          workflow_names = (before ++ name :: after)%list ->
          mapM (load_workflow_from_vault v) before = Ok workflows ->
          load_workflow_from_vault v name = Raise e ->
          assemble_workflows v workflow_names opportunity
          = Raise (FailedToAssemble e)).
Proof.
  intros v workflow_names opportunity. split; [|split].
  - intros e. rewrite assemble_workflows_unfold.
    destruct (bind (mapM (load_workflow_from_vault v) workflow_names) _)
      as [w|cause]; [discriminate|].
    intros [= <-]. eauto.
  - intros ->. reflexivity.
  - intros before name after workflows e -> Hb Hn.
    unfold assemble_workflows. rewrite (mapM_raise _ _ _ _ _ _ Hb Hn). reflexivity.
Qed.

Lemma assemble_workflows_failures_witness :
  assemble_workflows lead_vault ["A"; "missing"; "B"] lead_capture
  = Raise (FailedToAssemble (NotFoundInVault "missing")).
Proof.
  apply (proj2 (proj2 (assemble_workflows_failures lead_vault ["A"; "missing"; "B"]
                         lead_capture))
               ["A"] "missing" ["B"]
               [loaded "a" (loaded_node "a1" "trigger" webhook_type)]).
  - reflexivity.
  - reflexivity.
  - reflexivity.
Defined.

(* ------------------------------------------------------------------ *)
(** ** What is exported can be loaded *)

Lemma match_snake_rest_all s : sall snake_char s = true -> match_snake_rest s = true.
Proof.
  induction s as [|c s IH]; simpl; [reflexivity|].
  intros H. apply andb_prop in H. destruct H as [-> Hs]. now apply IH.
Qed.

Lemma node_structure_exported node index :
  sall snake_char (N8nNode.name node) = true ->
  _validate_node_structure (node_to_n8n_json node) index = Ok [].
Proof.
  intros Hn. destruct node as [i n t [px py] ps c r f].
  cbn [N8nNode.name] in Hn.
  unfold _validate_node_structure, node_to_n8n_json.
  cbn [N8nNode.id N8nNode.name N8nNode.type N8nNode.position N8nNode.parameters
       N8nNode.credentials x y].
  cbn [mapM py_in dict_has dict_get List.app String.eqb Ascii.eqb Bool.eqb].
  cbv beta iota delta [bind].
  cbn [py_get dict_get List.app String.eqb Ascii.eqb Bool.eqb List.concat].
  destruct n as [|a n]; [reflexivity|].
  cbn [truthy String.eqb negb].
  rewrite (smap_id_on _ _ _ snake_char_lower Hn : py_lower (String a n) = String a n).
  cbn [sall] in Hn. apply andb_prop in Hn. destruct Hn as [Ha Hn].
  cbn [match_node_naming]. rewrite Ha, (match_snake_rest_all _ Hn). reflexivity.
Qed.

Lemma enumerate_from_map {A B} (f : A -> B) (l : list A) start :
  enumerate_from start (map f l)
  = map (fun i_a => (fst i_a, f (snd i_a))) (enumerate_from start l).
Proof.
  revert start. induction l as [|a l IH]; intros start; simpl; [reflexivity|].
  now rewrite IH.
Qed.

Lemma workflow_json_exported w :
  Forall (fun node => sall snake_char (N8nNode.name node) = true) (N8nWorkflow.nodes w) ->
  validate_workflow_json (to_n8n_json w) = Ok [].
Proof.
  intros Hnames. destruct w as [name nodes conns settings wid active tags].
  cbn [N8nWorkflow.nodes] in Hnames.
  unfold validate_workflow_json, to_n8n_json.
  cbn [N8nWorkflow.name N8nWorkflow.nodes N8nWorkflow.connections
       N8nWorkflow.settings N8nWorkflow.id N8nWorkflow.active N8nWorkflow.tags].
  cbn [mapM py_in dict_has dict_get List.app String.eqb Ascii.eqb Bool.eqb].
  cbv beta iota delta [bind].
  cbn [py_get dict_get List.app String.eqb Ascii.eqb Bool.eqb List.concat].
  rewrite (mapM_ok _ (fun _ => [])).
  - now rewrite concat_nils.
  - unfold enumerate. rewrite enumerate_from_map, Forall_map.
    eapply Forall_impl;
      [|apply (Forall_enumerate_from
                 (fun node => forall index,
                      _validate_node_structure (node_to_n8n_json node) index = Ok []));
        eapply Forall_impl; [|exact Hnames];
        intros node Hn index; now apply node_structure_exported].
    intros [i node] H. apply H.
Qed.

Lemma node_round_trip_twice node :
  node_round_trip (node_round_trip node) = node_round_trip node.
Proof.
  unfold node_round_trip. cbn [N8nNode.id N8nNode.name N8nNode.type N8nNode.position
                               N8nNode.parameters N8nNode.credentials].
  now destruct (N8nNode.credentials node) as [[|e c]|].
Qed.

(** X19.  What [to_n8n_json] writes for a workflow that satisfies what the
    constructors check is a document in which [validate_workflow_json]
    finds no error, and a vault that holds it under a name gives, for that
    name, the workflow back up to what the wire format drops: empty
    credentials, an empty id, and retry fields, which come back as the
    defaults.  The workflow that comes back satisfies what the constructors
    check, and a second trip through the wire format changes nothing
    more. *)
Theorem exported_document_loads :
  forall w,
    workflow_invariant w ->
    validate_workflow_json (to_n8n_json w) = Ok []
    /\ (forall v workflow_name,
          v workflow_name = Some (Document (to_n8n_json w)) ->
          load_workflow_from_vault v workflow_name = Ok (workflow_round_trip w))
    /\ workflow_invariant (workflow_round_trip w)
    /\ workflow_round_trip (workflow_round_trip w) = workflow_round_trip w.
Proof.
  intros w (Hne & Hname & Hnodes).
  assert (Hnames : Forall (fun node => sall snake_char (N8nNode.name node) = true)
                          (N8nWorkflow.nodes w)).
  { eapply Forall_impl; [|exact Hnodes]. intros node Hn. apply Hn. }
  split; [now apply workflow_json_exported|].
  split.
  { intros v workflow_name Hv. unfold load_workflow_from_vault. rewrite Hv.
    rewrite (workflow_json_exported w Hnames). cbv beta iota delta [bind].
    now rewrite (from_to_n8n_json w Hne Hnames). }
  split.
  { unfold workflow_invariant, workflow_round_trip. cbn [N8nWorkflow.nodes N8nWorkflow.name].
    split; [destruct (N8nWorkflow.nodes w); [contradiction|discriminate]|].
    split; [apply validate_workflow_naming_snake|].
    apply Forall_map. eapply Forall_impl; [|exact Hnames].
    intros node Hn. split; [exact Hn|reflexivity]. }
  unfold workflow_round_trip.
  cbn [N8nWorkflow.nodes N8nWorkflow.name N8nWorkflow.connections
       N8nWorkflow.settings N8nWorkflow.id N8nWorkflow.active N8nWorkflow.tags].
  rewrite validate_workflow_naming_idempotent, map_map.
  rewrite (map_ext _ _ node_round_trip_twice).
  now destruct (N8nWorkflow.id w) as [[|a i]|].
Qed.

Lemma exported_document_loads_witness :
  load_workflow_from_vault
    (fun name => if (name =? "saved")%string
                 then Some (Document (to_n8n_json second_workflow)) else None)
    "saved"
  = Ok (workflow_round_trip second_workflow).
Proof.
  apply (proj1 (proj2 (exported_document_loads second_workflow
                         ltac:(repeat split; try discriminate; repeat constructor)))).
  reflexivity.
Defined.

(* ------------------------------------------------------------------ *)
(** ** Packages *)

Lemma slug_char_model c :
  char_in c slug_valid_chars && negb ((" " =? c)%char || py_isupper c) = slug_char c.
Proof. ascii_cases c; vm_compute; reflexivity. Qed.

Lemma slug_model v :
  sall (fun c => char_in c slug_valid_chars) v
  && negb (char_in " " v || sany py_isupper v)
  = sall slug_char v.
Proof.
  unfold char_in at 2.
  induction v as [|c v IH]; [reflexivity|]. cbn [sall sany].
  rewrite <- IH, <- slug_char_model.
  generalize (sall (fun c0 => char_in c0 slug_valid_chars) v)
             (sany (fun d => (" " =? d)%char) v) (sany py_isupper v).
  intros b1 b2 b3.
  destruct (char_in c slug_valid_chars), (" " =? c)%char, (py_isupper c), b1, b2, b3;
    reflexivity.
Qed.

Lemma slug_char_lower c : slug_char c = true -> py_lower_char c = c.
Proof. ascii_cases c; vm_compute; auto; discriminate. Qed.

(** The validator accepts exactly the slugs made of [[a-z0-9_-]], and
    returns them as they are. *)
Lemma validate_slug_spec v :
  validate_slug v
  = if sall slug_char v then Ok v else Raise (ValidationError slug_message).
Proof.
  unfold validate_slug. rewrite <- slug_model.
  destruct (sall (fun c => char_in c slug_valid_chars) v) eqn:E1; cbn [negb andb];
    [|reflexivity].
  destruct (char_in " " v || sany py_isupper v) eqn:E2; cbn [negb]; [reflexivity|].
  f_equal. apply (smap_id_on _ slug_char); [exact slug_char_lower|].
  rewrite <- slug_model, E1, E2. reflexivity.
Qed.

Lemma validate_version_spec v :
  validate_version v
  = if version_ok v then Ok v
    else Raise (ValidationError
                  (if (List.length (split_on "." v) =? 3)%nat
                   then "Version parts must be numeric"
                   else "Version must follow semantic versioning (x.y.z)")).
Proof.
  unfold validate_version, version_ok. cbv zeta.
  destruct (split_on "." v) as [|a [|b [|c [|d l]]]]; try reflexivity.
  cbn [List.length Nat.eqb negb forallb].
  rewrite andb_true_r, andb_assoc.
  destruct (py_isdigit a && py_isdigit b && py_isdigit c); reflexivity.
Qed.

Lemma split_on_nonempty sep s : split_on sep s <> [].
Proof.
  destruct s as [|c s]; simpl; [discriminate|].
  destruct (c =? sep)%char; [discriminate|]. destruct (split_on sep s); discriminate.
Qed.

(** Joining the parts with the separator gives the string back. *)
Lemma split_on_join sep s : join (String sep "") (split_on sep s) = s.
Proof.
  induction s as [|c s IH]; [reflexivity|].
  cbn [split_on]. pose proof (split_on_nonempty sep s) as Hne.
  destruct (Ascii.eqb_spec c sep) as [->|Hc].
  - destruct (split_on sep s) as [|part parts]; [contradiction|].
    change (join (String sep "") ("" :: part :: parts))
      with (String sep (join (String sep "") (part :: parts))).
    now rewrite IH.
  - destruct (split_on sep s) as [|part parts]; [contradiction|].
    rewrite <- IH. destruct parts; reflexivity.
Qed.

Lemma split_on_plain sep s :
  sall (fun c => negb (c =? sep)%char) s = true -> split_on sep s = [s].
Proof.
  induction s as [|c s IH]; simpl; [reflexivity|].
  intros H. apply andb_prop in H. destruct H as [Hc Hs].
  apply negb_true_iff in Hc. rewrite Hc, (IH Hs). reflexivity.
Qed.

Lemma split_on_app sep a rest :
  sall (fun c => negb (c =? sep)%char) a = true ->
  split_on sep (a ++ String sep rest) = a :: split_on sep rest.
Proof.
  induction a as [|c a IH]; simpl.
  - now rewrite Ascii.eqb_refl.
  - intros H. apply andb_prop in H. destruct H as [Hc Hs].
    apply negb_true_iff in Hc. rewrite Hc, (IH Hs). reflexivity.
Qed.

Lemma digits_no_dot s :
  py_isdigit s = true -> sall (fun c => negb (c =? ".")%char) s = true.
Proof.
  unfold py_isdigit. intros H. apply andb_prop in H. destruct H as [_ H].
  induction s as [|c s IH]; simpl in *; [reflexivity|].
  apply andb_prop in H. destruct H as [Hc Hs]. rewrite (IH Hs), andb_true_r.
  revert Hc. clear. ascii_cases c; vm_compute; auto.
Qed.

(** X20.  [validate_version] accepts a version exactly when it is three
    parts with a dot between them, each part one or more characters for
    which [isdigit] holds; it returns it unchanged, reports a wrong number
    of parts before a part that is not numeric, and so refuses a version
    with an empty part, with two or four parts, with a prefix or a
    suffix. *)
Theorem validate_version_accepts_iff :
  forall v,
    (validate_version v = Ok v
     <-> exists major minor patch,
           v = major ++ "." ++ minor ++ "." ++ patch
           /\ py_isdigit major = true /\ py_isdigit minor = true
           /\ py_isdigit patch = true)
    /\ (forall v', validate_version v = Ok v' -> v' = v)
    /\ (forall e, validate_version v = Raise e ->
          e = ValidationError
                (if (List.length (split_on "." v) =? 3)%nat
                 then "Version parts must be numeric"
                 else "Version must follow semantic versioning (x.y.z)")).
Proof.
  intros v. rewrite validate_version_spec. split; [|split].
  - split.
    + intros H. unfold version_ok in H. pose proof (split_on_join "." v) as Hj.
      destruct (split_on "." v) as [|a [|b [|c [|d l]]]]; try discriminate.
      destruct (py_isdigit a) eqn:Ea; [|discriminate].
      destruct (py_isdigit b) eqn:Eb; [|discriminate].
      destruct (py_isdigit c) eqn:Ec; [|discriminate].
      exists a, b, c. split; [|auto]. rewrite <- Hj. reflexivity.
    + intros (a & b & c & -> & Ha & Hb & Hc). unfold version_ok.
      change (a ++ "." ++ b ++ "." ++ c)
        with (a ++ String "." (b ++ String "." c)).
      rewrite (split_on_app "." a _ (digits_no_dot _ Ha)).
      rewrite (split_on_app "." b _ (digits_no_dot _ Hb)).
      rewrite (split_on_plain "." c (digits_no_dot _ Hc)).
      now rewrite Ha, Hb, Hc.
  - intros v'. destruct (version_ok v); [now intros [= <-]|discriminate].
  - intros e. destruct (version_ok v); [discriminate|now intros [= <-]].
Qed.

Lemma validate_version_accepts_iff_witness :
  validate_version "2.5.10" = Ok "2.5.10".
Proof.
  apply (proj1 (validate_version_accepts_iff "2.5.10")).
  exists "2", "5", "10". repeat split.
Defined.

Lemma min_length_1_spec v :
  min_length_1 v = if negb (v =? "")%string then Ok v
                   else Raise (ValidationError "String should have at least 1 character").
Proof. unfold min_length_1. now destruct (v =? "")%string. Qed.

Lemma AutomationPackage_new_spec name slug niche_tags problem_statement outcomes
    roi_notes inputs outputs dependencies security_notes status version
    repo_path n8n_export_path :
  (package_acceptable name slug problem_statement roi_notes version = true ->
   AutomationPackage_new name slug niche_tags problem_statement outcomes roi_notes
     inputs outputs dependencies security_notes status version repo_path
     n8n_export_path
   = Ok (AutomationPackage.mk name slug niche_tags problem_statement outcomes
           roi_notes inputs outputs dependencies security_notes status version
           repo_path n8n_export_path))
  /\ (package_acceptable name slug problem_statement roi_notes version = false ->
      exists msg,
        AutomationPackage_new name slug niche_tags problem_statement outcomes
          roi_notes inputs outputs dependencies security_notes status version
          repo_path n8n_export_path
        = Raise (ValidationError msg)).
Proof.
  unfold package_acceptable, AutomationPackage_new.
  rewrite !min_length_1_spec.
  destruct (negb (name =? "")%string); cbn [andb bind]; [|split; [discriminate|eauto]].
  destruct (negb (slug =? "")%string); cbn [andb bind]; [|split; [discriminate|eauto]].
  rewrite validate_slug_spec.
  destruct (sall slug_char slug); cbn [andb bind]; [|split; [discriminate|eauto]].
  destruct (negb (problem_statement =? "")%string); cbn [andb bind];
    [|split; [discriminate|eauto]].
  destruct (negb (roi_notes =? "")%string); cbn [andb bind];
    [|split; [discriminate|eauto]].
  rewrite validate_version_spec.
  destruct (version_ok version); cbn [andb bind]; split;
    try discriminate; try reflexivity; eauto.
Qed.

(** X21.  The constructor of packages succeeds exactly when name, slug,
    problem statement and ROI notes are not empty, the slug is made of
    [[a-z0-9_-]] and the version is three numeric parts; it stores its
    arguments as they are.  On a package that came out of the constructor,
    [validate_package] returns four results, one for each required field
    and all of them passed, so its report says PASS. *)
Theorem constructed_package_passes_validation :
  forall name slug niche_tags problem_statement outcomes roi_notes inputs outputs
         dependencies security_notes status version repo_path n8n_export_path,
    let made := AutomationPackage_new name slug niche_tags problem_statement outcomes
                  roi_notes inputs outputs dependencies security_notes status
                  version repo_path n8n_export_path in
    (package_acceptable name slug problem_statement roi_notes version = false ->
     exists msg, made = Raise (ValidationError msg))
    /\ (package_acceptable name slug problem_statement roi_notes version = true ->
        exists package,
          made = Ok package
          /\ package = AutomationPackage.mk name slug niche_tags problem_statement
                         outcomes roi_notes inputs outputs dependencies
                         security_notes status version repo_path n8n_export_path
          /\ map passed (validate_package package) = [true; true; true; true]
          /\ map level (validate_package package)
             = ["metadata"; "metadata"; "metadata"; "metadata"]
          /\ overall_status
               (summary (generate_validation_report (validate_package package)))
             = "PASS").
Proof.
  intros name slug niche_tags problem_statement outcomes roi_notes inputs outputs
         dependencies security_notes status version repo_path n8n_export_path made.
  destruct (AutomationPackage_new_spec name slug niche_tags problem_statement outcomes
              roi_notes inputs outputs dependencies security_notes status version
              repo_path n8n_export_path) as [Hok Hbad].
  split; [exact Hbad|].
  intros Hacc. eexists. split; [exact (Hok Hacc)|]. split; [reflexivity|].
  unfold package_acceptable in Hacc.
  repeat (apply andb_prop in Hacc; destruct Hacc as [Hacc ?]).
  unfold validate_package, _validate_package_metadata, required_fields,
    generate_validation_report.
  cbn [map package_getattr String.eqb Ascii.eqb Bool.eqb truthy
       AutomationPackage.name AutomationPackage.slug
       AutomationPackage.problem_statement AutomationPackage.roi_notes].
  repeat match goal with
         | H : negb ?b = true |- _ => rewrite H; clear H
         | H : negb ?b && _ = true |- _ => apply andb_prop in H; destruct H
         end.
  repeat split.
Qed.

Lemma constructed_package_passes_validation_witness :
  exists package,
    AutomationPackage_new "Lead Intake" "lead-intake" [] "Leads are typed in by hand"
      [] "Saves two hours a day" [] [] [] "" DRAFT "2.5.10" None None = Ok package
    /\ map passed (validate_package package) = [true; true; true; true].
Proof.
  destruct (proj2 (constructed_package_passes_validation
                     "Lead Intake" "lead-intake" [] "Leads are typed in by hand"
                     [] "Saves two hours a day" [] [] [] "" DRAFT "2.5.10" None None)
                  eq_refl)
    as (package & Hmade & _ & Hpassed & _).
  exists package. split; [exact Hmade|exact Hpassed].
Defined.

(* ------------------------------------------------------------------ *)
(** ** The other exporter *)




(* ------------------------------------------------------------------ *)
(** ** The methods of the model that edit the node list *)

Lemma list_insert_length {A} (l : list A) i a :
  List.length (WorkflowModel.list_insert l i a) = S (List.length l).
Proof.
  unfold WorkflowModel.list_insert.
  rewrite length_app. cbn [List.length]. rewrite Nat.add_succ_r, <- length_app.
  now rewrite firstn_skipn.
Qed.

Lemma list_insert_Forall {A} (P : A -> Prop) (l : list A) i a :
  Forall P l -> P a -> Forall P (WorkflowModel.list_insert l i a).
Proof.
  intros Hl Ha. unfold WorkflowModel.list_insert.
  rewrite <- (firstn_skipn i l) in Hl. apply Forall_app in Hl. destruct Hl as [H1 H2].
  apply Forall_app. split; [exact H1|]. constructor; assumption.
Qed.

Lemma add_logging_loop_diverges fuel :
  forall nodes i,
    i < List.length nodes ->
    Forall (fun node => sall snake_char (N8nNode.name node) = true) nodes ->
    WorkflowModel.add_logging_loop fuel nodes i = None.
Proof.
  induction fuel as [|fuel IH]; intros nodes i Hi Hall; [reflexivity|].
  cbn [WorkflowModel.add_logging_loop].
  destruct (nth_error nodes i) as [node|] eqn:E.
  - assert (Hn : sall snake_char (N8nNode.name node) = true).
    { rewrite Forall_forall in Hall. apply Hall. eapply nth_error_In. exact E. }
    unfold WorkflowModel.logging_node. rewrite N8nNode_new_ok
      by (rewrite sall_app, Hn; reflexivity).
    apply IH.
    + rewrite list_insert_length. lia.
    + apply list_insert_Forall; [exact Hall|].
      cbn [N8nNode.name]. rewrite sall_app, Hn. reflexivity.
  - apply nth_error_None in E. lia.
Qed.

(** X23.  The method [N8nWorkflow.add_logging_instrumentation] does not
    return on a workflow that came out of the constructors.  It inserts a
    logging node behind the node it is visiting into the list it is
    enumerating, so the next node it visits is the logging node it has just
    made, the names it builds stay valid, and the end of the list stays out
    of reach: however many steps are allowed, they run out.  Only on an
    empty node list, which no constructed workflow has, does it return, and
    then it returns the workflow as it was. *)
Theorem model_add_logging_instrumentation_diverges :
  forall w,
    (workflow_invariant w ->
     forall fuel, WorkflowModel.add_logging_instrumentation fuel w = None)
    /\ (N8nWorkflow.nodes w = [] ->
        forall fuel, WorkflowModel.add_logging_instrumentation (S fuel) w = Some (Ok w)).
Proof.
  intros w. split.
  - intros (Hne & _ & Hnodes) fuel. unfold WorkflowModel.add_logging_instrumentation.
    rewrite add_logging_loop_diverges; [reflexivity| |].
    + destruct (N8nWorkflow.nodes w); [contradiction|simpl; lia].
    + eapply Forall_impl; [|exact Hnodes]. intros node Hn. apply Hn.
  - intros E fuel. unfold WorkflowModel.add_logging_instrumentation. rewrite E.
    cbn [WorkflowModel.add_logging_loop nth_error]. destruct w. simpl in E. now subst.
Qed.

Lemma model_add_logging_instrumentation_diverges_witness :
  WorkflowModel.add_logging_instrumentation 1000 second_workflow = None.
Proof.
  apply (proj1 (model_add_logging_instrumentation_diverges second_workflow)).
  repeat split; try discriminate; repeat constructor.
Defined.

Lemma mapM_map_fact {A B C} (f : A -> result B) (g : B -> C) (h : A -> C) l bs :
  (forall a b, f a = Ok b -> g b = h a) -> mapM f l = Ok bs -> map g bs = map h l.
Proof.
  intros Hf. revert bs. induction l as [|a l IH]; intros bs H; simpl in H.
  - now injection H as <-.
  - destruct (f a) as [b|] eqn:E; [|discriminate H].
    cbv beta iota delta [bind] in H.
    destruct (mapM f l) as [bs'|]; [|discriminate H].
    injection H as <-. simpl. f_equal; [now apply Hf|now apply IH].
Qed.

Lemma filter_enumerate_from {A B} (p : A -> bool) (h : A -> B) (l : list A) start :
  map (fun i_a => h (snd i_a)) (filter (fun i_a => p (snd i_a)) (enumerate_from start l))
  = map h (filter p l).
Proof.
  revert start. induction l as [|a l IH]; intros start; simpl; [reflexivity|].
  destruct (p a); simpl; now rewrite IH.
Qed.

Lemma shadow_nodes_total prefixes make nodes :
  Forall (fun node => forall i, exists m, make i node = Ok m) nodes ->
  exists shadows, shadow_nodes prefixes make nodes = Ok shadows.
Proof.
  intros H. unfold shadow_nodes. apply mapM_total.
  apply Forall_forall. intros [i node] Hin. apply filter_In in Hin.
  destruct Hin as [Hin _]. simpl.
  apply (Forall_enumerate_from _ _ 0) in H. rewrite Forall_forall in H.
  apply (H (i, node) Hin).
Qed.

(** X24.  The method [N8nWorkflow.add_error_handling] and the processor's
    [add_error_handling] on a workflow whose node names the constructor
    accepts: both succeed, both keep the nodes and append one error node
    for each node whose name does not start with [error__], and the nodes
    they append have the same names and the same type, in the same order.
    They differ in the ids: the method writes [error_<id>], the processor
    [error_<id>_<index>]. *)
Theorem model_add_error_handling_agrees :
  forall w,
    Forall (fun node => sall snake_char (N8nNode.name node) = true)
           (N8nWorkflow.nodes w) ->
    exists errors errors',
      WorkflowModel.add_error_handling w
      = Ok (N8nWorkflow.set_nodes w (N8nWorkflow.nodes w ++ errors)%list)
      /\ add_error_handling w
         = Ok (N8nWorkflow.set_nodes w (N8nWorkflow.nodes w ++ errors')%list)
      /\ map N8nNode.name errors = map N8nNode.name errors'
      /\ map N8nNode.type errors = map N8nNode.type errors'
      /\ map N8nNode.id errors
         = map (fun node => "error_" ++ N8nNode.id node)
               (filter (fun node => negb (startswith (N8nNode.name node) "error__"))
                       (N8nWorkflow.nodes w))
      /\ map N8nNode.id errors'
         = map (fun i_node => "error_" ++ N8nNode.id (snd i_node) ++ "_"
                              ++ string_of_nat (fst i_node))
               (filter (fun i_node =>
                          negb (startswith (N8nNode.name (snd i_node)) "error__"))
                       (enumerate (N8nWorkflow.nodes w))).
Proof.
  intros w Hnames.
  destruct (mapM_total WorkflowModel.error_node
              (filter (fun node => negb (startswith (N8nNode.name node) "error__"))
                      (N8nWorkflow.nodes w))) as [errors He].
  { apply Forall_forall. intros node Hin. apply filter_In in Hin.
    destruct Hin as [Hin _]. rewrite Forall_forall in Hnames.
    unfold WorkflowModel.error_node. rewrite N8nNode_new_ok; [eauto|].
    rewrite sall_app, (Hnames _ Hin). reflexivity. }
  destruct (shadow_nodes_total ["error__"] (error_node (N8nWorkflow.name w))
              (N8nWorkflow.nodes w)) as [errors' He'].
  { eapply Forall_impl; [|exact Hnames]. intros node Hn i.
    destruct (error_node_ok (N8nWorkflow.name w) i node Hn) as (m & Hm & _). eauto. }
  exists errors, errors'.
  split; [unfold WorkflowModel.add_error_handling; now rewrite He|].
  split; [unfold add_error_handling; now rewrite He'|].
  assert (Hfilter : forall (i_node : nat * N8nNode.t),
             negb (has_shadow_prefix ["error__"] (snd i_node))
             = negb (startswith (N8nNode.name (snd i_node)) "error__")).
  { intros i_node. unfold has_shadow_prefix. cbn [existsb]. now rewrite orb_false_r. }
  unfold shadow_nodes in He'. rewrite (filter_ext _ _ Hfilter) in He'.
  split.
  { rewrite (mapM_map_fact _ N8nNode.name (fun node => "error__" ++ N8nNode.name node)
               _ _ ltac:(intros a b Hb; apply N8nNode_new_inv in Hb;
                         destruct Hb as (_ & _ & ->); reflexivity) He).
    rewrite (mapM_map_fact _ N8nNode.name
               (fun i_node => "error__" ++ N8nNode.name (snd i_node))
               _ _ ltac:(intros a b Hb; apply N8nNode_new_inv in Hb;
                         destruct Hb as (_ & _ & ->); reflexivity) He').
    unfold enumerate. symmetry.
    apply (filter_enumerate_from
             (fun node => negb (startswith (N8nNode.name node) "error__"))
             (fun node => "error__" ++ N8nNode.name node)). }
  split.
  { rewrite (mapM_map_fact _ N8nNode.type (fun _ => "n8n-nodes-base.webhook")
               _ _ ltac:(intros a b Hb; apply N8nNode_new_inv in Hb;
                         destruct Hb as (_ & _ & ->); reflexivity) He).
    rewrite (mapM_map_fact _ N8nNode.type (fun _ => "n8n-nodes-base.webhook")
               _ _ ltac:(intros a b Hb; apply N8nNode_new_inv in Hb;
                         destruct Hb as (_ & _ & ->); reflexivity) He').
    unfold enumerate. symmetry.
    apply (filter_enumerate_from
             (fun node => negb (startswith (N8nNode.name node) "error__"))
             (fun _ : N8nNode.t => "n8n-nodes-base.webhook")). }
  split.
  - apply (mapM_map_fact _ N8nNode.id (fun node => "error_" ++ N8nNode.id node)
             _ _ ltac:(intros a b Hb; apply N8nNode_new_inv in Hb;
                       destruct Hb as (_ & _ & ->); reflexivity) He).
  - apply (mapM_map_fact _ N8nNode.id
             (fun i_node => "error_" ++ N8nNode.id (snd i_node) ++ "_"
                            ++ string_of_nat (fst i_node))
             _ _ ltac:(intros a b Hb; apply N8nNode_new_inv in Hb;
                       destruct Hb as (_ & _ & ->); reflexivity) He').
Qed.

Lemma model_add_error_handling_agrees_witness :
  exists errors,
    WorkflowModel.add_error_handling second_workflow
    = Ok (N8nWorkflow.set_nodes second_workflow
            (N8nWorkflow.nodes second_workflow ++ errors)%list)
    /\ map N8nNode.id errors = ["error_node_2"; "error_node_3"].
Proof.
  destruct (model_add_error_handling_agrees second_workflow)
    as (errors & errors' & Hm & _ & _ & _ & Hids & _).
  - repeat constructor.
  - exists errors. split; [exact Hm|exact Hids].
Defined.

(** X25.  The method [N8nWorkflow.add_idempotency_keys] touches the nodes
    of Google Sheets and of Airtable kind only, and none of their fields
    but the parameters.  There it leaves [idempotencyKey] reading
    [hash(<key_field>)], without the braces of an expression, and makes
    sure of an entry [parameters].  The last call wins: a call after
    another gives what it gives alone, so the method is idempotent. *)
Theorem model_add_idempotency_keys_last_call_wins :
  forall w key_field key_field',
    WorkflowModel.add_idempotency_keys
      (WorkflowModel.add_idempotency_keys w key_field) key_field'
    = WorkflowModel.add_idempotency_keys w key_field'
    /\ Forall2
         (fun node node' =>
            if id_in ["n8n-nodes-base.googleSheets"; "n8n-nodes-base.airtable"]
                     (N8nNode.type node)
            then N8nNode.set_parameters node' (N8nNode.parameters node) = node
                 /\ dict_get (N8nNode.parameters node') "idempotencyKey"
                    = Some (PStr ("hash(" ++ key_field ++ ")"))
                 /\ dict_has (N8nNode.parameters node') "parameters" = true
                 /\ (forall k, k <> "idempotencyKey" -> k <> "parameters" ->
                        dict_get (N8nNode.parameters node') k
                        = dict_get (N8nNode.parameters node) k)
            else node' = node)
         (N8nWorkflow.nodes w)
         (N8nWorkflow.nodes (WorkflowModel.add_idempotency_keys w key_field)).
Proof.
  intros [name nodes conns settings wid active tags] k k'. split.
  - unfold WorkflowModel.add_idempotency_keys, N8nWorkflow.set_nodes.
    cbn [N8nWorkflow.nodes N8nWorkflow.name N8nWorkflow.connections
         N8nWorkflow.settings N8nWorkflow.id N8nWorkflow.active N8nWorkflow.tags].
    apply (f_equal (fun l => N8nWorkflow.mk name l conns settings wid active tags)).
    rewrite map_map. apply map_ext. intros node.
    destruct (id_in _ (N8nNode.type node)) eqn:E;
      cbn [N8nNode.type N8nNode.set_parameters]; rewrite E; [|reflexivity].
    unfold N8nNode.set_parameters.
    cbn [N8nNode.parameters N8nNode.id N8nNode.name N8nNode.type N8nNode.position
         N8nNode.credentials N8nNode.retries N8nNode.retry_on_fail].
    set (P := if negb (dict_has (N8nNode.parameters node) "parameters")
              then dict_set (N8nNode.parameters node) "parameters" (PDict [])
              else N8nNode.parameters node).
    assert (HP : dict_has P "parameters" = true).
    { subst P. destruct (dict_has (N8nNode.parameters node) "parameters") eqn:Ep;
        cbn [negb]; [exact Ep|apply dict_has_set]. }
    rewrite (dict_has_set_other _ "parameters" "idempotencyKey" _ HP). cbn [negb].
    now rewrite dict_set_over.
  - unfold WorkflowModel.add_idempotency_keys.
    cbn [N8nWorkflow.nodes N8nWorkflow.set_nodes].
    induction nodes as [|node nodes IH]; cbn [map]; constructor; [|exact IH].
    destruct (id_in _ (N8nNode.type node)); [|reflexivity].
    cbn [N8nNode.parameters N8nNode.set_parameters N8nNode.id N8nNode.name
         N8nNode.type N8nNode.position N8nNode.credentials N8nNode.retries
         N8nNode.retry_on_fail].
    split; [now destruct node|]. split; [apply dict_get_set_same|].
    split.
    { apply dict_has_set_other.
      destruct (dict_has (N8nNode.parameters node) "parameters") eqn:Ep;
        cbn [negb]; [exact Ep|apply dict_has_set]. }
    intros key Hk1 Hk2. rewrite dict_get_set_other by congruence.
    destruct (dict_has (N8nNode.parameters node) "parameters"); cbn [negb];
      [reflexivity|]. apply dict_get_set_other. congruence.
Qed.

(** X26.  [simulate_test_run] on a workflow with at least one node, as
    every constructed workflow has: the result is of level simulation, it
    passes exactly when the fixture holds at least one entry, and the
    failure for an empty workflow is out of reach. *)
Theorem simulate_test_run_spec :
  forall w fixture_data,
    N8nWorkflow.nodes w <> [] ->
    level (simulate_test_run w fixture_data) = "simulation"
    /\ passed (simulate_test_run w fixture_data)
       = negb (List.length fixture_data =? 0)%nat
    /\ message (simulate_test_run w fixture_data) <> "Cannot simulate empty workflow"
    /\ (fixture_data = [] ->
        simulate_test_run w fixture_data
        = mkResult false "simulation" "No fixture data provided").
Proof.
  intros w fixture_data Hne. unfold simulate_test_run.
  destruct (N8nWorkflow.nodes w) as [|node nodes]; [contradiction|].
  cbn [List.length Nat.eqb truthy].
  destruct fixture_data as [|e fixture_data]; cbn [negb List.length Nat.eqb].
  - repeat split; discriminate.
  - repeat split; discriminate.
Qed.

Lemma simulate_test_run_spec_witness :
  passed (simulate_test_run sample_workflow [("email", PStr "a@b.c")]) = true.
Proof.
  apply (proj1 (proj2 (simulate_test_run_spec sample_workflow
                         [("email", PStr "a@b.c")] ltac:(discriminate)))).
Defined.

(* ------------------------------------------------------------------ *)
(** ** Assembly keeps connections without a flaw *)

Lemma dest_valid_checkable ids dest : dest_valid ids dest = true -> dest_checkable dest = true.
Proof.
  destruct dest as [| | | |l|d]; simpl; auto.
  destruct (dict_get d "node") as [[| | |n| |]|]; auto; discriminate.
Qed.

Lemma well_connected_checkable w : well_connected w -> checkable w.
Proof.
  unfold well_connected, checkable, connections_valid, connections_checkable.
  rewrite !forallb_forall. intros H [source targets] Hin. specialize (H _ Hin).
  cbn [fst snd] in *. apply andb_prop in H. destruct H as [_ Ht].
  destruct targets as [| | | |l|d]; simpl in *; try discriminate.
  rewrite forallb_forall in *. intros [out dests] Hout. specialize (Ht _ Hout).
  cbn [snd] in *. destruct dests as [| | | |l|d']; simpl in *; try discriminate.
  rewrite forallb_forall in *. intros dest Hd.
  apply (dest_valid_checkable (node_ids w)). now apply Ht.
Qed.

Lemma node_ids_prepared w key_field : node_ids (prepared w key_field) = node_ids w.
Proof.
  unfold node_ids, prepared, add_idempotency_keys, inject_retry_logic,
    enforce_naming_conventions.
  cbn [N8nWorkflow.set_nodes N8nWorkflow.nodes]. rewrite !map_map.
  apply map_ext. intros node.
  assert (E : forall n, N8nNode.id (inject_retry_node n) = N8nNode.id n)
    by (intros n; apply (inject_retry_node_spec n)).
  destruct (_supports_idempotency _); cbn [N8nNode.set_parameters N8nNode.id];
    now rewrite E.
Qed.

Lemma combine_loaded_well_connected workflows combined_name :
  workflows <> [] ->
  Forall workflow_invariant workflows ->
  Forall well_connected workflows ->
  exists combined,
    combine_workflows workflows combined_name = Ok combined
    /\ well_connected combined.
Proof.
  intros Hne Hinv Hv. destruct workflows as [|first_workflow rest]; [contradiction|].
  inversion Hinv as [|? ? (Hnodes & _ & _) Hrest]; subst.
  destruct rest as [|second rest].
  - unfold combine_workflows, N8nWorkflow_new, validate_required_nodes.
    destruct (N8nWorkflow.nodes first_workflow) as [|node nodes] eqn:E;
      [contradiction|].
    cbv beta iota delta [bind]. eexists. split; [reflexivity|].
    inversion Hv as [|? ? Hfirst _]; subst.
    unfold well_connected, node_ids in *.
    cbn [N8nWorkflow.nodes N8nWorkflow.connections]. now rewrite <- E.
  - exists (combined_many first_workflow (second :: rest) combined_name).
    split; [|now apply combined_many_well_connected].
    apply combine_workflows_many_shape; [exact Hnodes|].
    apply Forall_forall. intros w Hin. rewrite Forall_forall in Hrest, Hv.
    destruct (Hrest _ Hin) as (_ & Hname & Hn). split; [exact Hname|].
    split; [exact Hn|]. apply connections_checkable_dicts.
    apply well_connected_checkable. apply Hv. now right.
Qed.

(** X27.  Assembly keeps connections without a flaw.  When the templates
    load and in each of them every connection source is a node id, every
    output holds a list and every destination that names a node names the
    id of a node, the assembled workflow has connections of that kind:
    renaming the nodes leaves their ids alone, and the shadow nodes only add
    ids.  So [validate_node_connections] finds nothing to warn about, and
    the validator's check of the connections passes. *)
Theorem assembled_connections_valid :
  forall v workflow_names opportunity workflows,
    workflow_names <> [] ->
    mapM (load_workflow_from_vault v) workflow_names = Ok workflows ->
    Forall well_connected workflows ->
    exists w results,
      assemble_workflows v workflow_names opportunity = Ok w
      /\ well_connected w
      /\ validate_node_connections w = Ok []
      /\ validate_workflow w = Ok results
      /\ In (mkResult true "schema" "All node connections are valid") results.
Proof.
  intros v workflow_names opportunity workflows Hne Hload Hv.
  assert (Hws : workflows <> []).
  { apply mapM_length in Hload. destruct workflow_names; [contradiction|].
    destruct workflows; [discriminate Hload|discriminate]. }
  assert (Hinv : Forall workflow_invariant workflows).
  { apply (mapM_forall _ workflow_invariant) in Hload; [exact Hload|].
    intros name w. apply load_invariant. }
  destruct (combine_loaded_well_connected workflows
              (_generate_workflow_name opportunity) Hws Hinv Hv)
    as (combined & Hcomb & Hwc).
  destruct (prepared_facts combined "email") as (_ & Hconn & _ & Hcanon & _).
  set (p := prepared combined "email") in *.
  destruct (shadow_pipeline p Hcanon) as (logs & errors & Hlog & Herr & _).
  set (w := N8nWorkflow.set_nodes p ((N8nWorkflow.nodes p ++ logs) ++ errors)%list)
    in *.
  assert (Hw : well_connected w).
  { unfold well_connected, w, node_ids.
    cbn [N8nWorkflow.set_nodes N8nWorkflow.nodes N8nWorkflow.connections].
    rewrite Hconn.
    apply (connections_valid_mono (node_ids combined)); [|exact Hwc].
    intros i Hi. rewrite <- (node_ids_prepared combined "email") in Hi.
    fold p in Hi. unfold node_ids in Hi.
    rewrite <- app_assoc, map_app, id_in_app, Hi. reflexivity. }
  pose proof (well_connected_sound w Hw) as Hvalid.
  exists w. eexists. split.
  { rewrite assemble_workflows_unfold, Hload. cbv beta iota delta [bind].
    rewrite Hcomb. change (processed combined) with p.
    rewrite Hlog, Herr, Hvalid. reflexivity. }
  split; [exact Hw|]. split; [exact Hvalid|].
  unfold validate_workflow, _validate_json_schema. rewrite Hvalid.
  cbv beta iota delta [bind]. split; [reflexivity|].
  cbn [List.app schema_connection_check]. right. right. left. reflexivity.
Qed.

Lemma assembled_connections_valid_witness :
  exists w,
    assemble_workflows lead_vault ["A"; "B"] lead_capture = Ok w
    /\ validate_node_connections w = Ok [].
Proof.
  destruct (assembled_connections_valid lead_vault ["A"; "B"] lead_capture
              [ loaded "a" (loaded_node "a1" "trigger" webhook_type);
                loaded "b" (loaded_node "b1" "notify" slack_type) ])
    as (w & results & Hw & _ & Hv & _).
  - discriminate.
  - reflexivity.
  - repeat constructor.
  - exists w. split; [exact Hw|exact Hv].
Defined.

(* ------------------------------------------------------------------ *)
(** ** Integrations and the constructor of nodes *)

(** X28.  [_identify_integrations] names each service once, and only
    Slack, HubSpot, Notion and Gmail, so at most four.  Slack is named
    exactly when the lowercased type of some node contains [slack]; HubSpot
    exactly when the type of some node contains [hubspot] and not [slack]:
    a node counts for the first service of the chain that its type
    mentions.  The check built on it passes whatever it finds. *)
Theorem identify_integrations_spec :
  forall w,
    NoDup (_identify_integrations w)
    /\ incl (_identify_integrations w) ["Slack"; "HubSpot"; "Notion"; "Gmail"]
    /\ List.length (_identify_integrations w) <= 4
    /\ (In "Slack" (_identify_integrations w)
        <-> exists node, In node (N8nWorkflow.nodes w)
                         /\ contains "slack" (py_lower (N8nNode.type node)) = true)
    /\ (In "HubSpot" (_identify_integrations w)
        <-> exists node, In node (N8nWorkflow.nodes w)
                         /\ contains "slack" (py_lower (N8nNode.type node)) = false
                         /\ contains "hubspot" (py_lower (N8nNode.type node)) = true)
    /\ Forall (fun r => passed r = true) (_validate_integrations w).
Proof.
  intros w. unfold _identify_integrations.
  assert (Hincl : incl (nodup string_dec (flat_map integration_of (N8nWorkflow.nodes w)))
                       ["Slack"; "HubSpot"; "Notion"; "Gmail"]).
  { intros name Hin. apply nodup_In in Hin. apply in_flat_map in Hin.
    destruct Hin as (node & _ & Hin). unfold integration_of in Hin. cbv zeta in Hin.
    destruct (contains "slack" _); [destruct Hin as [<-|[]]; simpl; tauto|].
    destruct (contains "hubspot" _); [destruct Hin as [<-|[]]; simpl; tauto|].
    destruct (contains "notion" _); [destruct Hin as [<-|[]]; simpl; tauto|].
    destruct (contains "gmail" _); [destruct Hin as [<-|[]]; simpl; tauto|].
    contradiction. }
  split; [apply NoDup_nodup|]. split; [exact Hincl|].
  split; [exact (NoDup_incl_length (NoDup_nodup _ _) Hincl)|].
  split; [|split].
  - rewrite nodup_In, in_flat_map. split.
    + intros (node & Hin & Hs). exists node. split; [exact Hin|].
      unfold integration_of in Hs. cbv zeta in Hs.
      destruct (contains "slack" _); [reflexivity|].
      destruct (contains "hubspot" _); [destruct Hs as [Hs|[]]; discriminate Hs|].
      destruct (contains "notion" _); [destruct Hs as [Hs|[]]; discriminate Hs|].
      destruct (contains "gmail" _); [destruct Hs as [Hs|[]]; discriminate Hs|].
      contradiction.
    + intros (node & Hin & Hs). exists node. split; [exact Hin|].
      unfold integration_of. cbv zeta. rewrite Hs. now left.
  - rewrite nodup_In, in_flat_map. split.
    + intros (node & Hin & Hs). exists node. split; [exact Hin|].
      unfold integration_of in Hs. cbv zeta in Hs.
      destruct (contains "slack" _); [destruct Hs as [Hs|[]]; discriminate Hs|].
      destruct (contains "hubspot" _); [split; reflexivity|].
      destruct (contains "notion" _); [destruct Hs as [Hs|[]]; discriminate Hs|].
      destruct (contains "gmail" _); [destruct Hs as [Hs|[]]; discriminate Hs|].
      contradiction.
    + intros (node & Hin & Hs & Hh). exists node. split; [exact Hin|].
      unfold integration_of. cbv zeta. rewrite Hs, Hh. now left.
  - destruct (integrations_always_pass w) as [msg ->]. repeat constructor.
Qed.

(** X29.  The constructor of nodes accepts exactly a name made of
    [[a-z0-9_]], the empty name among them, together with the retry count
    3; it then stores its arguments as they are.  Anything else is a
    validation error. *)
Theorem node_constructor_accepts_iff :
  forall i n t p ps c r f,
    (sall snake_char n = true /\ r = 3%Z ->
     N8nNode_new i n t p ps c r f = Ok (N8nNode.mk i n t p ps c 3 f))
    /\ (forall node, N8nNode_new i n t p ps c r f = Ok node ->
          sall snake_char n = true /\ r = 3%Z /\ node = N8nNode.mk i n t p ps c 3 f)
    /\ (sall snake_char n = false \/ r <> 3%Z ->
        exists msg, N8nNode_new i n t p ps c r f = Raise (ValidationError msg)).
Proof.
  intros i n t p ps c r f. split; [|split].
  - intros [Hn ->]. now apply N8nNode_new_ok.
  - intros node H. apply N8nNode_new_inv in H. destruct H as (Hv & Hr & Hnode).
    rewrite validate_naming_convention_spec in Hv.
    destruct (sall snake_char n); [auto|discriminate Hv].
  - unfold N8nNode_new. rewrite validate_naming_convention_spec.
    destruct (sall snake_char n); cbv beta iota delta [bind].
    + intros [H|Hr]; [discriminate H|]. unfold validate_retry_count.
      destruct (Z.eqb_spec r 3) as [|_]; [contradiction|]. cbn [negb]. eauto.
    + intros _. eauto.
Qed.

Lemma node_constructor_accepts_iff_witness :
  N8nNode_new "n1" "" "n8n-nodes-base.set" (mkPosition 0 0) [] None 3 false
  = Ok (N8nNode.mk "n1" "" "n8n-nodes-base.set" (mkPosition 0 0) [] None 3 false).
Proof.
  apply (proj1 (node_constructor_accepts_iff "n1" "" "n8n-nodes-base.set"
                  (mkPosition 0 0) [] None 3 false)).
  split; reflexivity.
Defined.
